(** * nfl-analysis: the two scatter-plot pipelines

    Shallow embedding of [src/ftn_graphing.py] ([create_nfl_scatter_plot],
    the team pipeline) and [src/graphing.py] ([create_qb_plot], the
    quarterback pipeline).

    Conventions of the embedding.
    - A pandas float is an exact rational ([Q]); a missing value (NaN) is
      [None].  Rounding of IEEE doubles is not modelled.
    - The standard deviation needs a square root, so the margins and the
      axis limits are real numbers ([R]); a NaN limit is [None].
    - A Python exception is the [Raise] branch of [result].
    - Strings are ASCII strings; [str.split] and [str.join] are written
      out below.
    - What pandas, matplotlib and PIL do is written out only as far as the
      two functions use it; each such definition says which call it
      stands for. *)

From Stdlib Require Import List String Ascii Bool Arith Lia.
From Stdlib Require Import ZArith QArith Qreals Reals Lra.
Import ListNotations.

Close Scope R_scope.
Close Scope Q_scope.
Close Scope Z_scope.
Open Scope nat_scope.
Open Scope string_scope.

(** ** Python values and exceptions *)

Module Py.

Inductive exn : Type :=
| KeyError
| TypeError
| ValueError
| AttributeError
| IndexError
| MergeError
| IOError.

Inductive result (A : Type) : Type :=
| Ok (a : A)
| Raise (e : exn).
Arguments Ok {A} a.
Arguments Raise {A} e.

Definition bind {A B : Type} (r : result A) (k : A -> result B) : result B :=
  match r with
  | Ok a => k a
  | Raise e => Raise e
  end.

Definition is_ok {A : Type} (r : result A) : bool :=
  match r with Ok _ => true | Raise _ => false end.

(** Truthiness of an optional string argument ([None] and [""] are
    falsy), as in [x_label if x_label else x_col]. *)
Definition truthy (o : option string) : bool :=
  match o with
  | None => false
  | Some s => negb (String.eqb s "")
  end.

(** [s.split(sep)] for a one-character separator: every occurrence of
    the separator cuts, empty pieces are kept, and the result is never
    empty ([''.split(' ') == ['']]). *)
Fixpoint split_by (p : ascii -> bool) (s : string) : list string :=
  match s with
  | EmptyString => [EmptyString]
  | String c s' =>
      if p c then EmptyString :: split_by p s'
      else match split_by p s' with
           | [] => [String c EmptyString]
           | t :: ts => String c t :: ts
           end
  end.

Definition split_on (sep : ascii) (s : string) : list string :=
  split_by (Ascii.eqb sep) s.

(** [str.isspace] on ASCII: tab, line feed, vertical tab, form feed,
    carriage return, the four separators 0x1c-0x1f and the space. *)
Definition isspace (c : ascii) : bool :=
  let n := nat_of_ascii c in
  (((9 <=? n) && (n <=? 13)) || ((28 <=? n) && (n <=? 31)) || (n =? 32))%nat.

Definition nonempty (s : string) : bool :=
  match s with EmptyString => false | String _ _ => true end.

(** [s.split()] with no argument: cut at runs of whitespace and drop
    the empty pieces. *)
Definition split_whitespace (s : string) : list string :=
  filter nonempty (split_by isspace s).

(** [sep.join(parts)] *)
Definition join (sep : string) (parts : list string) : string :=
  String.concat sep parts.

(** [parts[-1]], which raises IndexError on the empty list. *)
Definition last_item (parts : list string) : result string :=
  match rev parts with
  | [] => Raise IndexError
  | t :: _ => Ok t
  end.

End Py.

Notation "x <- c1 ;; c2" := (Py.bind c1 (fun x => c2))
  (at level 61, c1 at next level, right associativity).

Import Py.

(** ** The part of pandas the two functions use *)

Module Pandas.

(** A cell of an object column: text, a number, or one of the two
    missing values, the float NaN and Python's [None] (a JSON null). *)
Inductive obj : Type :=
| OStr (s : string)
| ONum (q : Q)
| ONaN
| ONone.

(** A column with its dtype: a numeric column (int64/float64, NaN is
    [None]) or an object column.  [read_csv] gives a numeric column when
    every non-empty cell parses as a number and an object column of
    strings otherwise. *)
Inductive series : Type :=
| NumSeries (vals : list (option Q))
| ObjSeries (vals : list obj).

(** A frame is its ordered list of named columns. *)
Definition DataFrame : Type := list (string * series).

Definition columns (df : DataFrame) : list string := map fst df.

Definition has_col (df : DataFrame) (c : string) : bool :=
  existsb (String.eqb c) (columns df).

(** [df[c]] *)
Fixpoint get_col (df : DataFrame) (c : string) : result series :=
  match df with
  | [] => Raise KeyError
  | (c', s) :: df' => if String.eqb c c' then Ok s else get_col df' c
  end.

(** [df[c] = s] for a column that exists. *)
Definition set_col (df : DataFrame) (c : string) (s : series) : DataFrame :=
  map (fun cs => if String.eqb c (fst cs) then (fst cs, s) else cs) df.

Definition series_len (s : series) : nat :=
  match s with
  | NumSeries l => List.length l
  | ObjSeries l => List.length l
  end.

Definition nrows (df : DataFrame) : nat :=
  match df with
  | [] => 0
  | (_, s) :: _ => series_len s
  end.

(** Every column of a frame has the frame's number of rows. *)
Definition wf (df : DataFrame) : Prop :=
  forall c s, In (c, s) df -> series_len s = nrows df.

(** [pd.api.types.is_numeric_dtype] *)
Definition is_numeric_dtype (s : series) : bool :=
  match s with
  | NumSeries _ => true
  | ObjSeries _ => false
  end.

Definition obj_isna (o : obj) : bool :=
  match o with
  | ONaN | ONone => true
  | OStr _ | ONum _ => false
  end.

Definition opt_isna {A : Type} (o : option A) : bool :=
  match o with None => true | Some _ => false end.

(** [s.notna()] *)
Definition notna (s : series) : list bool :=
  match s with
  | NumSeries l => map (fun o => negb (opt_isna o)) l
  | ObjSeries l => map (fun o => negb (obj_isna o)) l
  end.

(** Boolean-mask selection [s[mask]]. *)
Fixpoint select {A : Type} (mask : list bool) (l : list A) : list A :=
  match mask, l with
  | b :: mask', a :: l' => if b then a :: select mask' l' else select mask' l'
  | _, _ => []
  end.

Definition select_series (mask : list bool) (s : series) : series :=
  match s with
  | NumSeries l => NumSeries (select mask l)
  | ObjSeries l => ObjSeries (select mask l)
  end.

(** [df[mask]] *)
Definition select_rows (mask : list bool) (df : DataFrame) : DataFrame :=
  map (fun cs => (fst cs, select_series mask (snd cs))) df.

Fixpoint and_masks (m1 m2 : list bool) : list bool :=
  match m1, m2 with
  | a :: m1', b :: m2' => (a && b) :: and_masks m1' m2'
  | _, _ => []
  end.

(** [df.dropna(subset=[a, b])]: KeyError when a name is not a column;
    otherwise the rows in which both cells are present, in order. *)
Definition dropna (df : DataFrame) (a b : string) : result DataFrame :=
  sa <- get_col df a ;;
  sb <- get_col df b ;;
  Ok (select_rows (and_masks (notna sa) (notna sb)) df).

(** *** Reductions; all of them skip missing values *)

Fixpoint present (l : list (option Q)) : list Q :=
  match l with
  | [] => []
  | Some v :: l' => v :: present l'
  | None :: l' => present l'
  end.

Definition Qsum (vs : list Q) : Q := fold_right Qplus (0 # 1)%Q vs.

Definition Qcount (vs : list Q) : Q := inject_Z (Z.of_nat (List.length vs)).

Definition mean_of (vs : list Q) : Q := (Qsum vs / Qcount vs)%Q.

(** [s.mean()]: NaN on an empty or all-missing column.  The sum and the
    quotient are exact; pandas rounds both to doubles. *)
Definition mean (l : list (option Q)) : option Q :=
  match present l with
  | [] => None
  | vs => Some (mean_of vs)
  end.

Fixpoint Qmin_list (v : Q) (vs : list Q) : Q :=
  match vs with
  | [] => v
  | w :: vs' => Qmin_list (if Qle_bool v w then v else w) vs'
  end.

Fixpoint Qmax_list (v : Q) (vs : list Q) : Q :=
  match vs with
  | [] => v
  | w :: vs' => Qmax_list (if Qle_bool v w then w else v) vs'
  end.

(** [s.min()] and [s.max()] *)
Definition min (l : list (option Q)) : option Q :=
  match present l with
  | [] => None
  | v :: vs => Some (Qmin_list v vs)
  end.

Definition max (l : list (option Q)) : option Q :=
  match present l with
  | [] => None
  | v :: vs => Some (Qmax_list v vs)
  end.

(** Sample variance (pandas' default [ddof=1]). *)
Definition variance_of (vs : list Q) : Q :=
  let m := mean_of vs in
  (Qsum (map (fun v => (v - m) * (v - m)) vs)
   / inject_Z (Z.of_nat (List.length vs - 1)))%Q.

(** [s.std()]: NaN when fewer than two values are present.  The value
    is the exact square root of the exact variance, where pandas gives
    the nearest doubles. *)
Definition std (l : list (option Q)) : option R :=
  let vs := present l in
  if (List.length vs <? 2)%nat then None
  else Some (sqrt (Q2R (variance_of vs))).

(** The numbers a reduction works on.  A numeric column gives its
    values; an object column gives its numbers, and a string in it makes
    the reduction raise TypeError. *)
Fixpoint obj_floats (l : list obj) : result (list (option Q)) :=
  match l with
  | [] => Ok []
  | OStr _ :: _ => Raise TypeError
  | ONum q :: l' => vs <- obj_floats l' ;; Ok (Some q :: vs)
  | (ONaN | ONone) :: l' => vs <- obj_floats l' ;; Ok (None :: vs)
  end.

Definition as_floats (s : series) : result (list (option Q)) :=
  match s with
  | NumSeries l => Ok l
  | ObjSeries l => obj_floats l
  end.

(** The comparisons [v > 1] and [v <= 1] of a possibly-NaN number with
    1; every comparison with NaN is False. *)
Definition gt_one (v : option Q) : bool :=
  match v with
  | Some q => negb (Qle_bool q (1 # 1))
  | None => false
  end.

Definition le_one (v : option Q) : bool :=
  match v with
  | Some q => Qle_bool q (1 # 1)
  | None => false
  end.

(** [s / 100] on a numeric column; NaN stays NaN. *)
Definition div100 (l : list (option Q)) : list (option Q) :=
  map (option_map (fun v => (v / (100 # 1))%Q)) l.

(** *** [pd.merge(left, right, on=key, how='left',
        suffixes=('', '_secondary'))] *)

Definition obj_eqb (a b : obj) : bool :=
  match a, b with
  | OStr s, OStr t => String.eqb s t
  | ONum p, ONum q => Qeq_bool p q
  | (ONaN | ONone), (ONaN | ONone) => true
  | _, _ => false
  end.

(** A column as cells.  In a merge, missing keys match each other. *)
Definition cells (s : series) : list obj :=
  match s with
  | NumSeries l =>
      map (fun o => match o with Some q => ONum q | None => ONaN end) l
  | ObjSeries l => l
  end.

Definition same_dtype (a b : series) : bool :=
  Bool.eqb (is_numeric_dtype a) (is_numeric_dtype b).

(** Positions (counted from [j]) of the right keys equal to [k]. *)
Fixpoint matches_from (j : nat) (k : obj) (rkeys : list obj) : list nat :=
  match rkeys with
  | [] => []
  | r :: rs =>
      if obj_eqb k r then j :: matches_from (S j) k rs
      else matches_from (S j) k rs
  end.

(** The output rows that left row [i] with key [k] gives: one per match
    in right order, or a single unmatched row. *)
Definition plan_row (rkeys : list obj) (i : nat) (k : obj)
  : list (nat * option nat) :=
  match matches_from 0 k rkeys with
  | [] => [(i, None)]
  | js => map (fun j => (i, Some j)) js
  end.

Fixpoint join_plan_from (i : nat) (lkeys rkeys : list obj)
  : list (nat * option nat) :=
  match lkeys with
  | [] => []
  | k :: ks => (plan_row rkeys i k ++ join_plan_from (S i) ks rkeys)%list
  end.

Definition join_plan (lkeys rkeys : list obj) : list (nat * option nat) :=
  join_plan_from 0 lkeys rkeys.

Definition take_left (plan : list (nat * option nat)) (s : series) : series :=
  match s with
  | NumSeries l => NumSeries (map (fun p => nth (fst p) l None) plan)
  | ObjSeries l => ObjSeries (map (fun p => nth (fst p) l ONaN) plan)
  end.

Definition take_right (plan : list (nat * option nat)) (s : series) : series :=
  match s with
  | NumSeries l =>
      NumSeries (map (fun p => match snd p with
                               | Some j => nth j l None
                               | None => None
                               end) plan)
  | ObjSeries l =>
      ObjSeries (map (fun p => match snd p with
                               | Some j => nth j l ONaN
                               | None => ONaN
                               end) plan)
  end.

Definition mem (c : string) (cs : list string) : bool :=
  existsb (String.eqb c) cs.

Fixpoint nodupb (cs : list string) : bool :=
  match cs with
  | [] => true
  | c :: cs' => negb (mem c cs') && nodupb cs'
  end.

(** Name of a right column in the result: the suffix is added when the
    name is also a left column (the left suffix is empty, so the left
    name stays). *)
Definition suffixed (lcols : list string) (c : string) : string :=
  if mem c lcols then c ++ "_secondary" else c.

(** The right frame without its key column. *)
Definition drop_col (key : string) (df : DataFrame) : DataFrame :=
  filter (fun cs => negb (String.eqb key (fst cs))) df.

(** A right column that is renamed to the name of a left column which
    the right frame does not have itself: the suffix makes a label that
    is already there. *)
Definition clashes (lcols rcols : list string) : bool :=
  existsb (fun c => mem c lcols && mem (c ++ "_secondary") lcols
                    && negb (mem (c ++ "_secondary") rcols)) rcols.

(** KeyError when a frame lacks the key; ValueError when one key column
    is numeric and the other is not; MergeError when the suffix makes two
    right columns share a name, or makes a right column take the name of
    a left column (pandas 3 raises there; earlier versions return a frame
    with that label twice, which this model does not describe).  The
    result has the left columns under their names, then the right columns
    but the key. *)
Definition merge_left (left right : DataFrame) (key : string)
  : result DataFrame :=
  lk <- get_col left key ;;
  rk <- get_col right key ;;
  if negb (same_dtype lk rk) then Raise ValueError
  else
    let rest := drop_col key right in
    let renamed := map (suffixed (columns left)) (columns rest) in
    if (nodupb (columns rest) && negb (nodupb renamed))
       || clashes (columns left) (columns rest)
    then Raise MergeError
    else
      let plan := join_plan (cells lk) (cells rk) in
      Ok (map (fun cs => (fst cs, take_left plan (snd cs))) left ++
          map (fun cs => (suffixed (columns left) (fst cs),
                          take_right plan (snd cs))) rest)%list.

(** The cell of a column at a row. *)
Definition cell_at (s : series) (i : nat) : obj := nth i (cells s) ONaN.

(** The first right row whose key equals [k]. *)
Definition first_match (k : obj) (rkeys : list obj) : option nat :=
  hd_error (matches_from 0 k rkeys).

End Pandas.

Import Pandas.

(** ** The part of matplotlib and PIL the two functions use *)

Module Mpl.

(** What is on disk at a logo path: nothing, a file that PIL fails to
    open, convert or resize, or a file it reads. *)
Inductive file_state : Type :=
| Absent
| Corrupt
| Readable.

(** The artists put on the axes, in call order.  A point is the pair of
    coordinates handed over; a coordinate may be NaN. *)
Inductive draw_op : Type :=
| AddArtist (path : string) (x y : option Q)
| Scatter (x y : option Q)
| Annotate (text : string) (x y : option Q).

(** [ax.set_xlim(lo, hi)] and [ax.set_ylim(lo, hi)] raise ValueError on
    a NaN limit.  The result is the pair the call asks for; matplotlib
    shows that range, and widens it when the two limits are equal. *)
Definition set_lim (lo hi : option R) : result (R * R) :=
  match lo, hi with
  | Some a, Some b => Ok (a, b)
  | _, _ => Raise ValueError
  end.

(** [ax.invert_xaxis()] and [ax.invert_yaxis()] exchange the two ends
    of the view interval. *)
Definition invert (lim : R * R) : R * R := (snd lim, fst lim).

(** The chart as the calls leave it.  [fig_xlim] and [fig_ylim] are the
    ranges asked for, with the ends exchanged by an inversion. *)
Record figure : Type := {
  fig_ops : list draw_op;
  fig_vline : option Q;
  fig_hline : option Q;
  fig_xlabel : string;
  fig_ylabel : string;
  fig_title : string;
  fig_xpercent : bool;
  fig_ypercent : bool;
  fig_xlim : R * R;
  fig_ylim : R * R
}.

(** [lo - margin] and [hi + margin] on possibly-NaN numbers. *)
Definition minus_margin (v : option Q) (margin : option R) : option R :=
  match v, margin with
  | Some a, Some g => Some (Q2R a - g)%R
  | _, _ => None
  end.

Definition plus_margin (v : option Q) (margin : option R) : option R :=
  match v, margin with
  | Some a, Some g => Some (Q2R a + g)%R
  | _, _ => None
  end.

End Mpl.

Import Mpl.

(** ** The two pipelines *)

Section Pipelines.

(** What the interpreter and the file system supply: [str(v)] of a
    float; [float(s)], where [None] is a ValueError and [Some None] is
    NaN; the number [pd.to_numeric(..., errors='coerce')] reads in a
    string, where [None] is NaN; and what is on disk at a path. *)
Variable str_of_float : Q -> string.
Variable float_of_string : string -> option (option Q).
Variable numeric_of_string : string -> option Q.
Variable logos : string -> file_state.

(** *** [src/ftn_graphing.py]: the team pipeline *)

(** The helper [getImage]: [None] when the file is absent or when
    anything in the [try] block raises. *)
Definition getImage (path : string) : option string :=
  match logos path with
  | Absent => None
  | Corrupt => None
  | Readable => Some path
  end.

(** The body of the loop [for col in [x_col, y_col]]. *)
Definition percent_step (df : DataFrame) (col : string) : DataFrame :=
  if has_col df col then
    match get_col df col with
    | Ok (NumSeries l) =>
        if gt_one (mean l) then set_col df col (NumSeries (div100 l)) else df
    | Ok (ObjSeries _) => df
    | Raise _ => df
    end
  else df.

Definition percent_normalize (df : DataFrame) (x_col y_col : string)
  : DataFrame :=
  fold_left percent_step [x_col; y_col] df.

(** [str(v)] of a cell. *)
Definition str_num (v : option Q) : string :=
  match v with
  | Some q => str_of_float q
  | None => "nan"
  end.

Definition str_obj (o : obj) : string :=
  match o with
  | OStr t => t
  | ONum q => str_of_float q
  | ONaN => "nan"
  | ONone => "None"
  end.

(** [str(row[c])] for the row at position [i]. *)
Definition str_cell (s : series) (i : nat) : string :=
  match s with
  | NumSeries l => str_num (nth i l None)
  | ObjSeries l => str_obj (nth i l ONaN)
  end.

(** Lines 85-86. *)
Definition clean_label (label_text : string) : string :=
  let label_parts := split_on " " label_text in
  if (1 <? List.length label_parts)%nat then join " " (tl label_parts)
  else label_text.

(** One pass of the loop over [plot_df.iterrows()]. *)
Definition plot_row (plot_df : DataFrame) (xs ys : list (option Q))
           (label_col : string) (i : nat) : list draw_op :=
  let x := nth i xs None in
  let y := nth i ys None in
  let label_text :=
    match get_col plot_df label_col with
    | Ok s => str_cell s i
    | Raise _ => ""
    end in
  let logo_key :=
    match get_col plot_df "Tm" with
    | Ok s => str_cell s i
    | Raise _ => label_text
    end in
  let logo_path := "data/logos/" ++ logo_key ++ ".png" in
  let marker :=
    match getImage logo_path with
    | Some img => AddArtist img x y
    | None => Scatter x y
    end in
  [marker; Annotate (clean_label label_text) x y].

(** Lines 118-119. *)
Definition team_margin (vs : list (option Q)) : option R :=
  option_map (fun s => (s * (5 / 10))%R) (std vs).

(** The arguments of [ax.set_xlim] (lines 121-122). *)
Definition team_limits (vs : list (option Q)) : option R * option R :=
  (minus_margin (min vs) (team_margin vs),
   plus_margin (max vs) (team_margin vs)).

(** [o if o else d] *)
Definition or_default (o : option string) (d : string) : string :=
  match o with
  | Some s => if truthy o then s else d
  | None => d
  end.

(** [create_nfl_scatter_plot].  The two [read_csv] calls are done by the
    caller: [df] is the primary frame and [secondary] the frame of
    [secondary_csv] when that argument is given. *)
Definition create_nfl_scatter_plot
           (df : DataFrame) (x_col y_col : string)
           (secondary : option DataFrame) (join_key : option string)
           (title : option string) (label_col : string)
           (x_label y_label : option string)
           (invert_x invert_y : bool) : result figure :=
  df <- match secondary with
        | Some df_secondary =>
            if truthy join_key
            then merge_left df df_secondary (or_default join_key "")
            else Ok df
        | None => Ok df
        end ;;
  let df := percent_normalize df x_col y_col in
  let final_x_label := or_default x_label x_col in
  let final_y_label := or_default y_label y_col in
  let title := or_default title (final_x_label ++ " vs " ++ final_y_label) in
  plot_df <- dropna df x_col y_col ;;
  sx <- get_col plot_df x_col ;;
  xs <- as_floats sx ;;
  sy <- get_col plot_df y_col ;;
  ys <- as_floats sy ;;
  let mean_x := mean xs in
  let mean_y := mean ys in
  let ops := flat_map (plot_row plot_df xs ys label_col)
                      (seq 0 (nrows plot_df)) in
  xlim <- set_lim (fst (team_limits xs)) (snd (team_limits xs)) ;;
  ylim <- set_lim (fst (team_limits ys)) (snd (team_limits ys)) ;;
  Ok {| fig_ops := ops;
        fig_vline := mean_x;
        fig_hline := mean_y;
        fig_xlabel := final_x_label;
        fig_ylabel := final_y_label;
        fig_title := title;
        fig_xpercent := le_one (max xs);
        fig_ypercent := le_one (max ys);
        fig_xlim := if invert_x then invert xlim else xlim;
        fig_ylim := if invert_y then invert ylim else ylim |}.

(** *** [src/graphing.py]: the quarterback pipeline *)

Definition percent_cols : list string :=
  ["Scramble %"; "Sack %"; "Success %"; "Comp %"].

Definition text_cols : list string := ["Player Name"; "Season"; "Team"].

Definition newline : ascii := ascii_of_nat 10.

(** Line 19, [.str.split('. ', n=1).str[-1]] on one string.  pandas
    reads a pattern of more than one character as a regular expression,
    so the cut is at the first place where any character but a line feed
    is followed by a space; [None] when there is no such place. *)
Fixpoint after_first_cut (s : string) : option string :=
  match s with
  | EmptyString => None
  | String c s' =>
      match s' with
      | EmptyString => None
      | String c2 rest =>
          if negb (Ascii.eqb c newline) && Ascii.eqb c2 " " then Some rest
          else after_first_cut s'
      end
  end.

Definition short_name (o : obj) : obj :=
  match o with
  | OStr s =>
      match after_first_cut s with
      | Some rest => OStr rest
      | None => OStr s
      end
  | ONum _ | ONaN | ONone => ONaN
  end.

(** The [.str] accessor raises AttributeError on a numeric column. *)
Definition shorten_names (df : DataFrame) : result DataFrame :=
  s <- get_col df "Player Name" ;;
  match s with
  | NumSeries _ => Raise AttributeError
  | ObjSeries l => Ok (set_col df "Player Name" (ObjSeries (map short_name l)))
  end.

(** [s.rstrip('%')] *)
Fixpoint rstrip_percent (s : string) : string :=
  match s with
  | EmptyString => EmptyString
  | String c s' =>
      let t := rstrip_percent s' in
      if Ascii.eqb c "%" && String.eqb t "" then EmptyString
      else String c t
  end.

(** [.astype(str)] *)
Definition astype_str (s : series) : list string :=
  match s with
  | NumSeries l => map str_num l
  | ObjSeries l => map str_obj l
  end.

(** One cell of
    [.str.rstrip('%').replace('', np.nan).astype(float) / 100.0]. *)
Definition percent_cell (s : string) : result (option Q) :=
  let t := rstrip_percent s in
  if String.eqb t "" then Ok None
  else
    match float_of_string t with
    | Some v => Ok (option_map (fun q => (q / (100 # 1))%Q) v)
    | None => Raise ValueError
    end.

Fixpoint mapM {A B : Type} (f : A -> result B) (l : list A)
  : result (list B) :=
  match l with
  | [] => Ok []
  | a :: l' => b <- f a ;; bs <- mapM f l' ;; Ok (b :: bs)
  end.

(** One cell of [pd.to_numeric(..., errors='coerce')].  pandas takes the
    empty string for a missing value before it tries to read a number. *)
Definition numeric_cell (o : obj) : option Q :=
  match o with
  | OStr t => if String.eqb t "" then None else numeric_of_string t
  | ONum q => Some q
  | ONaN | ONone => None
  end.

Definition to_numeric (s : series) : list (option Q) :=
  match s with
  | NumSeries l => l
  | ObjSeries l => map numeric_cell l
  end.

(** The body of the loop [for col in df.columns] (lines 22-27). *)
Definition coerce_step (acc : result DataFrame) (col : string)
  : result DataFrame :=
  df <- acc ;;
  if mem col text_cols then Ok df
  else
    s <- get_col df col ;;
    if mem col percent_cols then
      vs <- mapM percent_cell (astype_str s) ;;
      Ok (set_col df col (NumSeries vs))
    else Ok (set_col df col (NumSeries (to_numeric s))).

Definition coerce_columns (df : DataFrame) : result DataFrame :=
  fold_left coerce_step (columns df) (Ok df).

(** The mask [df['Plays'] >= min_plays]; a comparison with NaN is
    False. *)
Definition ge_mask (min_plays : Q) (l : list (option Q)) : list bool :=
  map (fun o => match o with
                | Some v => Qle_bool min_plays v
                | None => false
                end) l.

Definition filter_plays (df : DataFrame) (min_plays : Q) : result DataFrame :=
  plays <- get_col df "Plays" ;;
  ps <- as_floats plays ;;
  Ok (select_rows (ge_mask min_plays ps) df).

(** The helper [getImage] of this file has no [try]: what PIL raises
    leaves the function. *)
Definition getImage_qb (path : string) : result (option string) :=
  match logos path with
  | Absent => Ok None
  | Corrupt => Raise IOError
  | Readable => Ok (Some path)
  end.

(** [row['Player Name'].split()[-1]] *)
Definition qb_label (name : obj) : result string :=
  match name with
  | OStr s => last_item (split_whitespace s)
  | ONum _ | ONaN | ONone => Raise AttributeError
  end.

(** One pass of the loop over [df_plot.iterrows()]. *)
Definition qb_row (names : list obj) (xs ys : list (option Q)) (i : nat)
  : result (list draw_op) :=
  let x := nth i xs None in
  let y := nth i ys None in
  let name := nth i names ONaN in
  let logo_path := "data/logos/" ++ str_obj name ++ ".png" in
  img_obj <- getImage_qb logo_path ;;
  let marker :=
    match img_obj with
    | Some img => [AddArtist img x y]
    | None => []
    end in
  label <- qb_label name ;;
  Ok (marker ++ [Annotate label x y])%list.

(** Lines 100-101. *)
Definition qb_margin (vs : list (option Q)) : option R :=
  option_map (fun s => (s * (4 / 10))%R) (std vs).

Definition qb_limits (vs : list (option Q)) : option R * option R :=
  (minus_margin (min vs) (qb_margin vs),
   plus_margin (max vs) (qb_margin vs)).

(** [create_qb_plot].  [df] is [pd.DataFrame(data, columns=columns)]. *)
Definition create_qb_plot
           (df : DataFrame) (x_axis y_axis : string)
           (min_plays : Q) (title : option string) : result figure :=
  df <- shorten_names df ;;
  df <- coerce_columns df ;;
  df_plot <- filter_plays df min_plays ;;
  sx <- get_col df_plot x_axis ;;
  xs <- as_floats sx ;;
  sy <- get_col df_plot y_axis ;;
  ys <- as_floats sy ;;
  let mean_x := mean xs in
  let mean_y := mean ys in
  names <- get_col df_plot "Player Name" ;;
  rows <- mapM (qb_row (cells names) xs ys) (seq 0 (nrows df_plot)) ;;
  xlim <- set_lim (fst (qb_limits xs)) (snd (qb_limits xs)) ;;
  ylim <- set_lim (fst (qb_limits ys)) (snd (qb_limits ys)) ;;
  Ok {| fig_ops := List.concat rows;
        fig_vline := mean_x;
        fig_hline := mean_y;
        fig_xlabel := x_axis;
        fig_ylabel := y_axis;
        fig_title := or_default title (x_axis ++ " vs " ++ y_axis);
        fig_xpercent := mem x_axis percent_cols;
        fig_ypercent := mem y_axis percent_cols;
        fig_xlim := xlim;
        fig_ylim := ylim |}.

End Pipelines.

(** *** [src/graphing.py], lines 12-13: the column names *)

(** [s.lstrip()], [s.rstrip()] and [s.strip()] *)
Fixpoint lstrip (s : string) : string :=
  match s with
  | EmptyString => EmptyString
  | String c s' => if isspace c then lstrip s' else s
  end.

Fixpoint rstrip (s : string) : string :=
  match s with
  | EmptyString => EmptyString
  | String c s' =>
      let t := rstrip s' in
      if isspace c && String.eqb t "" then EmptyString else String c t
  end.

Definition strip (s : string) : string := rstrip (lstrip s).

(** [[line.strip() for line in f
      if line.strip() and not line.startswith('[source')]], on the lines
    of the file as the iteration yields them. *)
Definition read_columns (lines : list string) : list string :=
  map strip
      (filter (fun line => nonempty (strip line)
                           && negb (String.prefix "[source" line))
              lines).

(** ** A concrete interpreter and file system, for running the model

    Numbers are written and read in plain decimal notation: an optional
    minus sign, digits, and an optional fraction. *)

Module Decimal.

Definition digit_val (c : ascii) : option Z :=
  let n := nat_of_ascii c in
  if ((48 <=? n) && (n <=? 57))%nat then Some (Z.of_nat (n - 48)) else None.

(** Reads digits into [(value, number of digits)], starting from
    [(acc, k)]. *)
Fixpoint read_digits (acc : Z) (k : nat) (s : string)
  : option (Z * nat * string) :=
  match s with
  | EmptyString => Some (acc, k, EmptyString)
  | String c s' =>
      match digit_val c with
      | Some d => read_digits (10 * acc + d)%Z (S k) s'
      | None => Some (acc, k, s)
      end
  end.

Definition read_unsigned (s : string) : option Q :=
  match read_digits 0%Z 0 s with
  | Some (_, O, _) => None
  | Some (n, S _, EmptyString) => Some (inject_Z n)
  | Some (n, S _, String c frac) =>
      if Ascii.eqb c "." then
        match read_digits 0%Z 0 frac with
        | Some (f, k, EmptyString) =>
            Some (inject_Z n + (f # Pos.of_nat (10 ^ k)))%Q
        | _ => None
        end
      else None
  | None => None
  end.

Definition read (s : string) : option Q :=
  match s with
  | String c s' =>
      if Ascii.eqb c "-" then option_map Qopp (read_unsigned s')
      else read_unsigned s
  | EmptyString => None
  end.

Definition digit_char (d : nat) : ascii := ascii_of_nat (48 + d).

Fixpoint write_nat_aux (fuel n : nat) (acc : string) : string :=
  match fuel with
  | O => acc
  | S fuel' =>
      let acc' := String (digit_char (n mod 10)) acc in
      if (n / 10 =? 0)%nat then acc' else write_nat_aux fuel' (n / 10) acc'
  end.

Definition write_nat (n : nat) : string := write_nat_aux (S n) n "".

(** Up to [fuel] digits of the fraction [r / d], at least one. *)
Fixpoint write_frac (fuel : nat) (r d : Z) : string :=
  match fuel with
  | O => ""
  | S fuel' =>
      let q := (10 * r / d)%Z in
      let r' := (10 * r mod d)%Z in
      String (digit_char (Z.to_nat q))
             (if (r' =? 0)%Z then "" else write_frac fuel' r' d)
  end.

Definition write (q : Q) : string :=
  let n := Qnum q in
  let d := Zpos (Qden q) in
  let a := Z.abs n in
  (if (n <? 0)%Z then "-" else "") ++
  write_nat (Z.to_nat (a / d)) ++ "." ++ write_frac 17 (a mod d)%Z d.

(** [float(s)]: a decimal number, or the text [nan]. *)
Definition float_of (s : string) : option (option Q) :=
  if String.eqb s "nan" then Some None else option_map Some (read s).

(** An empty logo directory, and one in which every file is there. *)
Definition no_logos : string -> file_state := fun _ => Absent.

Definition all_logos : string -> file_state := fun _ => Readable.

End Decimal.

(** ** Vocabulary of the specification *)

Fixpoint string_forallb (p : ascii -> bool) (s : string) : bool :=
  match s with
  | EmptyString => true
  | String c s' => p c && string_forallb p s'
  end.


(** Free of the space character. *)
Definition no_space (t : string) : bool :=
  string_forallb (fun c => negb (Ascii.eqb " " c)) t.


(** A function applied to the value a call returns. *)
Definition res_map {A B : Type} (f : A -> B) (r : result A) : result B :=
  match r with
  | Ok a => Ok (f a)
  | Raise e => Raise e
  end.

(** Lines 16-21: the frame after the optional join. *)
Definition join_sources (df : DataFrame) (secondary : option DataFrame)
           (join_key : option string) : result DataFrame :=
  match secondary with
  | Some df_secondary =>
      if truthy join_key
      then merge_left df df_secondary (or_default join_key "")
      else Ok df
  | None => Ok df
  end.

(** [plot_df], the filtered Dataset of the team pipeline. *)
Definition team_filtered (df : DataFrame) (x_col y_col : string)
           (secondary : option DataFrame) (join_key : option string)
  : result DataFrame :=
  joined <- join_sources df secondary join_key ;;
  dropna (percent_normalize joined x_col y_col) x_col y_col.

(** [df_plot], the filtered Dataset of the quarterback pipeline. *)
Definition qb_filtered (str_of_float : Q -> string)
           (float_of_string : string -> option (option Q))
           (numeric_of_string : string -> option Q)
           (df : DataFrame) (min_plays : Q) : result DataFrame :=
  df1 <- shorten_names df ;;
  df2 <- coerce_columns str_of_float float_of_string numeric_of_string df1 ;;
  filter_plays df2 min_plays.

(** Lines 124-127 on one axis. *)
Definition flip_if (b : bool) (lim : R * R) : R * R :=
  if b then invert lim else lim.

(** The visible range [lim] of an axis with plotted values [vs] is the
    observed range widened on both sides by [k] standard deviations, and
    holds every plotted value. *)
Definition axis_padded (k : R) (vs : list (option Q)) (lim : R * R) : Prop :=
  exists mn mx sd,
    min vs = Some mn /\ max vs = Some mx /\ std vs = Some sd /\
    In mn (present vs) /\ In mx (present vs) /\
    (0 <= sd)%R /\ (sd * sd = Q2R (variance_of (present vs)))%R /\
    lim = ((Q2R mn - sd * k)%R, (Q2R mx + sd * k)%R) /\
    forall v, In v (present vs) -> (fst lim <= Q2R v <= snd lim)%R.

(** The chart with the flips of the two flags applied to its limits. *)
Definition flip_axes (invert_x invert_y : bool) (fig : figure) : figure :=
  {| fig_ops := fig_ops fig;
     fig_vline := fig_vline fig;
     fig_hline := fig_hline fig;
     fig_xlabel := fig_xlabel fig;
     fig_ylabel := fig_ylabel fig;
     fig_title := fig_title fig;
     fig_xpercent := fig_xpercent fig;
     fig_ypercent := fig_ypercent fig;
     fig_xlim := flip_if invert_x (fig_xlim fig);
     fig_ylim := flip_if invert_y (fig_ylim fig) |}.

(** The rows of a column at the given positions, in that order. *)
Definition take_rows (idxs : list nat) (s : series) : series :=
  match s with
  | NumSeries l => NumSeries (map (fun i => nth i l None) idxs)
  | ObjSeries l => ObjSeries (map (fun i => nth i l ONaN) idxs)
  end.

(** Row [i] has a value in both columns. *)
Definition row_complete (sx sy : series) (i : nat) : bool :=
  negb (obj_isna (cell_at sx i)) && negb (obj_isna (cell_at sy i)).

(** All columns have [n] rows. *)
Definition all_len (n : nat) (df : DataFrame) : Prop :=
  Forall (fun cs => series_len (snd cs) = n) df.

(** The label text and the logo path of row [i] in the team pipeline,
    and the logo path of a player in the quarterback pipeline. *)
Definition team_label (str_of_float : Q -> string) (plot_df : DataFrame)
           (label_col : string) (i : nat) : string :=
  match get_col plot_df label_col with
  | Ok s => str_cell str_of_float s i
  | Raise _ => ""%string
  end.

Definition team_logo_path (str_of_float : Q -> string) (plot_df : DataFrame)
           (label_col : string) (i : nat) : string :=
  ("data/logos/" ++
   match get_col plot_df "Tm" with
   | Ok s => str_cell str_of_float s i
   | Raise _ => team_label str_of_float plot_df label_col i
   end ++ ".png")%string.

Definition qb_logo_path (str_of_float : Q -> string) (name : obj) : string :=
  ("data/logos/" ++ str_obj str_of_float name ++ ".png")%string.

(** An image or a plain point, as opposed to a text label. *)
Definition is_marker (op : draw_op) : bool :=
  match op with
  | AddArtist _ _ _ | Scatter _ _ => true
  | Annotate _ _ _ => false
  end.

(** The row test of the threshold, on the raw cell of [Plays]. *)
Definition keeps_row (numeric_of_string : string -> option Q) (min_plays : Q)
           (o : obj) : bool :=
  match numeric_cell numeric_of_string o with
  | Some v => Qle_bool min_plays v
  | None => false
  end.

(** ** Sample frames *)

(** A frame with one column of mean 25000. *)
Definition yards_column : list (option Q) :=
  [Some (20000 # 1)%Q; Some (30000 # 1)%Q].

Definition yards_frame : DataFrame := [("A", NumSeries yards_column)].

(** An axis with the values 0, 1 and 2; their standard deviation is 1. *)
Definition three_values : list (option Q) :=
  [Some (0 # 1)%Q; Some (1 # 1)%Q; Some (2 # 1)%Q].

(** A filtered frame with a single team. *)
Definition one_row_frame : DataFrame :=
  [("Tm", ObjSeries [OStr "DAL"]);
   ("X", NumSeries [Some (1 # 2)%Q]);
   ("Y", NumSeries [Some (1 # 4)%Q])].

(** Two sources that share the key [Tm] and the column [W]; the
    secondary source has no row for NYG. *)
Definition teams_primary : DataFrame :=
  [("Tm", ObjSeries [OStr "DAL"; OStr "NYG"; OStr "PHI"]);
   ("W", NumSeries [Some (7 # 1)%Q; Some (3 # 1)%Q; Some (11 # 1)%Q])].

Definition teams_secondary : DataFrame :=
  [("Tm", ObjSeries [OStr "PHI"; OStr "DAL"]);
   ("W", NumSeries [Some (10 # 1)%Q; Some (6 # 1)%Q]);
   ("PACT%", NumSeries [Some (25 # 1)%Q; Some (31 # 1)%Q])].

(** Six quarterbacks; the second, third and fourth have an empty, an
    unreadable and a too small [Plays] cell, and the first has no
    [Sacks] value. *)
Definition qb_frame : DataFrame :=
  [("Player Name",
    ObjSeries [OStr "P. Mahomes"; OStr "J. Allen"; OStr "L. Jackson";
               OStr "J. Burrow"; OStr "J. Hurts"; OStr "J. Love"]);
   ("Plays",
    ObjSeries [OStr "150"; OStr ""; OStr "abc"; ONum (80 # 1)%Q; OStr "100";
               OStr "120"]);
   ("EPA",
    ObjSeries [OStr "0.25"; OStr "0.5"; OStr "0.1"; OStr "0.3"; OStr "0.75";
               OStr "0.5"]);
   ("Sacks",
    ObjSeries [ONone; OStr "2"; OStr "3"; OStr "4"; OStr "6"; OStr "4"])].

(** Scenario C of the specification: the second row has no y value. *)
Definition scenario_c : DataFrame :=
  [("Tm", ObjSeries [OStr "Dallas Cowboys"; OStr "NYG"; OStr "PHI"]);
   ("X", NumSeries [Some (10 # 1)%Q; Some (20 # 1)%Q; Some (30 # 1)%Q]);
   ("Y", NumSeries [Some (90 # 1)%Q; None; Some (10 # 1)%Q])].

(** A directory in which only the Dallas logo exists, and that one is
    damaged. *)
Definition damaged_dallas_logo (path : string) : file_state :=
  if String.eqb path "data/logos/Dallas Cowboys.png" then Corrupt else Absent.

(** ** What a chart shows *)

(** The point an artist is put at. *)
Definition op_point (op : draw_op) : option Q * option Q :=
  match op with
  | AddArtist _ x y => (x, y)
  | Scatter x y => (x, y)
  | Annotate _ x y => (x, y)
  end.

(** Both coordinates are numbers, none is NaN. *)
Definition has_point (op : draw_op) : bool :=
  negb (opt_isna (fst (op_point op))) && negb (opt_isna (snd (op_point op))).

Definition is_label (op : draw_op) : bool := negb (is_marker op).

Definition is_readable (f : file_state) : bool :=
  match f with
  | Readable => true
  | Absent | Corrupt => false
  end.

(** The label of a player: the last word of the name cell, and nothing
    when the cell has no word. *)
Definition last_word (name : obj) : string :=
  match qb_label name with
  | Ok t => t
  | Raise _ => ""%string
  end.

Definition nonempty_list {A : Type} (l : list A) : bool :=
  match l with
  | [] => false
  | _ :: _ => true
  end.

(** The name cell is text with at least one word in it. *)
Definition has_word (name : obj) : bool :=
  match name with
  | OStr s => nonempty_list (split_whitespace s)
  | ONum _ | ONaN | ONone => false
  end.

(** How often a row of the primary source with key [k] comes out of the
    join: once for every secondary row with that key, and once when
    there is none. *)
Definition copies (rkeys : list obj) (k : obj) : nat :=
  Nat.max 1 (List.length (matches_from 0 k rkeys)).

(** The primary row behind each row of the joined frame: the rows of
    the primary source in order, each as often as [copies] says; the
    first row has number [b]. *)
Fixpoint left_rows (b : nat) (lkeys rkeys : list obj) : list nat :=
  match lkeys with
  | [] => []
  | k :: ks => (repeat b (copies rkeys k) ++ left_rows (S b) ks rkeys)%list
  end.

(** ** More sample frames *)

(** Three quarterbacks with a completion rate; the second rate is not a
    number. *)
Definition rates_frame : DataFrame :=
  [("Player Name", ObjSeries [OStr "P. Mahomes"; OStr "J. Hurts";
                              OStr "J. Love"]);
   ("Plays", ObjSeries [OStr "150"; OStr "100"; OStr "120"]);
   ("Comp %", ObjSeries [OStr "67.5%"; OStr "n/a"; OStr "64%"])].

(** A directory in which only the logo of Hurts exists; it is damaged in
    the first and readable in the second. *)
Definition damaged_hurts_logo (path : string) : file_state :=
  if String.eqb path "data/logos/Hurts.png" then Corrupt else Absent.

Definition only_hurts_logo (path : string) : file_state :=
  if String.eqb path "data/logos/Hurts.png" then Readable else Absent.

(** A secondary source that lists Dallas twice. *)
Definition teams_twice : DataFrame :=
  [("Tm", ObjSeries [OStr "DAL"; OStr "PHI"; OStr "DAL"]);
   ("Week", NumSeries [Some (1 # 1)%Q; Some (1 # 1)%Q; Some (2 # 1)%Q])].

(** * Properties *)

(** ** Strings *)

Section SplitFacts.

Variable p : ascii -> bool.

Lemma split_by_not_nil (s : string) : split_by p s <> [].
Proof.
  destruct s as [|c s]; simpl; [discriminate|].
  destruct (p c); [discriminate|].
  destruct (split_by p s); discriminate.
Qed.




End SplitFacts.







Lemma join_cons (sep t u : string) (r : list string) :
  join sep (t :: u :: r) = t ++ sep ++ join sep (u :: r).
Proof. reflexivity. Qed.

Lemma join_split_on (c : ascii) (s : string) :
  join (String c "") (split_on c s) = s.
Proof.
  unfold split_on. induction s as [|x s IH]; [reflexivity|].
  cbn [split_by]. destruct (Ascii.eqb c x) eqn:E.
  - apply Ascii.eqb_eq in E. subst x.
    destruct (split_by (Ascii.eqb c) s) as [|t ts] eqn:S.
    + exfalso. exact (split_by_not_nil _ _ S).
    + rewrite join_cons, IH. reflexivity.
  - destruct (split_by (Ascii.eqb c) s) as [|t ts] eqn:S.
    + exfalso. exact (split_by_not_nil _ _ S).
    + destruct ts as [|u r].
      * simpl in *. congruence.
      * rewrite join_cons. rewrite join_cons in IH.
        rewrite <- IH. reflexivity.
Qed.




(** ** Frames *)

Lemma columns_set_col (df : DataFrame) (c : string) (s : series) :
  columns (set_col df c s) = columns df.
Proof.
  unfold columns, set_col. rewrite map_map. apply map_ext.
  intros [c' s']. simpl. destruct (String.eqb c c'); reflexivity.
Qed.

Lemma get_set_other (df : DataFrame) (c c' : string) (s : series) :
  c' <> c -> get_col (set_col df c s) c' = get_col df c'.
Proof.
  intros Hne. induction df as [|[d t] df IH]; [reflexivity|].
  simpl. destruct (String.eqb c d) eqn:E; simpl; rewrite IH; [|reflexivity].
  apply String.eqb_eq in E. subst d.
  apply String.eqb_neq in Hne. rewrite Hne. reflexivity.
Qed.

Lemma get_set_same (df : DataFrame) (c : string) (s t : series) :
  get_col df c = Ok t -> get_col (set_col df c s) c = Ok s.
Proof.
  induction df as [|[d u] df IH]; simpl; [discriminate|].
  destruct (String.eqb c d) eqn:E; simpl; rewrite E; auto.
Qed.

Lemma has_col_get (df : DataFrame) (c : string) :
  has_col df c = is_ok (get_col df c).
Proof.
  unfold has_col, columns. induction df as [|[d u] df IH]; [reflexivity|].
  simpl. destruct (String.eqb c d); simpl; auto.
Qed.

(** ** The percentage heuristic *)

Lemma percent_step_gt (df : DataFrame) (col : string) (l : list (option Q)) :
  get_col df col = Ok (NumSeries l) -> gt_one (mean l) = true ->
  percent_step df col = set_col df col (NumSeries (div100 l)).
Proof.
  intros Hg Hm. unfold percent_step.
  rewrite has_col_get, Hg, Hm. reflexivity.
Qed.

Lemma percent_step_le (df : DataFrame) (col : string) (l : list (option Q)) :
  get_col df col = Ok (NumSeries l) -> gt_one (mean l) = false ->
  percent_step df col = df.
Proof.
  intros Hg Hm. unfold percent_step.
  rewrite has_col_get, Hg, Hm. reflexivity.
Qed.

Lemma percent_step_obj (df : DataFrame) (col : string) (l : list obj) :
  get_col df col = Ok (ObjSeries l) -> percent_step df col = df.
Proof.
  intros Hg. unfold percent_step. rewrite has_col_get, Hg. reflexivity.
Qed.

Lemma percent_step_other (df : DataFrame) (col c : string) :
  c <> col -> get_col (percent_step df col) c = get_col df c.
Proof.
  intros Hne. unfold percent_step.
  destruct (has_col df col); [|reflexivity].
  destruct (get_col df col) as [[l|l]|e]; try reflexivity.
  destruct (gt_one (mean l)); [|reflexivity].
  apply get_set_other, Hne.
Qed.

Lemma percent_step_columns (df : DataFrame) (col : string) :
  columns (percent_step df col) = columns df.
Proof.
  unfold percent_step.
  destruct (has_col df col); [|reflexivity].
  destruct (get_col df col) as [[l|l]|e]; try reflexivity.
  destruct (gt_one (mean l)); [|reflexivity].
  apply columns_set_col.
Qed.

Lemma percent_step_scaled (df : DataFrame) (col : string)
      (l : list (option Q)) :
  get_col df col = Ok (NumSeries l) -> gt_one (mean l) = true ->
  get_col (percent_step df col) col = Ok (NumSeries (div100 l)).
Proof.
  intros Hg Hm. rewrite (percent_step_gt _ _ _ Hg Hm).
  eapply get_set_same, Hg.
Qed.

(** Dividing a column by 100 divides its mean by 100. *)
Lemma present_div100 (l : list (option Q)) :
  present (div100 l) = map (fun v => (v / (100 # 1))%Q) (present l).
Proof.
  unfold div100.
  induction l as [|[v|] l IH]; simpl; [reflexivity| |exact IH].
  rewrite IH. reflexivity.
Qed.

Lemma percent_normalize_steps (df : DataFrame) (x_col y_col : string) :
  percent_normalize df x_col y_col
  = percent_step (percent_step df x_col) y_col.
Proof. reflexivity. Qed.


Lemma percent_step_obj_kept (df : DataFrame) (col c : string)
      (l : list obj) :
  get_col df c = Ok (ObjSeries l) ->
  get_col (percent_step df col) c = Ok (ObjSeries l).
Proof.
  intros Hg. destruct (String.eqb c col) eqn:E.
  - apply String.eqb_eq in E. subst col.
    rewrite (percent_step_obj _ _ _ Hg). exact Hg.
  - apply String.eqb_neq in E. rewrite percent_step_other; assumption.
Qed.




(** C2, as the code has it.  The step does nothing on a numeric column
    whose mean is not above 1.  After a conversion, applying it again
    changes nothing when the mean of the converted column is not above 1;
    when that mean is still above 1 the column is divided by 100 a second
    time.  The step looks at the mean it is given and at nothing else. *)
Theorem percent_step_reapplied (df : DataFrame) (col : string)
        (l : list (option Q)) :
  get_col df col = Ok (NumSeries l) ->
  (gt_one (mean l) = false ->
   percent_step df col = df /\
   percent_step (percent_step df col) col = percent_step df col) /\
  (gt_one (mean l) = true -> gt_one (mean (div100 l)) = false ->
   get_col (percent_step df col) col = Ok (NumSeries (div100 l)) /\
   percent_step (percent_step df col) col = percent_step df col) /\
  (gt_one (mean l) = true -> gt_one (mean (div100 l)) = true ->
   get_col (percent_step df col) col = Ok (NumSeries (div100 l)) /\
   get_col (percent_step (percent_step df col) col) col
   = Ok (NumSeries (div100 (div100 l)))).
Proof.
  intros Hg. split; [|split].
  - intros Hle. rewrite (percent_step_le _ _ _ Hg Hle).
    split; [reflexivity|exact (percent_step_le _ _ _ Hg Hle)].
  - intros Hgt Hle.
    pose proof (percent_step_scaled _ _ _ Hg Hgt) as Hs.
    split; [exact Hs|exact (percent_step_le _ _ _ Hs Hle)].
  - intros Hgt Hgt2.
    pose proof (percent_step_scaled _ _ _ Hg Hgt) as Hs.
    split; [exact Hs|exact (percent_step_scaled _ _ _ Hs Hgt2)].
Qed.

Lemma percent_step_reapplied_witness :
  get_col
    (percent_step [("X", NumSeries [Some (10 # 1)%Q; Some (30 # 1)%Q])] "X")
    "X"
  = Ok (NumSeries (div100 [Some (10 # 1)%Q; Some (30 # 1)%Q])) /\
  percent_step
    (percent_step [("X", NumSeries [Some (10 # 1)%Q; Some (30 # 1)%Q])] "X") "X"
  = percent_step [("X", NumSeries [Some (10 # 1)%Q; Some (30 # 1)%Q])] "X".
Proof.
  apply (proj1 (proj2 (percent_step_reapplied
            [("X", NumSeries [Some (10 # 1)%Q; Some (30 # 1)%Q])] "X"
            [Some (10 # 1)%Q; Some (30 # 1)%Q] eq_refl))); reflexivity.
Defined.

(** C2 as stated fails: on a column of mean 25000 the step applied twice
    is not the step applied once, and the value 20000 ends as 2, divided
    by 100 twice.  One call with that column as both axes does the
    same. *)
Lemma percent_step_not_idempotent :
  percent_step (percent_step yards_frame "A") "A"
    <> percent_step yards_frame "A" /\
  percent_normalize yards_frame "A" "A"
    = [("A", NumSeries (div100 (div100 yards_column)))] /\
  exists a b,
    get_col (percent_step (percent_step yards_frame "A") "A") "A"
      = Ok (NumSeries [Some a; Some b]) /\
    (a == (20000 # 1)%Q / (100 # 1)%Q / (100 # 1)%Q)%Q /\
    ~ (a == (20000 # 1)%Q / (100 # 1)%Q)%Q.
Proof.
  split; [vm_compute; discriminate|].
  split; [reflexivity|].
  eexists. eexists. split; [vm_compute; reflexivity|].
  split; [reflexivity|discriminate].
Qed.

(** ** Minimum, maximum and standard deviation *)

Lemma Qle_bool_false (v w : Q) : Qle_bool v w = false -> (w <= v)%Q.
Proof.
  intros H. apply Qlt_le_weak, Qnot_le_lt. intros Hle.
  apply Qle_bool_iff in Hle. congruence.
Qed.

Lemma Qmin_list_spec (vs : list Q) (v : Q) :
  In (Qmin_list v vs) (v :: vs) /\
  forall w, In w (v :: vs) -> (Qmin_list v vs <= w)%Q.
Proof.
  revert v. induction vs as [|u vs IH]; intros v; cbn [Qmin_list].
  - split; [left; reflexivity|].
    intros w [<-|[]]. apply Qle_refl.
  - destruct (IH (if Qle_bool v u then v else u)) as [Hin Hle].
    destruct (Qle_bool v u) eqn:E.
    + split.
      * destruct Hin as [Hin|Hin]; [left; exact Hin|right; right; exact Hin].
      * intros w [<-|[<-|Hw]].
        -- apply Hle. left. reflexivity.
        -- apply Qle_trans with v; [apply Hle; left; reflexivity|].
           apply Qle_bool_iff, E.
        -- apply Hle. right. exact Hw.
    + split.
      * right. exact Hin.
      * intros w [<-|[<-|Hw]].
        -- apply Qle_trans with u; [apply Hle; left; reflexivity|].
           apply Qle_bool_false, E.
        -- apply Hle. left. reflexivity.
        -- apply Hle. right. exact Hw.
Qed.

Lemma Qmax_list_spec (vs : list Q) (v : Q) :
  In (Qmax_list v vs) (v :: vs) /\
  forall w, In w (v :: vs) -> (w <= Qmax_list v vs)%Q.
Proof.
  revert v. induction vs as [|u vs IH]; intros v; cbn [Qmax_list].
  - split; [left; reflexivity|].
    intros w [<-|[]]. apply Qle_refl.
  - destruct (IH (if Qle_bool v u then u else v)) as [Hin Hle].
    destruct (Qle_bool v u) eqn:E.
    + split.
      * right. exact Hin.
      * intros w [<-|[<-|Hw]].
        -- apply Qle_trans with u; [|apply Hle; left; reflexivity].
           apply Qle_bool_iff, E.
        -- apply Hle. left. reflexivity.
        -- apply Hle. right. exact Hw.
    + split.
      * destruct Hin as [Hin|Hin]; [left; exact Hin|right; right; exact Hin].
      * intros w [<-|[<-|Hw]].
        -- apply Hle. left. reflexivity.
        -- apply Qle_trans with v; [|apply Hle; left; reflexivity].
           apply Qle_bool_false, E.
        -- apply Hle. right. exact Hw.
Qed.

Lemma min_spec (l : list (option Q)) (mn : Q) :
  min l = Some mn ->
  In mn (present l) /\ forall w, In w (present l) -> (mn <= w)%Q.
Proof.
  unfold min. destruct (present l) as [|v vs]; [discriminate|].
  intros H. injection H as <-. apply Qmin_list_spec.
Qed.

Lemma max_spec (l : list (option Q)) (mx : Q) :
  max l = Some mx ->
  In mx (present l) /\ forall w, In w (present l) -> (w <= mx)%Q.
Proof.
  unfold max. destruct (present l) as [|v vs]; [discriminate|].
  intros H. injection H as <-. apply Qmax_list_spec.
Qed.

Lemma Qsum_squares_nonneg (m : Q) (vs : list Q) :
  (0 <= Qsum (map (fun v => (v - m) * (v - m)) vs))%Q.
Proof.
  induction vs as [|v vs IH]; simpl; [apply Qle_refl|].
  change (0 # 1)%Q with ((0 # 1) + (0 # 1))%Q at 1.
  apply Qplus_le_compat; [|exact IH].
  destruct (Qlt_le_dec (v - m) (0 # 1)) as [Hneg|Hpos].
  - setoid_replace ((v - m) * (v - m))%Q with ((- (v - m)) * (- (v - m)))%Q
      by ring.
    apply Qmult_le_0_compat; apply (Qopp_le_compat (v - m) 0);
      apply Qlt_le_weak, Hneg.
  - apply Qmult_le_0_compat; exact Hpos.
Qed.

Lemma variance_nonneg (vs : list Q) : (0 <= variance_of vs)%Q.
Proof.
  unfold variance_of. cbv zeta. unfold Qdiv.
  apply Qmult_le_0_compat; [apply Qsum_squares_nonneg|].
  apply Qinv_le_0_compat. unfold Qle. simpl. lia.
Qed.

Lemma std_some (l : list (option Q)) :
  2 <= List.length (present l) ->
  exists sd, std l = Some sd /\ (0 <= sd)%R /\
             (sd * sd = Q2R (variance_of (present l)))%R.
Proof.
  intros Hn. unfold std. cbv zeta.
  destruct (List.length (present l) <? 2)%nat eqn:E.
  - apply Nat.ltb_lt in E. lia.
  - eexists. split; [reflexivity|]. split; [apply sqrt_pos|].
    apply sqrt_sqrt. rewrite <- RMicromega.Q2R_0.
    apply Qle_Rle, variance_nonneg.
Qed.

Lemma std_none (l : list (option Q)) :
  List.length (present l) <= 1 -> std l = None.
Proof.
  intros Hn. unfold std. cbv zeta.
  destruct (List.length (present l) <? 2)%nat eqn:E; [reflexivity|].
  apply Nat.ltb_ge in E. lia.
Qed.

Lemma min_some (l : list (option Q)) :
  1 <= List.length (present l) -> exists mn, min l = Some mn.
Proof.
  unfold min. destruct (present l); simpl; [lia|eauto].
Qed.

Lemma max_some (l : list (option Q)) :
  1 <= List.length (present l) -> exists mx, max l = Some mx.
Proof.
  unfold max. destruct (present l); simpl; [lia|eauto].
Qed.

(** ** The filtered frame and what the team pipeline draws from it *)

Lemma set_lim_ok (lo hi : option R) (lim : R * R) :
  set_lim lo hi = Ok lim -> lo = Some (fst lim) /\ hi = Some (snd lim).
Proof.
  destruct lo, hi; simpl; intros H; try discriminate.
  injection H as <-. auto.
Qed.

Section TeamFacts.

Variable str_of_float : Q -> string.
Variable logos : string -> file_state.

Lemma team_plot_inv (df : DataFrame) (x_col y_col : string)
      (secondary : option DataFrame) (join_key title : option string)
      (label_col : string) (x_label y_label : option string)
      (invert_x invert_y : bool) (fig : figure) :
  create_nfl_scatter_plot str_of_float logos df x_col y_col secondary
    join_key title label_col x_label y_label invert_x invert_y = Ok fig ->
  exists plot_df sx sy xs ys xlim ylim,
    team_filtered df x_col y_col secondary join_key = Ok plot_df /\
    get_col plot_df x_col = Ok sx /\ as_floats sx = Ok xs /\
    get_col plot_df y_col = Ok sy /\ as_floats sy = Ok ys /\
    team_limits xs = (Some (fst xlim), Some (snd xlim)) /\
    team_limits ys = (Some (fst ylim), Some (snd ylim)) /\
    fig_ops fig = flat_map (plot_row str_of_float logos plot_df xs ys label_col)
                           (seq 0 (nrows plot_df)) /\
    fig_vline fig = mean xs /\ fig_hline fig = mean ys /\
    fig_xlim fig = flip_if invert_x xlim /\
    fig_ylim fig = flip_if invert_y ylim.
Proof.
  unfold create_nfl_scatter_plot, team_filtered.
  fold (join_sources df secondary join_key).
  destruct (join_sources df secondary join_key) as [joined|e]; [|discriminate].
  cbn [bind].
  destruct (dropna (percent_normalize joined x_col y_col) x_col y_col)
    as [plot_df|e]; [|discriminate].
  cbn [bind].
  destruct (get_col plot_df x_col) as [sx|e] eqn:Gx; [|discriminate].
  cbn [bind].
  destruct (as_floats sx) as [xs|e] eqn:Fx; [|discriminate]. cbn [bind].
  destruct (get_col plot_df y_col) as [sy|e] eqn:Gy; [|discriminate].
  cbn [bind].
  destruct (as_floats sy) as [ys|e] eqn:Fy; [|discriminate]. cbn [bind].
  destruct (set_lim (fst (team_limits xs)) (snd (team_limits xs)))
    as [xlim|e] eqn:Hx; [|discriminate]. cbn [bind].
  destruct (set_lim (fst (team_limits ys)) (snd (team_limits ys)))
    as [ylim|e] eqn:Hy; [|discriminate]. cbn [bind].
  intros H. injection H as <-.
  apply set_lim_ok in Hx as [Hx1 Hx2]. apply set_lim_ok in Hy as [Hy1 Hy2].
  assert (Lx : team_limits xs = (Some (fst xlim), Some (snd xlim))).
  { rewrite (surjective_pairing (team_limits xs)), Hx1, Hx2. reflexivity. }
  assert (Ly : team_limits ys = (Some (fst ylim), Some (snd ylim))).
  { rewrite (surjective_pairing (team_limits ys)), Hy1, Hy2. reflexivity. }
  exists plot_df, sx, sy, xs, ys, xlim, ylim.
  split; [reflexivity|]. split; [exact Gx|]. split; [exact Fx|].
  split; [exact Gy|]. split; [exact Fy|].
  split; [exact Lx|]. split; [exact Ly|].
  repeat split; reflexivity.
Qed.

End TeamFacts.

Section QbFacts.

Variable str_of_float : Q -> string.
Variable float_of_string : string -> option (option Q).
Variable numeric_of_string : string -> option Q.
Variable logos : string -> file_state.

Lemma qb_plot_inv (df : DataFrame) (x_axis y_axis : string) (min_plays : Q)
      (title : option string) (fig : figure) :
  create_qb_plot str_of_float float_of_string numeric_of_string logos
    df x_axis y_axis min_plays title = Ok fig ->
  exists df_plot sx sy xs ys names rows,
    qb_filtered str_of_float float_of_string numeric_of_string df min_plays
      = Ok df_plot /\
    get_col df_plot x_axis = Ok sx /\ as_floats sx = Ok xs /\
    get_col df_plot y_axis = Ok sy /\ as_floats sy = Ok ys /\
    get_col df_plot "Player Name" = Ok names /\
    mapM (qb_row str_of_float logos (cells names) xs ys)
         (seq 0 (nrows df_plot)) = Ok rows /\
    qb_limits xs = (Some (fst (fig_xlim fig)), Some (snd (fig_xlim fig))) /\
    qb_limits ys = (Some (fst (fig_ylim fig)), Some (snd (fig_ylim fig))) /\
    fig_ops fig = List.concat rows /\
    fig_vline fig = mean xs /\ fig_hline fig = mean ys.
Proof.
  unfold create_qb_plot, qb_filtered.
  destruct (shorten_names df) as [df1|e]; [|discriminate]. cbn [bind].
  destruct (coerce_columns str_of_float float_of_string numeric_of_string df1)
    as [df2|e]; [|discriminate]. cbn [bind].
  destruct (filter_plays df2 min_plays) as [df_plot|e]; [|discriminate].
  cbn [bind].
  destruct (get_col df_plot x_axis) as [sx|e] eqn:Gx; [|discriminate].
  cbn [bind].
  destruct (as_floats sx) as [xs|e] eqn:Fx; [|discriminate]. cbn [bind].
  destruct (get_col df_plot y_axis) as [sy|e] eqn:Gy; [|discriminate].
  cbn [bind].
  destruct (as_floats sy) as [ys|e] eqn:Fy; [|discriminate]. cbn [bind].
  destruct (get_col df_plot "Player Name") as [names|e] eqn:Gn;
    [|discriminate]. cbn [bind].
  destruct (mapM _ _) as [rows|e] eqn:Hrows; [|discriminate]. cbn [bind].
  destruct (set_lim (fst (qb_limits xs)) (snd (qb_limits xs)))
    as [xlim|e] eqn:Hx; [|discriminate]. cbn [bind].
  destruct (set_lim (fst (qb_limits ys)) (snd (qb_limits ys)))
    as [ylim|e] eqn:Hy; [|discriminate]. cbn [bind].
  intros H. injection H as <-.
  apply set_lim_ok in Hx as [Hx1 Hx2]. apply set_lim_ok in Hy as [Hy1 Hy2].
  assert (Lx : qb_limits xs = (Some (fst xlim), Some (snd xlim))).
  { rewrite (surjective_pairing (qb_limits xs)), Hx1, Hx2. reflexivity. }
  assert (Ly : qb_limits ys = (Some (fst ylim), Some (snd ylim))).
  { rewrite (surjective_pairing (qb_limits ys)), Hy1, Hy2. reflexivity. }
  exists df_plot, sx, sy, xs, ys, names, rows.
  split; [reflexivity|]. split; [exact Gx|]. split; [exact Fx|].
  split; [exact Gy|]. split; [exact Fy|]. split; [exact Gn|].
  split; [exact Hrows|]. split; [exact Lx|]. split; [exact Ly|].
  repeat split; reflexivity.
Qed.

End QbFacts.

(** ** Axis limits *)

Lemma limits_inv (k : R) (vs : list (option Q)) (lo hi : R) :
  (0 <= k)%R ->
  (minus_margin (min vs) (option_map (fun s => (s * k)%R) (std vs)),
   plus_margin (max vs) (option_map (fun s => (s * k)%R) (std vs)))
  = (Some lo, Some hi) ->
  exists mn mx sd,
    min vs = Some mn /\ max vs = Some mx /\ std vs = Some sd /\
    (0 <= sd)%R /\
    lo = (Q2R mn - sd * k)%R /\ hi = (Q2R mx + sd * k)%R /\
    forall v, In v (present vs) -> (lo <= Q2R v <= hi)%R.
Proof.
  intros Hk H.
  destruct (min vs) as [mn|] eqn:Hmin; [|discriminate].
  destruct (max vs) as [mx|] eqn:Hmax;
    [|destruct (std vs); discriminate].
  destruct (std vs) as [sd|] eqn:Hstd; [|discriminate].
  cbn in H. injection H as <- <-.
  assert (Hsd : (0 <= sd)%R).
  { unfold std in Hstd. cbv zeta in Hstd.
    destruct (List.length (present vs) <? 2)%nat; [discriminate|].
    injection Hstd as <-. apply sqrt_pos. }
  exists mn, mx, sd. repeat split; auto.
  - apply min_spec in Hmin as [_ Hmin]. apply Hmin, Qle_Rle in H.
    pose proof (Rmult_le_pos _ _ Hsd Hk). lra.
  - apply max_spec in Hmax as [_ Hmax]. apply Hmax, Qle_Rle in H.
    pose proof (Rmult_le_pos _ _ Hsd Hk). lra.
Qed.

Lemma std_eq (l : list (option Q)) (sd : R) :
  std l = Some sd ->
  2 <= List.length (present l) /\ sd = sqrt (Q2R (variance_of (present l))).
Proof.
  unfold std. cbv zeta.
  destruct (List.length (present l) <? 2)%nat eqn:E; [discriminate|].
  intros H. injection H as <-. apply Nat.ltb_ge in E. auto.
Qed.

Lemma limits_padded (k : R) (vs : list (option Q)) (lim : R * R) :
  (0 <= k)%R ->
  (minus_margin (min vs) (option_map (fun s => (s * k)%R) (std vs)),
   plus_margin (max vs) (option_map (fun s => (s * k)%R) (std vs)))
  = (Some (fst lim), Some (snd lim)) ->
  axis_padded k vs lim.
Proof.
  intros Hk H.
  destruct (limits_inv _ _ _ _ Hk H)
    as (mn & mx & sd & Hmin & Hmax & Hstd & Hsd & Hlo & Hhi & Hin).
  exists mn, mx, sd.
  destruct (std_eq _ _ Hstd) as [Hn ->].
  destruct (std_some _ Hn) as (sd' & Hstd' & _ & Hsq).
  rewrite Hstd in Hstd'. injection Hstd' as <-.
  repeat split; auto.
  - apply min_spec, Hmin.
  - apply max_spec, Hmax.
  - rewrite (surjective_pairing lim), Hlo, Hhi. reflexivity.
  - apply Hin, H0.
  - apply Hin, H0.
Qed.

Lemma limits_some (k : R) (vs : list (option Q)) :
  2 <= List.length (present vs) ->
  exists lim,
    (minus_margin (min vs) (option_map (fun s => (s * k)%R) (std vs)),
     plus_margin (max vs) (option_map (fun s => (s * k)%R) (std vs)))
    = (Some (fst lim), Some (snd lim)).
Proof.
  intros Hn.
  destruct (min_some vs) as [mn ->]; [lia|].
  destruct (max_some vs) as [mx ->]; [lia|].
  destruct (std_some vs Hn) as (sd & -> & _).
  eexists (_, _). reflexivity.
Qed.

(** C5, as the code has it.  With at least two plotted values an axis
    gets the limits [min - margin, max + margin], the margin being 0.5
    standard deviations in the team pipeline and 0.4 standard deviations
    in the quarterback pipeline; every plotted value lies inside.  Every
    chart either pipeline returns has such limits on both axes (before
    the team pipeline's optional flip). *)
Theorem limits_pad_the_range :
  (forall vs, 2 <= List.length (present vs) ->
     exists tlim qlim,
       team_limits vs = (Some (fst tlim), Some (snd tlim)) /\
       axis_padded (5 / 10) vs tlim /\
       qb_limits vs = (Some (fst qlim), Some (snd qlim)) /\
       axis_padded (4 / 10) vs qlim) /\
  (forall str_of_float logos df x_col y_col secondary join_key title
          label_col x_label y_label invert_x invert_y fig,
     create_nfl_scatter_plot str_of_float logos df x_col y_col secondary
       join_key title label_col x_label y_label invert_x invert_y = Ok fig ->
     exists plot_df sx sy xs ys xlim ylim,
       team_filtered df x_col y_col secondary join_key = Ok plot_df /\
       get_col plot_df x_col = Ok sx /\ as_floats sx = Ok xs /\
       get_col plot_df y_col = Ok sy /\ as_floats sy = Ok ys /\
       axis_padded (5 / 10) xs xlim /\ axis_padded (5 / 10) ys ylim /\
       fig_xlim fig = flip_if invert_x xlim /\
       fig_ylim fig = flip_if invert_y ylim) /\
  (forall str_of_float float_of_string numeric_of_string logos
          df x_axis y_axis min_plays title fig,
     create_qb_plot str_of_float float_of_string numeric_of_string logos
       df x_axis y_axis min_plays title = Ok fig ->
     exists df_plot sx sy xs ys,
       qb_filtered str_of_float float_of_string numeric_of_string df min_plays
         = Ok df_plot /\
       get_col df_plot x_axis = Ok sx /\ as_floats sx = Ok xs /\
       get_col df_plot y_axis = Ok sy /\ as_floats sy = Ok ys /\
       axis_padded (4 / 10) xs (fig_xlim fig) /\
       axis_padded (4 / 10) ys (fig_ylim fig)).
Proof.
  assert (H5 : (0 <= 5 / 10)%R) by lra.
  assert (H4 : (0 <= 4 / 10)%R) by lra.
  split; [|split].
  - intros vs Hn.
    destruct (limits_some (5 / 10) vs Hn) as [tlim Ht].
    destruct (limits_some (4 / 10) vs Hn) as [qlim Hq].
    exists tlim, qlim.
    split; [exact Ht|]. split; [apply limits_padded; assumption|].
    split; [exact Hq|]. apply limits_padded; assumption.
  - intros sof logos df x_col y_col secondary join_key title label_col
           x_label y_label invert_x invert_y fig Hrun.
    destruct (team_plot_inv _ _ _ _ _ _ _ _ _ _ _ _ _ _ Hrun)
      as (plot_df & sx & sy & xs & ys & xlim & ylim & Hf & Gx & Fx & Gy & Fy
          & Lx & Ly & _ & _ & _ & Hxl & Hyl).
    exists plot_df, sx, sy, xs, ys, xlim, ylim.
    repeat (split; [assumption|]).
    split; [apply limits_padded; assumption|].
    split; [apply limits_padded; assumption|]. auto.
  - intros sof fos nos logos df x_axis y_axis min_plays title fig Hrun.
    destruct (qb_plot_inv _ _ _ _ _ _ _ _ _ _ Hrun)
      as (df_plot & sx & sy & xs & ys & names & rows & Hf & Gx & Fx & Gy & Fy
          & _ & _ & Lx & Ly & _).
    exists df_plot, sx, sy, xs, ys.
    repeat (split; [assumption|]).
    split; apply limits_padded; assumption.
Qed.

Lemma limits_pad_the_range_witness :
  exists tlim qlim,
    team_limits three_values = (Some (fst tlim), Some (snd tlim)) /\
    axis_padded (5 / 10) three_values tlim /\
    qb_limits three_values = (Some (fst qlim), Some (snd qlim)) /\
    axis_padded (4 / 10) three_values qlim.
Proof.
  apply (proj1 limits_pad_the_range three_values). simpl. lia.
Defined.

Lemma std_three_values : std three_values = Some 1%R.
Proof.
  destruct (std_some three_values) as (sd & Hsd & _ & _); [simpl; lia|].
  rewrite Hsd. f_equal. apply std_eq in Hsd as [_ ->].
  assert (E : (variance_of (present three_values) == 1 # 1)%Q)
    by (vm_compute; reflexivity).
  rewrite (Qeq_eqR _ _ E), RMicromega.Q2R_1. apply sqrt_1.
Qed.

(** C5 as stated fails in the quarterback pipeline: for the values 0, 1
    and 2 the standard deviation is 1 and the margin is 0.4, not half of
    it, so the limits are [-0.4, 2.4] and not [-0.5, 2.5]. *)
Lemma qb_margin_not_half :
  std three_values = Some 1%R /\
  qb_margin three_values = Some (1 * (4 / 10))%R /\
  qb_margin three_values
    <> option_map (fun sd => (sd / 2)%R) (std three_values) /\
  qb_limits three_values
    <> (Some (Q2R (0 # 1) - 1 / 2)%R, Some (Q2R (2 # 1) + 1 / 2)%R).
Proof.
  split; [exact std_three_values|].
  unfold qb_limits, qb_margin. rewrite std_three_values. cbn [option_map].
  split; [reflexivity|]. split.
  - intros H. injection H as H. lra.
  - change (min three_values) with (Some (0 # 1)%Q).
    cbn [minus_margin]. intros H. injection H as H _. lra.
Qed.

(** ** Degenerate statistics *)

Lemma obj_floats_length (l : list obj) (vs : list (option Q)) :
  obj_floats l = Ok vs -> List.length vs = List.length l.
Proof.
  revert vs. induction l as [|o l IH]; intros vs; simpl.
  - intros H. injection H as <-. reflexivity.
  - destruct o; try discriminate;
      (destruct (obj_floats l) as [ws|e]; [|discriminate]);
      cbn [bind]; intros H; injection H as <-; simpl; rewrite (IH ws);
      reflexivity.
Qed.

Lemma as_floats_length (s : series) (vs : list (option Q)) :
  as_floats s = Ok vs -> List.length vs = series_len s.
Proof.
  destruct s as [l|l]; simpl.
  - intros H. injection H as <-. reflexivity.
  - apply obj_floats_length.
Qed.

Lemma present_length (l : list (option Q)) :
  List.length (present l) <= List.length l.
Proof.
  induction l as [|[v|] l IH]; simpl; lia.
Qed.

Lemma team_limits_some_length (vs : list (option Q)) (lo hi : R) :
  team_limits vs = (Some lo, Some hi) -> 2 <= List.length vs.
Proof.
  unfold team_limits, team_margin. intros H.
  destruct (std vs) as [sd|] eqn:Hstd.
  - apply std_eq in Hstd as [Hn _]. pose proof (present_length vs). lia.
  - destruct (min vs); discriminate.
Qed.

(** C6, as the code has it.  With fewer than two plotted values the
    standard deviation is NaN, so the margin and both limits are NaN -
    there is no fallback to zero - and [set_xlim] refuses them: when an
    axis column of the filtered frame has zero or one row, the team
    pipeline ends in an exception. *)
Theorem degenerate_stats_not_absorbed :
  (forall vs, List.length (present vs) <= 1 ->
     std vs = None /\ team_margin vs = None /\
     team_limits vs = (None, None) /\
     set_lim (fst (team_limits vs)) (snd (team_limits vs))
       = Raise ValueError) /\
  (forall str_of_float logos df x_col y_col secondary join_key title
          label_col x_label y_label invert_x invert_y plot_df c s,
     team_filtered df x_col y_col secondary join_key = Ok plot_df ->
     c = x_col \/ c = y_col ->
     get_col plot_df c = Ok s -> series_len s <= 1 ->
     exists e,
       create_nfl_scatter_plot str_of_float logos df x_col y_col secondary
         join_key title label_col x_label y_label invert_x invert_y
       = Raise e).
Proof.
  split.
  - intros vs Hn. pose proof (std_none vs Hn) as Hstd.
    unfold team_limits, team_margin. rewrite Hstd. cbn [option_map].
    destruct (min vs), (max vs); auto.
  - intros sof logos df x_col y_col secondary join_key title label_col
           x_label y_label invert_x invert_y plot_df c s Hf Hc Hg Hlen.
    destruct (create_nfl_scatter_plot sof logos df x_col y_col secondary
                join_key title label_col x_label y_label invert_x invert_y)
      as [fig|e] eqn:Hrun; [exfalso|eauto].
    destruct (team_plot_inv _ _ _ _ _ _ _ _ _ _ _ _ _ _ Hrun)
      as (plot_df' & sx & sy & xs & ys & xlim & ylim & Hf' & Gx & Fx & Gy
          & Fy & Lx & Ly & _).
    rewrite Hf in Hf'. injection Hf' as <-.
    apply team_limits_some_length in Lx, Ly.
    apply as_floats_length in Fx, Fy.
    destruct Hc as [-> | ->].
    + rewrite Hg in Gx. injection Gx as <-. lia.
    + rewrite Hg in Gy. injection Gy as <-. lia.
Qed.

Lemma degenerate_stats_not_absorbed_witness :
  std [Some (1 # 2)%Q] = None /\ team_margin [Some (1 # 2)%Q] = None /\
  team_limits [Some (1 # 2)%Q] = (None, None) /\
  set_lim (fst (team_limits [Some (1 # 2)%Q]))
          (snd (team_limits [Some (1 # 2)%Q])) = Raise ValueError.
Proof.
  apply (proj1 degenerate_stats_not_absorbed). simpl. lia.
Defined.

(** C6 as stated fails: on a frame with a single row the margin is NaN,
    not zero, and the call raises ValueError instead of returning a
    chart. *)
Lemma one_row_chart_raises :
  team_filtered one_row_frame "X" "Y" None None = Ok one_row_frame /\
  team_margin [Some (1 # 2)%Q] <> Some 0%R /\
  create_nfl_scatter_plot Decimal.write Decimal.no_logos one_row_frame
    "X" "Y" None None None "Tm" None None false false
  = Raise ValueError.
Proof.
  split; [reflexivity|]. split; [discriminate|]. reflexivity.
Qed.

(** ** Axis inversion *)

Lemma team_plot_flags str_of_float logos df x_col y_col secondary join_key
      title label_col x_label y_label invert_x invert_y :
  create_nfl_scatter_plot str_of_float logos df x_col y_col secondary
    join_key title label_col x_label y_label invert_x invert_y
  = res_map (flip_axes invert_x invert_y)
      (create_nfl_scatter_plot str_of_float logos df x_col y_col secondary
         join_key title label_col x_label y_label false false).
Proof.
  unfold create_nfl_scatter_plot.
  destruct (match secondary with Some _ => _ | None => _ end)
    as [joined|e]; [|reflexivity]. cbn [bind].
  destruct (dropna _ _ _) as [plot_df|e]; [|reflexivity]. cbn [bind].
  destruct (get_col plot_df x_col) as [sx|e]; [|reflexivity]. cbn [bind].
  destruct (as_floats sx) as [xs|e]; [|reflexivity]. cbn [bind].
  destruct (get_col plot_df y_col) as [sy|e]; [|reflexivity]. cbn [bind].
  destruct (as_floats sy) as [ys|e]; [|reflexivity]. cbn [bind].
  destruct (set_lim (fst (team_limits xs)) _) as [xlim|e]; [|reflexivity].
  cbn [bind].
  destruct (set_lim (fst (team_limits ys)) _) as [ylim|e]; [|reflexivity].
  reflexivity.
Qed.

Lemma res_map_map {A B C : Type} (f : A -> B) (g : B -> C) (r : result A) :
  res_map g (res_map f r) = res_map (fun a => g (f a)) r.
Proof. destruct r; reflexivity. Qed.

(** C7.  The limits are set from the data before any flip, and the flags
    act on the finished chart only: a run with flags is the run without
    flags with the ends of the flagged axes exchanged.  So the x flag
    leaves the y limits alone, the y flag leaves the x limits alone, and
    a flag exchanges the two ends of its own axis without changing
    them. *)
Theorem inversion_is_a_late_flip str_of_float logos df x_col y_col secondary
        join_key title label_col x_label y_label invert_x invert_y :
  let run := create_nfl_scatter_plot str_of_float logos df x_col y_col
               secondary join_key title label_col x_label y_label in
  run invert_x invert_y
    = res_map (flip_axes invert_x invert_y) (run false false) /\
  res_map fig_ylim (run invert_x invert_y)
    = res_map fig_ylim (run false invert_y) /\
  res_map fig_xlim (run invert_x invert_y)
    = res_map fig_xlim (run invert_x false) /\
  res_map fig_xlim (run true invert_y)
    = res_map (fun fig => (snd (fig_xlim fig), fst (fig_xlim fig)))
        (run false invert_y) /\
  res_map fig_ylim (run invert_x true)
    = res_map (fun fig => (snd (fig_ylim fig), fst (fig_ylim fig)))
        (run invert_x false) /\
  (forall fig, run false false = Ok fig ->
     exists plot_df sx sy xs ys,
       team_filtered df x_col y_col secondary join_key = Ok plot_df /\
       get_col plot_df x_col = Ok sx /\ as_floats sx = Ok xs /\
       get_col plot_df y_col = Ok sy /\ as_floats sy = Ok ys /\
       team_limits xs
         = (Some (fst (fig_xlim fig)), Some (snd (fig_xlim fig))) /\
       team_limits ys
         = (Some (fst (fig_ylim fig)), Some (snd (fig_ylim fig)))).
Proof.
  cbv zeta.
  split; [apply team_plot_flags|].
  split.
  { rewrite (team_plot_flags _ _ _ _ _ _ _ _ _ _ _ invert_x invert_y).
    rewrite (team_plot_flags _ _ _ _ _ _ _ _ _ _ _ false invert_y).
    rewrite !res_map_map. reflexivity. }
  split.
  { rewrite (team_plot_flags _ _ _ _ _ _ _ _ _ _ _ invert_x invert_y).
    rewrite (team_plot_flags _ _ _ _ _ _ _ _ _ _ _ invert_x false).
    rewrite !res_map_map. reflexivity. }
  split.
  { rewrite (team_plot_flags _ _ _ _ _ _ _ _ _ _ _ true invert_y).
    rewrite (team_plot_flags _ _ _ _ _ _ _ _ _ _ _ false invert_y).
    rewrite !res_map_map. reflexivity. }
  split.
  { rewrite (team_plot_flags _ _ _ _ _ _ _ _ _ _ _ invert_x true).
    rewrite (team_plot_flags _ _ _ _ _ _ _ _ _ _ _ invert_x false).
    rewrite !res_map_map. reflexivity. }
  intros fig Hrun.
  destruct (team_plot_inv _ _ _ _ _ _ _ _ _ _ _ _ _ _ Hrun)
    as (plot_df & sx & sy & xs & ys & xlim & ylim & Hf & Gx & Fx & Gy & Fy
        & Lx & Ly & _ & _ & _ & Hxl & Hyl).
  cbn [flip_if] in Hxl, Hyl. subst xlim ylim.
  exists plot_df, sx, sy, xs, ys. auto 10.
Qed.

(** ** The left join *)

Open Scope list_scope.

Lemma get_col_In (df : DataFrame) (c : string) (s : series) :
  get_col df c = Ok s -> In (c, s) df.
Proof.
  induction df as [|[d t] df IH]; simpl; [discriminate|].
  destruct (String.eqb c d) eqn:E.
  - apply String.eqb_eq in E. subst d. intros H. injection H as <-. auto.
  - auto.
Qed.

Lemma get_col_app (df ext : DataFrame) (c : string) :
  In c (columns df) -> get_col (df ++ ext) c = get_col df c.
Proof.
  induction df as [|[d t] df IH]; simpl; [tauto|].
  destruct (String.eqb c d) eqn:E; [reflexivity|].
  intros [->|Hin]; [|auto].
  rewrite String.eqb_refl in E. discriminate.
Qed.

Lemma cells_length (s : series) : List.length (cells s) = series_len s.
Proof. destruct s; simpl; [apply length_map|reflexivity]. Qed.

Lemma map_nth_seq {A : Type} (d : A) (l : list A) :
  map (fun i => nth i l d) (seq 0 (List.length l)) = l.
Proof.
  induction l as [|a l IH]; [reflexivity|].
  cbn [List.length seq map nth]. f_equal.
  rewrite <- seq_shift, map_map. exact IH.
Qed.

Section JoinPlan.

Variables lkeys rkeys : list obj.

Hypothesis at_most_one :
  forall k, In k lkeys -> List.length (matches_from 0 k rkeys) <= 1.

Lemma plan_row_single (i : nat) (k : obj) :
  In k lkeys -> plan_row rkeys i k = [(i, first_match k rkeys)].
Proof.
  intros Hk. specialize (at_most_one k Hk).
  unfold plan_row, first_match.
  destruct (matches_from 0 k rkeys) as [|j [|j' js]]; simpl in *;
    [reflexivity|reflexivity|lia].
Qed.

End JoinPlan.

Lemma join_plan_from_spec (rkeys lkeys : list obj) (b : nat) :
  (forall k, In k lkeys -> List.length (matches_from 0 k rkeys) <= 1) ->
  join_plan_from b lkeys rkeys
  = map (fun ik => (fst ik, first_match (snd ik) rkeys))
        (combine (seq b (List.length lkeys)) lkeys).
Proof.
  revert b. induction lkeys as [|k ks IH]; intros b H; [reflexivity|].
  cbn [join_plan_from List.length seq combine map fst snd].
  rewrite (plan_row_single (k :: ks) rkeys H) by (left; reflexivity).
  cbn [app]. f_equal. apply IH. intros k' Hk'. apply H. right. exact Hk'.
Qed.

Lemma combine_seq_fst {A : Type} (l : list A) (b : nat) :
  map fst (combine (seq b (List.length l)) l) = seq b (List.length l).
Proof.
  revert b. induction l as [|a l IH]; intros b; [reflexivity|].
  simpl. f_equal. apply IH.
Qed.

Lemma combine_seq_nth {A : Type} (d : A) (l : list A) (b i : nat) :
  i < List.length l ->
  nth i (combine (seq b (List.length l)) l) (0, d) = (b + i, nth i l d).
Proof.
  revert b i. induction l as [|a l IH]; intros b i Hi; simpl in Hi; [lia|].
  destruct i as [|i]; simpl.
  - rewrite Nat.add_0_r. reflexivity.
  - rewrite IH by lia. f_equal. lia.
Qed.

Lemma join_plan_fst (lkeys rkeys : list obj) :
  (forall k, In k lkeys -> List.length (matches_from 0 k rkeys) <= 1) ->
  map fst (join_plan lkeys rkeys) = seq 0 (List.length lkeys).
Proof.
  intros H. unfold join_plan. rewrite join_plan_from_spec by exact H.
  rewrite map_map. cbn [fst]. apply combine_seq_fst.
Qed.

Lemma join_plan_nth (lkeys rkeys : list obj) (i : nat) :
  (forall k, In k lkeys -> List.length (matches_from 0 k rkeys) <= 1) ->
  i < List.length lkeys ->
  nth i (join_plan lkeys rkeys) (0, None)
  = (i, first_match (nth i lkeys ONaN) rkeys).
Proof.
  intros H Hi. unfold join_plan. rewrite join_plan_from_spec by exact H.
  set (f := fun ik : nat * obj => (fst ik, first_match (snd ik) rkeys)).
  assert (Hlen : i < List.length (combine (seq 0 (List.length lkeys)) lkeys)).
  { rewrite length_combine, length_seq. lia. }
  rewrite (nth_indep _ (0, None) (f (0, ONaN))) by (rewrite length_map; exact Hlen).
  rewrite map_nth, combine_seq_nth by exact Hi.
  reflexivity.
Qed.

Lemma take_left_id (plan : list (nat * option nat)) (s : series) :
  map fst plan = seq 0 (series_len s) -> take_left plan s = s.
Proof.
  intros H. destruct s as [l|l]; simpl in *; f_equal;
    rewrite <- (map_map fst (fun i => nth i l _)), H; apply map_nth_seq.
Qed.

Lemma take_right_cell (plan : list (nat * option nat)) (s : series) (i : nat) :
  i < List.length plan ->
  cell_at (take_right plan s) i
  = match snd (nth i plan (0, None)) with
    | Some j => cell_at s j
    | None => ONaN
    end.
Proof.
  intros Hi. unfold cell_at. destruct s as [l|l]; cbn [take_right cells].
  - rewrite map_map.
    set (h := fun p : nat * option nat => _).
    rewrite (nth_indep _ ONaN (h (0, None))) by (rewrite length_map; exact Hi).
    rewrite map_nth. subst h. cbn beta.
    destruct (snd (nth i plan (0, None))) as [j|]; [|reflexivity].
    symmetry.
    exact (map_nth (fun o : option Q =>
                      match o with Some q => ONum q | None => ONaN end)
                   l None j).
  - set (h := fun p : nat * option nat => _).
    rewrite (nth_indep _ ONaN (h (0, None))) by (rewrite length_map; exact Hi).
    rewrite map_nth. reflexivity.
Qed.

Lemma Forall2_map_right {A B : Type} (R : A -> B -> Prop) (f : A -> B)
      (l : list A) :
  (forall a, In a l -> R a (f a)) -> Forall2 R l (map f l).
Proof.
  induction l as [|a l IH]; intros H; simpl; constructor.
  - apply H. left. reflexivity.
  - apply IH. intros b Hb. apply H. right. exact Hb.
Qed.

Lemma nodupb_and (cs ds : list string) :
  nodupb ds = true -> nodupb cs && negb (nodupb ds) = false.
Proof. intros ->. apply andb_false_r. Qed.

Lemma mem_In (c : string) (cs : list string) : mem c cs = true <-> In c cs.
Proof.
  unfold mem. rewrite existsb_exists. split.
  - intros (d & Hd & E). apply String.eqb_eq in E. now subst.
  - intros H. exists c. split; [exact H|apply String.eqb_refl].
Qed.

Lemma nodupb_app (a b : list string) :
  nodupb (a ++ b) = true ->
  nodupb b = true /\ forall c, In c a -> In c b -> False.
Proof.
  induction a as [|x a IH]; cbn [app nodupb]; intros H.
  - split; [exact H|intros c []].
  - apply andb_true_iff in H as [Hx H]. destruct (IH H) as [Hb Hd].
    split; [exact Hb|]. intros c [<-|Hc] Hin.
    + apply negb_true_iff in Hx.
      assert (M : mem x (a ++ b) = true)
        by (apply mem_In, in_or_app; now right).
      congruence.
    + exact (Hd c Hc Hin).
Qed.

(** Distinct labels in the joined frame: then the join raises no
    MergeError. *)
Lemma merge_names_ok (lcols rcols : list string) :
  nodupb (lcols ++ map (suffixed lcols) rcols) = true ->
  (nodupb rcols && negb (nodupb (map (suffixed lcols) rcols)))
  || clashes lcols rcols = false.
Proof.
  intros H. destruct (nodupb_app _ _ H) as [Hr Hd].
  rewrite (nodupb_and _ _ Hr). cbn [orb].
  unfold clashes.
  destruct (existsb _ rcols) eqn:E; [|reflexivity]. exfalso.
  apply existsb_exists in E as (c & Hc & E).
  apply andb_true_iff in E as [E _]. apply andb_true_iff in E as [E1 E2].
  apply (Hd (c ++ "_secondary")%string); [now apply mem_In|].
  apply in_map_iff. exists c. split; [|exact Hc].
  unfold suffixed. now rewrite E1.
Qed.

(** Which right rows match a key. *)
Lemma matches_from_In (b : nat) (k : obj) (rkeys : list obj) (j : nat) :
  In j (matches_from b k rkeys) <->
  b <= j /\ j - b < List.length rkeys /\
  obj_eqb k (nth (j - b) rkeys ONaN) = true.
Proof.
  revert b. induction rkeys as [|r rs IH]; intros b.
  - cbn [matches_from List.length]. split; [intros []|]. intros (_ & H & _).
    lia.
  - cbn [matches_from List.length].
    assert (Hrec : In j (matches_from (S b) k rs) <->
                   b < j /\ j - b < S (List.length rs) /\
                   obj_eqb k (nth (j - b) (r :: rs) ONaN) = true).
    { rewrite IH. split.
      - intros (H1 & H2 & H3). split; [lia|]. split; [lia|].
        replace (j - b) with (S (j - S b)) by lia. exact H3.
      - intros (H1 & H2 & H3). split; [lia|]. split; [lia|].
        replace (j - b) with (S (j - S b)) in H3 by lia. exact H3. }
    destruct (obj_eqb k r) eqn:E.
    + cbn [In]. rewrite Hrec. split.
      * intros [<-|(H1 & H2 & H3)].
        -- split; [lia|]. split; [lia|]. now rewrite Nat.sub_diag.
        -- split; [lia|]. split; assumption.
      * intros (H1 & H2 & H3).
        destruct (Nat.eq_dec b j) as [->|Hne]; [now left|right].
        split; [lia|]. split; assumption.
    + rewrite Hrec. split.
      * intros (H1 & H2 & H3). split; [lia|]. split; assumption.
      * intros (H1 & H2 & H3). split; [|split; assumption].
        destruct (Nat.eq_dec b j) as [->|Hne]; [|lia].
        rewrite Nat.sub_diag in H3. cbn [nth] in H3. congruence.
Qed.

Lemma matches_from_NoDup (b : nat) (k : obj) (rkeys : list obj) :
  NoDup (matches_from b k rkeys).
Proof.
  revert b. induction rkeys as [|r rs IH]; intros b; [constructor|].
  cbn [matches_from]. destruct (obj_eqb k r); [|apply IH].
  constructor; [|apply IH]. intros Hin. apply matches_from_In in Hin. lia.
Qed.

Lemma matches_at_most_one (k : obj) (rkeys : list obj) :
  (forall j j', j < List.length rkeys -> j' < List.length rkeys ->
     obj_eqb k (nth j rkeys ONaN) = true ->
     obj_eqb k (nth j' rkeys ONaN) = true -> j = j') ->
  List.length (matches_from 0 k rkeys) <= 1.
Proof.
  intros H. pose proof (matches_from_NoDup 0 k rkeys) as Hnd.
  destruct (matches_from 0 k rkeys) as [|j [|j' js]] eqn:E;
    [cbn; lia|cbn; lia|]. exfalso.
  assert (Hj : In j (matches_from 0 k rkeys)) by (rewrite E; now left).
  assert (Hj' : In j' (matches_from 0 k rkeys))
    by (rewrite E; right; now left).
  apply matches_from_In in Hj as (_ & Hj1 & Hj2).
  apply matches_from_In in Hj' as (_ & Hj1' & Hj2').
  rewrite Nat.sub_0_r in *.
  pose proof (H j j' Hj1 Hj1' Hj2 Hj2') as ->.
  inversion Hnd as [|? ? Hn _]; subst. apply Hn. now left.
Qed.

Lemma first_match_some (k : obj) (rkeys : list obj) (j : nat) :
  first_match k rkeys = Some j ->
  j < List.length rkeys /\ obj_eqb k (nth j rkeys ONaN) = true.
Proof.
  unfold first_match. intros H.
  assert (Hin : In j (matches_from 0 k rkeys))
    by (destruct (matches_from 0 k rkeys); [discriminate|];
        injection H as <-; now left).
  apply matches_from_In in Hin as (_ & H1 & H2).
  rewrite Nat.sub_0_r in *. auto.
Qed.

Lemma first_match_none (k : obj) (rkeys : list obj) (j : nat) :
  first_match k rkeys = None -> j < List.length rkeys ->
  obj_eqb k (nth j rkeys ONaN) = false.
Proof.
  unfold first_match. intros H Hj.
  destruct (obj_eqb k (nth j rkeys ONaN)) eqn:E; [|reflexivity]. exfalso.
  assert (Hin : In j (matches_from 0 k rkeys))
    by (apply matches_from_In; rewrite Nat.sub_0_r; auto with arith).
  destruct (matches_from 0 k rkeys); [exact Hin|discriminate].
Qed.

(** The join when each primary key has at most one match, told by the
    first matching row. *)
Lemma left_join_first_match (left right : DataFrame) (key : string)
      (lk rk : series) :
  wf left ->
  get_col left key = Ok lk ->
  get_col right key = Ok rk ->
  same_dtype lk rk = true ->
  nodupb (columns left
          ++ map (suffixed (columns left)) (columns (drop_col key right)))
    = true ->
  (forall k, In k (cells lk) ->
     List.length (matches_from 0 k (cells rk)) <= 1) ->
  exists secondary_part,
    merge_left left right key = Ok (left ++ secondary_part) /\
    nrows (left ++ secondary_part) = nrows left /\
    columns secondary_part
      = map (suffixed (columns left)) (columns (drop_col key right)) /\
    (forall c, In c (columns left) ->
       get_col (left ++ secondary_part) c = get_col left c) /\
    (forall c, In c (columns (drop_col key right)) -> In c (columns left) ->
       In (c ++ "_secondary")%string (columns secondary_part)) /\
    Forall2
      (fun cs ds =>
         fst ds = suffixed (columns left) (fst cs) /\
         forall i, i < nrows left ->
           cell_at (snd ds) i
           = match first_match (cell_at lk i) (cells rk) with
             | Some j => cell_at (snd cs) j
             | None => ONaN
             end)
      (drop_col key right) secondary_part.
Proof.
  intros Hwf Hlk Hrk Hdt Hnd Hone.
  set (plan := join_plan (cells lk) (cells rk)).
  set (f := fun cs : string * series =>
              (suffixed (columns left) (fst cs), take_right plan (snd cs))).
  assert (Hlen : List.length (cells lk) = nrows left).
  { rewrite cells_length. apply (Hwf key). apply get_col_In, Hlk. }
  assert (Hfst : map fst plan = seq 0 (nrows left)).
  { unfold plan. rewrite join_plan_fst by exact Hone. rewrite Hlen.
    reflexivity. }
  assert (Hleft : map (fun cs : string * series =>
                         (fst cs, take_left plan (snd cs))) left = left).
  { rewrite <- (map_id left) at 2. apply map_ext_in. intros [c s] Hin.
    cbn [fst snd]. rewrite take_left_id; [reflexivity|].
    rewrite (Hwf c s Hin). exact Hfst. }
  exists (map f (drop_col key right)).
  split.
  { unfold merge_left. rewrite Hlk, Hrk. cbn [bind]. rewrite Hdt.
    cbn [negb]. cbv zeta. rewrite (merge_names_ok _ _ Hnd).
    fold plan. rewrite Hleft. reflexivity. }
  split.
  { destruct left as [|[c s] left']; [discriminate|reflexivity]. }
  split.
  { unfold columns. rewrite !map_map. reflexivity. }
  split.
  { intros c Hc. apply get_col_app, Hc. }
  split.
  { intros c Hr Hl. unfold columns at 1. rewrite map_map.
    unfold columns in Hr. apply in_map_iff in Hr as ([c' s] & <- & Hin).
    apply in_map_iff. exists (c', s). split; [|exact Hin].
    unfold f. cbn [fst snd] in *. unfold suffixed, mem.
    assert (E : existsb (String.eqb c') (columns left) = true).
    { apply existsb_exists. exists c'. split; [exact Hl|].
      apply String.eqb_refl. }
    rewrite E. reflexivity. }
  apply Forall2_map_right. intros [c s] Hin. unfold f. cbn [fst snd].
  split; [reflexivity|]. intros i Hi.
  assert (Hpl : List.length plan = nrows left).
  { rewrite <- (length_map fst), Hfst. apply length_seq. }
  rewrite take_right_cell by lia.
  unfold plan. rewrite join_plan_nth by (exact Hone || lia).
  reflexivity.
Qed.

Lemma Forall2_impl {A B : Type} (R S : A -> B -> Prop) (l : list A)
      (l' : list B) :
  (forall a b, R a b -> S a b) -> Forall2 R l l' -> Forall2 S l l'.
Proof. intros H. induction 1; constructor; auto. Qed.

(** C8.  When no primary key equals the key of two secondary rows and
    the labels of the joined frame are distinct, the joined frame is the
    primary frame itself - every primary Record once, in order, its
    fields unchanged under their own names - followed by the secondary
    columns but the key.  A secondary column whose name is also a primary
    column is renamed with the suffix [_secondary]; its cell in a row is
    the cell of the secondary row with the same key, and NaN when no
    secondary row has that key. *)
Theorem left_join_keeps_primary (left right : DataFrame) (key : string)
        (lk rk : series) :
  wf left ->
  get_col left key = Ok lk ->
  get_col right key = Ok rk ->
  same_dtype lk rk = true ->
  nodupb (columns left
          ++ map (suffixed (columns left)) (columns (drop_col key right)))
    = true ->
  (forall i j j',
     i < series_len lk -> j < series_len rk -> j' < series_len rk ->
     obj_eqb (cell_at lk i) (cell_at rk j) = true ->
     obj_eqb (cell_at lk i) (cell_at rk j') = true -> j = j') ->
  exists secondary_part,
    merge_left left right key = Ok (left ++ secondary_part) /\
    nrows (left ++ secondary_part) = nrows left /\
    nodupb (columns (left ++ secondary_part)) = true /\
    columns secondary_part
      = map (suffixed (columns left)) (columns (drop_col key right)) /\
    (forall c, In c (columns left) ->
       get_col (left ++ secondary_part) c = get_col left c) /\
    (forall c, In c (columns (drop_col key right)) -> In c (columns left) ->
       In (c ++ "_secondary")%string (columns secondary_part)) /\
    Forall2
      (fun cs ds =>
         fst ds = suffixed (columns left) (fst cs) /\
         forall i, i < nrows left ->
           (forall j, j < series_len rk ->
              obj_eqb (cell_at lk i) (cell_at rk j) = true ->
              cell_at (snd ds) i = cell_at (snd cs) j) /\
           ((forall j, j < series_len rk ->
               obj_eqb (cell_at lk i) (cell_at rk j) = false) ->
            cell_at (snd ds) i = ONaN))
      (drop_col key right) secondary_part.
Proof.
  intros Hwf Hlk Hrk Hdt Hnd Huniq.
  assert (Hrows : series_len lk = nrows left).
  { apply (Hwf key). apply get_col_In, Hlk. }
  assert (Hone : forall k, In k (cells lk) ->
                   List.length (matches_from 0 k (cells rk)) <= 1).
  { intros k Hk. apply In_nth with (d := ONaN) in Hk as (i & Hi & <-).
    rewrite cells_length in Hi. apply matches_at_most_one.
    intros j j'. rewrite cells_length. intros Hj Hj'.
    exact (Huniq i j j' Hi Hj Hj'). }
  destruct (left_join_first_match left right key lk rk Hwf Hlk Hrk Hdt Hnd
              Hone) as (part & Hm & Hn & Hc & Hg & Hs & Hcells).
  exists part. split; [exact Hm|]. split; [exact Hn|].
  split; [unfold columns in *; rewrite map_app; rewrite Hc; exact Hnd|].
  split; [exact Hc|]. split; [exact Hg|]. split; [exact Hs|].
  eapply Forall2_impl; [|exact Hcells].
  intros cs ds [Hname Hcell]. split; [exact Hname|].
  intros i Hi. rewrite (Hcell i Hi).
  destruct (first_match (cell_at lk i) (cells rk)) as [j0|] eqn:E.
  - destruct (first_match_some _ _ _ E) as [Hj0 Hm0].
    rewrite cells_length in Hj0. split.
    + intros j Hj Hmj.
      assert (j = j0) as ->
        by (apply (Huniq i j j0); [lia|exact Hj|exact Hj0|exact Hmj|
                                   exact Hm0]).
      reflexivity.
    + intros Hnone. specialize (Hnone j0 Hj0).
      unfold cell_at in Hnone at 2. congruence.
  - split; [|reflexivity]. intros j Hj Hmj.
    rewrite <- cells_length in Hj.
    pose proof (first_match_none _ _ j E Hj) as Hf.
    unfold cell_at in Hmj at 2. congruence.
Qed.

Lemma left_join_keeps_primary_witness :
  merge_left teams_primary teams_secondary "Tm"
  = Ok (teams_primary
        ++ [("W_secondary",
             NumSeries [Some (6 # 1)%Q; None; Some (10 # 1)%Q]);
            ("PACT%",
             NumSeries [Some (31 # 1)%Q; None; Some (25 # 1)%Q])]) /\
  Forall2
    (fun cs ds =>
       fst ds = suffixed (columns teams_primary) (fst cs) /\
       forall i, i < nrows teams_primary ->
         (forall j, j < 2 ->
            obj_eqb (cell_at (ObjSeries [OStr "DAL"; OStr "NYG"; OStr "PHI"]) i)
                    (cell_at (ObjSeries [OStr "PHI"; OStr "DAL"]) j) = true ->
            cell_at (snd ds) i = cell_at (snd cs) j) /\
         ((forall j, j < 2 ->
             obj_eqb (cell_at (ObjSeries [OStr "DAL"; OStr "NYG"; OStr "PHI"]) i)
                     (cell_at (ObjSeries [OStr "PHI"; OStr "DAL"]) j) = false) ->
          cell_at (snd ds) i = ONaN))
    (drop_col "Tm" teams_secondary)
    [("W_secondary", NumSeries [Some (6 # 1)%Q; None; Some (10 # 1)%Q]);
     ("PACT%", NumSeries [Some (31 # 1)%Q; None; Some (25 # 1)%Q])].
Proof.
  destruct (left_join_keeps_primary teams_primary teams_secondary "Tm"
              (ObjSeries [OStr "DAL"; OStr "NYG"; OStr "PHI"])
              (ObjSeries [OStr "PHI"; OStr "DAL"]))
    as (part & Hm & _ & _ & _ & _ & _ & Hcells).
  - intros c s [E|[E|[]]]; injection E as <- <-; reflexivity.
  - reflexivity.
  - reflexivity.
  - reflexivity.
  - reflexivity.
  - intros i j j' Hi Hj Hj'. cbn [series_len List.length] in Hi, Hj, Hj'.
    destruct i as [|[|[|i]]]; [| | |lia];
      destruct j as [|[|j]]; try lia; destruct j' as [|[|j']]; try lia;
      cbn; intros; congruence.
  - assert (E : part
                = [("W_secondary",
                    NumSeries [Some (6 # 1)%Q; None; Some (10 # 1)%Q]);
                   ("PACT%",
                    NumSeries [Some (31 # 1)%Q; None; Some (25 # 1)%Q])]).
    { vm_compute in Hm. injection Hm as <-. reflexivity. }
    rewrite E in Hm, Hcells. split; [exact Hm|exact Hcells].
Defined.

(** ** The quarterback frame: coercion and the threshold *)

Section Coercion.

Variable str_of_float : Q -> string.
Variable float_of_string : string -> option (option Q).
Variable numeric_of_string : string -> option Q.

Local Notation "'co_step'" :=
  (coerce_step str_of_float float_of_string numeric_of_string).
Local Notation "'co_columns'" :=
  (coerce_columns str_of_float float_of_string numeric_of_string).
Local Notation "'to_num'" := (to_numeric numeric_of_string).
Local Notation "'num_cell'" := (numeric_cell numeric_of_string).

Lemma coerce_fold_raise (cols : list string) (e : exn) :
  fold_left co_step cols (Raise e) = Raise e.
Proof. induction cols as [|c cols IH]; [reflexivity|exact IH]. Qed.

(** A column that is neither text nor a percentage is replaced by its
    numeric reading; the other columns are left alone by that step. *)
Lemma coerce_step_numeric (df df' : DataFrame) (col : string) (s : series) :
  mem col text_cols = false -> mem col percent_cols = false ->
  get_col df col = Ok s ->
  co_step (Ok df) col = Ok df' ->
  get_col df' col = Ok (NumSeries (to_num s)).
Proof.
  intros Ht Hp Hg. unfold coerce_step. cbn [bind].
  rewrite Ht, Hg. cbn [bind]. rewrite Hp.
  intros H. injection H as <-. eapply get_set_same, Hg.
Qed.

Lemma coerce_step_other (df df' : DataFrame) (col c : string) :
  c <> col ->
  co_step (Ok df) col = Ok df' ->
  get_col df' c = get_col df c.
Proof.
  intros Hne. unfold coerce_step. cbn [bind].
  destruct (mem col text_cols); [intros H; injection H as <-; reflexivity|].
  destruct (get_col df col) as [s|e]; [|discriminate]. cbn [bind].
  destruct (mem col percent_cols).
  - destruct (mapM _ _) as [vs|e]; [|discriminate]. cbn [bind].
    intros H. injection H as <-. apply get_set_other, Hne.
  - intros H. injection H as <-. apply get_set_other, Hne.
Qed.

Lemma to_numeric_twice (s : series) :
  to_num (NumSeries (to_num s)) = to_num s.
Proof. reflexivity. Qed.

Lemma coerce_fold_numeric (col : string) (cols : list string)
      (df df' : DataFrame) (s : series) :
  mem col text_cols = false -> mem col percent_cols = false ->
  get_col df col = Ok s ->
  fold_left co_step cols (Ok df) = Ok df' ->
  get_col df' col
  = Ok (if mem col cols then NumSeries (to_num s) else s).
Proof.
  intros Ht Hp. revert df s.
  induction cols as [|c cols IH]; intros df s Hg Hfold.
  - simpl in Hfold. injection Hfold as <-. exact Hg.
  - cbn [fold_left] in Hfold.
    destruct (co_step (Ok df) c) as [df1|e] eqn:Hstep;
      [|rewrite coerce_fold_raise in Hfold; discriminate].
    unfold mem. cbn [existsb]. fold (mem col cols).
    destruct (String.eqb col c) eqn:E.
    + apply String.eqb_eq in E. subst c. cbn [orb].
      pose proof (coerce_step_numeric _ _ _ _ Ht Hp Hg Hstep) as Hg1.
      rewrite (IH _ _ Hg1 Hfold).
      destruct (mem col cols); reflexivity.
    + apply String.eqb_neq in E. cbn [orb].
      apply (IH df1 s); [|exact Hfold].
      rewrite (coerce_step_other _ _ _ _ E Hstep). exact Hg.
Qed.

Lemma mem_columns (df : DataFrame) (c : string) (s : series) :
  get_col df c = Ok s -> mem c (columns df) = true.
Proof.
  intros H. change (has_col df c = true). rewrite has_col_get, H.
  reflexivity.
Qed.

Lemma coerce_columns_numeric (col : string) (df df' : DataFrame)
      (s : series) :
  mem col text_cols = false -> mem col percent_cols = false ->
  get_col df col = Ok s ->
  co_columns df = Ok df' ->
  get_col df' col = Ok (NumSeries (to_num s)).
Proof.
  intros Ht Hp Hg Hc. unfold coerce_columns in Hc.
  rewrite (coerce_fold_numeric _ _ _ _ _ Ht Hp Hg Hc).
  rewrite (mem_columns _ _ _ Hg). reflexivity.
Qed.

Lemma shorten_names_other (df df' : DataFrame) (c : string) :
  c <> "Player Name" ->
  shorten_names df = Ok df' -> get_col df' c = get_col df c.
Proof.
  intros Hne. unfold shorten_names.
  destruct (get_col df "Player Name") as [[l|l]|e]; try discriminate.
  cbn [bind]. intros H. injection H as <-. apply get_set_other, Hne.
Qed.

Lemma ge_mask_cells (min_plays : Q) (s : series) :
  ge_mask min_plays (to_num s)
  = map (keeps_row numeric_of_string min_plays) (cells s).
Proof.
  destruct s as [l|l]; cbn [to_numeric cells]; unfold ge_mask.
  - rewrite map_map. apply map_ext. intros [v|]; reflexivity.
  - rewrite map_map. reflexivity.
Qed.

End Coercion.

(** ** Dropping rows *)

Lemma select_as_indices {A : Type} (d : A) (mask : list bool) (l : list A) :
  List.length mask = List.length l ->
  select mask l
  = map (fun i => nth i l d)
        (filter (fun i => nth i mask false) (seq 0 (List.length l))).
Proof.
  revert mask. induction l as [|a l IH]; intros [|b mask] H;
    simpl in H; try discriminate; [reflexivity|].
  injection H as H.
  cbn [select List.length seq filter nth].
  rewrite <- seq_shift, filter_map_swap. rewrite (IH mask H).
  destruct b; cbn [map nth]; rewrite map_map; reflexivity.
Qed.

Lemma nth_and_masks (m1 m2 : list bool) (i : nat) :
  nth i (and_masks m1 m2) false = nth i m1 false && nth i m2 false.
Proof.
  revert m2 i. induction m1 as [|a m1 IH]; intros [|b m2] [|i];
    cbn [and_masks nth]; try reflexivity.
  - symmetry. apply andb_false_r.
  - symmetry. apply andb_false_r.
  - apply IH.
Qed.

Lemma nth_notna (s : series) (i : nat) :
  nth i (notna s) false = negb (obj_isna (cell_at s i)).
Proof.
  unfold cell_at. destruct s as [l|l]; cbn [notna cells].
  - transitivity (negb (opt_isna (nth i l None))).
    + exact (map_nth (fun o : option Q => negb (opt_isna o)) l None i).
    + f_equal.
      rewrite (map_nth (fun o : option Q =>
                          match o with Some q => ONum q | None => ONaN end)
                       l None i : nth i (map _ l) ONaN = _).
      destruct (nth i l None); reflexivity.
  - exact (map_nth (fun o => negb (obj_isna o)) l ONaN i).
Qed.

Lemma and_masks_length (m1 m2 : list bool) :
  List.length m1 = List.length m2 ->
  List.length (and_masks m1 m2) = List.length m1.
Proof.
  revert m2. induction m1 as [|a m1 IH]; intros [|b m2] H;
    simpl in *; try discriminate; [reflexivity|].
  f_equal. apply IH. lia.
Qed.

Lemma notna_length (s : series) : List.length (notna s) = series_len s.
Proof. destruct s; simpl; apply length_map. Qed.

Lemma select_series_take (mask : list bool) (s : series) :
  List.length mask = series_len s ->
  select_series mask s
  = take_rows (filter (fun i => nth i mask false) (seq 0 (series_len s))) s.
Proof.
  intros H. destruct s as [l|l]; cbn [select_series take_rows series_len];
    f_equal; apply select_as_indices; exact H.
Qed.

(** [dropna] keeps the rows that are complete in the two columns, in
    order, and carries the cells of every column along. *)
Lemma dropna_rows (df : DataFrame) (x y : string) (sx sy : series) (n : nat) :
  all_len n df ->
  get_col df x = Ok sx -> get_col df y = Ok sy ->
  dropna df x y
  = Ok (map (fun cs => (fst cs,
                        take_rows (filter (row_complete sx sy) (seq 0 n))
                                  (snd cs))) df).
Proof.
  intros Hlen Hx Hy. unfold dropna. rewrite Hx, Hy. cbn [bind].
  f_equal. unfold select_rows. apply map_ext_in. intros [c s] Hin.
  cbn [fst snd]. f_equal.
  unfold all_len in Hlen. rewrite Forall_forall in Hlen.
  pose proof (Hlen _ Hin) as Hs.
  pose proof (Hlen _ (get_col_In _ _ _ Hx)) as Hsx.
  pose proof (Hlen _ (get_col_In _ _ _ Hy)) as Hsy.
  cbn [snd] in Hs, Hsx, Hsy.
  rewrite select_series_take.
  - rewrite Hs. f_equal. apply filter_ext. intros i.
    rewrite nth_and_masks, !nth_notna. reflexivity.
  - rewrite and_masks_length; rewrite !notna_length; congruence.
Qed.

Lemma set_col_all_len (n : nat) (df : DataFrame) (c : string) (s : series) :
  all_len n df -> series_len s = n -> all_len n (set_col df c s).
Proof.
  unfold all_len, set_col. intros H Hs. rewrite Forall_map.
  eapply Forall_impl; [|exact H]. intros [d t] Ht. cbn [fst snd] in *.
  destruct (String.eqb c d); assumption.
Qed.

Lemma percent_step_all_len (n : nat) (df : DataFrame) (col : string) :
  all_len n df -> all_len n (percent_step df col).
Proof.
  intros H. unfold percent_step.
  destruct (has_col df col); [|exact H].
  destruct (get_col df col) as [[l|l]|e] eqn:Hg; try exact H.
  destruct (gt_one (mean l)); [|exact H].
  apply set_col_all_len; [exact H|].
  unfold all_len in H. rewrite Forall_forall in H.
  pose proof (H _ (get_col_In _ _ _ Hg)) as Hl. cbn in Hl |- *.
  unfold div100. rewrite length_map. exact Hl.
Qed.

Lemma percent_normalize_all_len (n : nat) (df : DataFrame) (x y : string) :
  all_len n df -> all_len n (percent_normalize df x y).
Proof.
  intros H. rewrite percent_normalize_steps.
  auto using percent_step_all_len.
Qed.

(** ** When the quarterback pipeline returns a chart *)

Lemma qb_plot_ok str_of_float float_of_string numeric_of_string logos
      (df : DataFrame) (x_axis y_axis : string) (min_plays : Q)
      (title : option string) (df_plot : DataFrame) (sx sy names : series)
      (xs ys : list (option Q)) (rows : list (list draw_op)) :
  qb_filtered str_of_float float_of_string numeric_of_string df min_plays
    = Ok df_plot ->
  get_col df_plot x_axis = Ok sx -> as_floats sx = Ok xs ->
  get_col df_plot y_axis = Ok sy -> as_floats sy = Ok ys ->
  get_col df_plot "Player Name" = Ok names ->
  mapM (qb_row str_of_float logos (cells names) xs ys)
       (seq 0 (nrows df_plot)) = Ok rows ->
  2 <= List.length (present xs) -> 2 <= List.length (present ys) ->
  exists fig,
    create_qb_plot str_of_float float_of_string numeric_of_string logos
      df x_axis y_axis min_plays title = Ok fig /\
    fig_ops fig = List.concat rows /\
    fig_vline fig = mean xs /\ fig_hline fig = mean ys.
Proof.
  intros Hf Gx Fx Gy Fy Gn Hrows Hnx Hny.
  unfold create_qb_plot. unfold qb_filtered in Hf.
  destruct (shorten_names df) as [df1|e]; [|discriminate].
  cbn [bind] in Hf |- *.
  destruct (coerce_columns str_of_float float_of_string numeric_of_string df1)
    as [df2|e]; [|discriminate].
  cbn [bind] in Hf |- *. rewrite Hf. cbn [bind].
  rewrite Gx. cbn [bind]. rewrite Fx. cbn [bind].
  rewrite Gy. cbn [bind]. rewrite Fy. cbn [bind].
  rewrite Gn. cbn [bind]. rewrite Hrows. cbn [bind].
  destruct (limits_some (4 / 10) xs Hnx) as [xlim Hx].
  destruct (limits_some (4 / 10) ys Hny) as [ylim Hy].
  unfold qb_limits, qb_margin. rewrite Hx, Hy. cbn [fst snd set_lim bind].
  eexists. split; [reflexivity|]. cbn. auto.
Qed.

(** ** Missing values *)

Lemma percent_cell_empty (float_of_string : string -> option (option Q)) :
  percent_cell float_of_string "" = Ok None /\
  percent_cell float_of_string "%" = Ok None.
Proof. split; reflexivity. Qed.

Lemma reductions_skip_missing (l l' : list (option Q)) :
  present l = present l' ->
  mean l = mean l' /\ std l = std l' /\ min l = min l' /\ max l = max l'.
Proof.
  intros H. unfold mean, std, min, max. rewrite H. auto.
Qed.

Lemma coerce_step_total str_of_float float_of_string numeric_of_string
      (df : DataFrame) (col : string) (s : series) :
  mem col text_cols = false -> mem col percent_cols = false ->
  get_col df col = Ok s ->
  coerce_step str_of_float float_of_string numeric_of_string (Ok df) col
  = Ok (set_col df col (NumSeries (to_numeric numeric_of_string s))).
Proof.
  intros Ht Hp Hg. unfold coerce_step. cbn [bind].
  rewrite Ht, Hg. cbn [bind]. rewrite Hp. reflexivity.
Qed.

Lemma team_filtered_rows (df : DataFrame) (x_col y_col : string)
      (secondary : option DataFrame) (join_key : option string)
      (joined : DataFrame) (n : nat) (sx sy : series) :
  join_sources df secondary join_key = Ok joined ->
  all_len n joined ->
  get_col (percent_normalize joined x_col y_col) x_col = Ok sx ->
  get_col (percent_normalize joined x_col y_col) y_col = Ok sy ->
  team_filtered df x_col y_col secondary join_key
  = Ok (map (fun cs =>
               (fst cs,
                take_rows (filter (row_complete sx sy) (seq 0 n)) (snd cs)))
            (percent_normalize joined x_col y_col)).
Proof.
  intros Hj Hlen Hx Hy. unfold team_filtered. rewrite Hj. cbn [bind].
  apply dropna_rows; auto using percent_normalize_all_len.
Qed.

(** ** Logos *)

Lemma plot_row_fallback str_of_float logos plot_df xs ys label_col i :
  logos (team_logo_path str_of_float plot_df label_col i) <> Readable ->
  plot_row str_of_float logos plot_df xs ys label_col i
  = [Scatter (nth i xs None) (nth i ys None);
     Annotate (clean_label (team_label str_of_float plot_df label_col i))
              (nth i xs None) (nth i ys None)].
Proof.
  intros H. unfold plot_row, getImage. cbv zeta.
  fold (team_label str_of_float plot_df label_col i).
  fold (team_logo_path str_of_float plot_df label_col i).
  destruct (logos (team_logo_path str_of_float plot_df label_col i));
    [reflexivity|reflexivity|congruence].
Qed.

Lemma plot_row_logo str_of_float logos plot_df xs ys label_col i :
  logos (team_logo_path str_of_float plot_df label_col i) = Readable ->
  plot_row str_of_float logos plot_df xs ys label_col i
  = [AddArtist (team_logo_path str_of_float plot_df label_col i)
               (nth i xs None) (nth i ys None);
     Annotate (clean_label (team_label str_of_float plot_df label_col i))
              (nth i xs None) (nth i ys None)].
Proof.
  intros H. unfold plot_row, getImage. cbv zeta.
  fold (team_label str_of_float plot_df label_col i).
  fold (team_logo_path str_of_float plot_df label_col i).
  rewrite H. reflexivity.
Qed.

Lemma team_plot_ignores_logos str_of_float logos logos' df x_col y_col
      secondary join_key title label_col x_label y_label invert_x invert_y :
  is_ok (create_nfl_scatter_plot str_of_float logos df x_col y_col secondary
           join_key title label_col x_label y_label invert_x invert_y)
  = is_ok (create_nfl_scatter_plot str_of_float logos' df x_col y_col
             secondary join_key title label_col x_label y_label
             invert_x invert_y).
Proof.
  unfold create_nfl_scatter_plot.
  destruct (match secondary with Some _ => _ | None => _ end)
    as [joined|e]; [|reflexivity]. cbn [bind].
  destruct (dropna _ _ _) as [plot_df|e]; [|reflexivity]. cbn [bind].
  destruct (get_col plot_df x_col) as [sx|e]; [|reflexivity]. cbn [bind].
  destruct (as_floats sx) as [xs|e]; [|reflexivity]. cbn [bind].
  destruct (get_col plot_df y_col) as [sy|e]; [|reflexivity]. cbn [bind].
  destruct (as_floats sy) as [ys|e]; [|reflexivity]. cbn [bind].
  destruct (set_lim (fst (team_limits xs)) _) as [xlim|e]; [|reflexivity].
  cbn [bind].
  destruct (set_lim (fst (team_limits ys)) _) as [ylim|e]; reflexivity.
Qed.

Lemma qb_row_absent str_of_float logos names xs ys i :
  logos (qb_logo_path str_of_float (nth i names ONaN)) = Absent ->
  qb_row str_of_float logos names xs ys i
  = res_map (fun label => [Annotate label (nth i xs None) (nth i ys None)])
            (qb_label (nth i names ONaN)).
Proof.
  intros H. unfold qb_row, getImage_qb. cbv zeta.
  fold (qb_logo_path str_of_float (nth i names ONaN)). rewrite H.
  cbn [bind]. destruct (qb_label (nth i names ONaN)); reflexivity.
Qed.

Lemma qb_row_own_logo str_of_float logos logos' names xs ys i :
  logos (qb_logo_path str_of_float (nth i names ONaN))
  = logos' (qb_logo_path str_of_float (nth i names ONaN)) ->
  qb_row str_of_float logos names xs ys i
  = qb_row str_of_float logos' names xs ys i.
Proof.
  intros H. unfold qb_row, getImage_qb. cbv zeta.
  fold (qb_logo_path str_of_float (nth i names ONaN)). rewrite H.
  reflexivity.
Qed.

(** C9, as the code has it.  Team pipeline: a Record whose logo is
    absent or unreadable is drawn as a plain point with its label, a
    Record with a readable logo as that logo with its label, and no logo
    can make the call fail.  Quarterback pipeline: a Record whose logo is
    absent gets its label and no marker at all, and what is drawn for a
    Record depends on no other Record's logo. *)
Theorem missing_logo_degrades :
  (forall str_of_float logos plot_df xs ys label_col i,
     logos (team_logo_path str_of_float plot_df label_col i) <> Readable ->
     plot_row str_of_float logos plot_df xs ys label_col i
     = [Scatter (nth i xs None) (nth i ys None);
        Annotate (clean_label (team_label str_of_float plot_df label_col i))
                 (nth i xs None) (nth i ys None)]) /\
  (forall str_of_float logos plot_df xs ys label_col i,
     logos (team_logo_path str_of_float plot_df label_col i) = Readable ->
     plot_row str_of_float logos plot_df xs ys label_col i
     = [AddArtist (team_logo_path str_of_float plot_df label_col i)
                  (nth i xs None) (nth i ys None);
        Annotate (clean_label (team_label str_of_float plot_df label_col i))
                 (nth i xs None) (nth i ys None)]) /\
  (forall str_of_float logos logos' df x_col y_col secondary join_key title
          label_col x_label y_label invert_x invert_y,
     is_ok (create_nfl_scatter_plot str_of_float logos df x_col y_col
              secondary join_key title label_col x_label y_label
              invert_x invert_y)
     = is_ok (create_nfl_scatter_plot str_of_float logos' df x_col y_col
                secondary join_key title label_col x_label y_label
                invert_x invert_y)) /\
  (forall str_of_float logos names xs ys i,
     logos (qb_logo_path str_of_float (nth i names ONaN)) = Absent ->
     qb_row str_of_float logos names xs ys i
     = res_map (fun label => [Annotate label (nth i xs None) (nth i ys None)])
               (qb_label (nth i names ONaN))) /\
  (forall str_of_float logos logos' names xs ys i,
     logos (qb_logo_path str_of_float (nth i names ONaN))
     = logos' (qb_logo_path str_of_float (nth i names ONaN)) ->
     qb_row str_of_float logos names xs ys i
     = qb_row str_of_float logos' names xs ys i).
Proof.
  split; [exact plot_row_fallback|].
  split; [exact plot_row_logo|].
  split; [exact team_plot_ignores_logos|].
  split; [exact qb_row_absent|exact qb_row_own_logo].
Qed.

Lemma missing_logo_degrades_witness :
  plot_row Decimal.write damaged_dallas_logo scenario_c
    [Some (10 # 100)%Q] [Some (90 # 100)%Q] "Tm" 0
  = [Scatter (Some (10 # 100)%Q) (Some (90 # 100)%Q);
     Annotate "Cowboys" (Some (10 # 100)%Q) (Some (90 # 100)%Q)].
Proof.
  apply (proj1 missing_logo_degrades Decimal.write damaged_dallas_logo
           scenario_c [Some (10 # 100)%Q] [Some (90 # 100)%Q] "Tm" 0).
  vm_compute. discriminate.
Defined.

(** C9 as stated fails in the quarterback pipeline: with no logo on disk
    the chart of [qb_frame] is returned, and it holds the three labels
    and not a single marker. *)
Lemma qb_chart_has_no_fallback_marker :
  exists fig,
    create_qb_plot Decimal.write Decimal.float_of Decimal.read
      Decimal.no_logos qb_frame "EPA" "Plays" (100 # 1)%Q None = Ok fig /\
    List.length (fig_ops fig) = 3 /\
    filter is_marker (fig_ops fig) = [] /\
    ~ In (Scatter (Some (75 # 100)%Q) (Some (100 # 1)%Q)) (fig_ops fig).
Proof.
  destruct (qb_plot_ok Decimal.write Decimal.float_of Decimal.read
              Decimal.no_logos qb_frame "EPA" "Plays" (100 # 1)%Q None
              _ _ _ _ _ _ _
              ltac:(vm_compute; reflexivity) eq_refl eq_refl eq_refl eq_refl
              eq_refl ltac:(vm_compute; reflexivity))
    as (fig & Hrun & Hops & _); [simpl; lia|simpl; lia|].
  exists fig. split; [exact Hrun|]. rewrite Hops.
  split; [reflexivity|]. split; [reflexivity|].
  cbn. intros [H|[H|[H|[]]]]; discriminate.
Qed.

(** * Further properties of the two files *)

(** ** The column names of the quarterback file *)

Lemma lstrip_head (s : string) :
  lstrip s = EmptyString \/
  exists c t, lstrip s = String c t /\ isspace c = false.
Proof.
  induction s as [|c s IH]; [left; reflexivity|].
  cbn [lstrip]. destruct (isspace c) eqn:E; [exact IH|].
  right. exists c, s. auto.
Qed.

Lemma rstrip_rstrip (s : string) : rstrip (rstrip s) = rstrip s.
Proof.
  induction s as [|c s IH]; [reflexivity|].
  cbn [rstrip]. cbv zeta.
  destruct (isspace c && String.eqb (rstrip s) "") eqn:E; [reflexivity|].
  cbn [rstrip]. cbv zeta. rewrite IH, E. reflexivity.
Qed.

Lemma rstrip_keeps_head (c : ascii) (t : string) :
  isspace c = false -> rstrip (String c t) = String c (rstrip t).
Proof. intros H. cbn [rstrip]. cbv zeta. rewrite H. reflexivity. Qed.

Lemma lstrip_strip (s : string) : lstrip (strip s) = strip s.
Proof.
  unfold strip. destruct (lstrip_head s) as [->|(c & t & -> & Hc)];
    [reflexivity|].
  rewrite (rstrip_keeps_head _ _ Hc). cbn [lstrip]. rewrite Hc. reflexivity.
Qed.

Lemma strip_strip (s : string) : strip (strip s) = strip s.
Proof.
  unfold strip at 1. rewrite lstrip_strip. unfold strip.
  apply rstrip_rstrip.
Qed.

Lemma rstrip_strip (s : string) : rstrip (strip s) = strip s.
Proof. unfold strip. apply rstrip_rstrip. Qed.

Lemma rstrip_all_space (s : string) :
  string_forallb isspace s = true -> rstrip s = EmptyString.
Proof.
  induction s as [|c s IH]; [reflexivity|].
  cbn [string_forallb rstrip]. cbv zeta. intros H.
  apply andb_true_iff in H as [Hc Hs]. rewrite (IH Hs), Hc. reflexivity.
Qed.

Lemma lstrip_all_space (s : string) :
  string_forallb isspace s = true -> lstrip s = EmptyString.
Proof.
  induction s as [|c s IH]; [reflexivity|].
  cbn [string_forallb lstrip]. intros H.
  apply andb_true_iff in H as [Hc Hs]. rewrite Hc. exact (IH Hs).
Qed.

(** X1.  Every column name read from the column file is non-empty and
    has no whitespace at either end; a blank line, a line of whitespace
    and a line that starts with [[source] give no column; and a list of
    names that are already clean and do not start with [[source] is read
    back unchanged. *)
Theorem read_columns_clean :
  (forall lines,
     Forall (fun name => nonempty name = true /\ lstrip name = name /\
                         rstrip name = name)
            (read_columns lines)) /\
  (forall lines, List.length (read_columns lines) <= List.length lines) /\
  (forall line lines,
     string_forallb isspace line = true \/
     String.prefix "[source" line = true ->
     read_columns (line :: lines) = read_columns lines) /\
  (forall names,
     Forall (fun name => nonempty name = true /\ strip name = name /\
                         String.prefix "[source" name = false) names ->
     read_columns names = names).
Proof.
  split; [|split; [|split]].
  - intros lines. unfold read_columns. apply Forall_map, Forall_forall.
    intros line Hin. apply filter_In in Hin as [_ H].
    apply andb_true_iff in H as [H _].
    split; [exact H|]. split; [apply lstrip_strip|apply rstrip_strip].
  - intros lines. unfold read_columns. rewrite length_map.
    apply filter_length_le.
  - intros line lines H. unfold read_columns. cbn [filter].
    destruct H as [H|H].
    + assert (E : strip line = EmptyString)
        by (unfold strip; rewrite (lstrip_all_space _ H); reflexivity).
      rewrite E. reflexivity.
    + rewrite H. cbn [negb]. rewrite andb_false_r. reflexivity.
  - intros names H. unfold read_columns.
    induction H as [|name names (Hne & Hs & Hp) _ IH]; [reflexivity|].
    cbn [filter]. rewrite Hs, Hne, Hp. cbn [negb andb map].
    rewrite Hs, IH. reflexivity.
Qed.

Lemma read_columns_clean_witness :
  read_columns ["Player Name"; "Plays"; "EPA/Play"]
  = ["Player Name"; "Plays"; "EPA/Play"].
Proof.
  apply (proj2 (proj2 (proj2 read_columns_clean))).
  repeat constructor.
Defined.

(** ** The short player name *)

Lemma after_first_cut_no_space (s : string) :
  no_space s = true -> after_first_cut s = None.
Proof.
  induction s as [|c s IH]; [reflexivity|].
  intros H. cbn [no_space string_forallb] in H.
  apply andb_true_iff in H as [_ Hs]. fold (no_space s) in Hs.
  cbn [after_first_cut]. destruct s as [|c2 rest]; [reflexivity|].
  assert (E : Ascii.eqb c2 " " = false).
  { cbn [no_space string_forallb] in Hs.
    apply andb_true_iff in Hs as [Hc _].
    rewrite Ascii.eqb_sym. now apply negb_true_iff in Hc. }
  rewrite E, andb_false_r. exact (IH Hs).
Qed.

Lemma after_first_cut_word (a b : string) (c : ascii) :
  no_space a = true -> c <> " "%char -> c <> newline ->
  after_first_cut (a ++ String c (String " " b)) = Some b.
Proof.
  intros Ha Hc Hn. induction a as [|d a IH].
  - cbn [String.append after_first_cut].
    apply Ascii.eqb_neq in Hn. rewrite Hn, Ascii.eqb_refl. reflexivity.
  - cbn [no_space string_forallb] in Ha.
    apply andb_true_iff in Ha as [_ Ha]. fold (no_space a) in Ha.
    specialize (IH Ha).
    change ((String d a ++ String c (String " " b))%string)
      with (String d (a ++ String c (String " " b))%string).
    cbn [after_first_cut].
    destruct (a ++ String c (String " " b))%string as [|c2 rest] eqn:E.
    + destruct a; discriminate.
    + assert (E2 : Ascii.eqb c2 " " = false).
      { destruct a as [|d' a'].
        - cbn [String.append] in E. injection E as <- _.
          now apply Ascii.eqb_neq.
        - cbn [String.append] in E. injection E as <- _.
          cbn [no_space string_forallb] in Ha.
          apply andb_true_iff in Ha as [Hd _].
          rewrite Ascii.eqb_sym. now apply negb_true_iff in Hd. }
      rewrite E2, andb_false_r. exact IH.
Qed.

(** X2.  Line 19 of [src/graphing.py] removes everything up to and
    including the first space of a player name, whatever stands before
    it: a name without a space is kept, and a name that starts with a run
    of characters free of spaces, ended by a character that is neither a
    space nor a line feed and followed by a space, is cut to what follows
    that space.  So the initial of "P. Mahomes" goes, and so does the
    first name of "Patrick Mahomes".  A cell that is not a string becomes
    NaN. *)
Theorem short_name_drops_first_word :
  (forall s, no_space s = true -> short_name (OStr s) = OStr s) /\
  (forall a c b,
     no_space a = true -> c <> " "%char -> c <> newline ->
     short_name (OStr (a ++ String c (String " " b))) = OStr b) /\
  (forall o, (forall s, o <> OStr s) -> short_name o = ONaN).
Proof.
  split; [|split].
  - intros s H. cbn [short_name]. now rewrite (after_first_cut_no_space s H).
  - intros a c b Ha Hc Hn. cbn [short_name].
    now rewrite (after_first_cut_word a b c Ha Hc Hn).
  - intros [s|q| |] H; try reflexivity. now destruct (H s).
Qed.

Lemma short_name_drops_first_word_witness :
  short_name (OStr "Mahomes") = OStr "Mahomes" /\
  short_name (OStr ("P" ++ String "." (String " " "Mahomes")))
    = OStr "Mahomes" /\
  short_name (OStr ("Patric" ++ String "k" (String " " "Mahomes")))
    = OStr "Mahomes".
Proof.
  split; [|split].
  - apply (proj1 short_name_drops_first_word). reflexivity.
  - apply (proj1 (proj2 short_name_drops_first_word));
      [reflexivity|discriminate|discriminate].
  - apply (proj1 (proj2 short_name_drops_first_word));
      [reflexivity|discriminate|discriminate].
Defined.

(** ** The percentage columns of the quarterback file *)

Lemma rstrip_percent_app (s : string) :
  rstrip_percent (s ++ "%") = rstrip_percent s.
Proof.
  induction s as [|c s IH]; [reflexivity|].
  cbn [String.append rstrip_percent]. cbv zeta. rewrite IH. reflexivity.
Qed.

Lemma rstrip_percent_twice (s : string) :
  rstrip_percent (rstrip_percent s) = rstrip_percent s.
Proof.
  induction s as [|c s IH]; [reflexivity|].
  cbn [rstrip_percent]. cbv zeta.
  destruct (Ascii.eqb c "%" && String.eqb (rstrip_percent s) "") eqn:E;
    [reflexivity|].
  cbn [rstrip_percent]. cbv zeta. rewrite IH, E. reflexivity.
Qed.

Lemma mapM_percent_numbers (str_of_float : Q -> string)
      (float_of_string : string -> option (option Q)) (l : list (option Q)) :
  float_of_string "nan" = Some None ->
  Forall (fun o => forall q, o = Some q ->
            rstrip_percent (str_of_float q) <> "" /\
            float_of_string (rstrip_percent (str_of_float q)) = Some (Some q))
         l ->
  mapM (percent_cell float_of_string) (map (str_num str_of_float) l)
  = Ok (div100 l).
Proof.
  intros Hnan H. induction H as [|o l Ho _ IH]; [reflexivity|].
  cbn [map mapM]. rewrite IH. unfold div100. cbn [map]. fold (div100 l).
  destruct o as [q|].
  - destruct (Ho q eq_refl) as [Hne Hf]. cbn [str_num]. unfold percent_cell.
    apply String.eqb_neq in Hne. rewrite Hne, Hf. reflexivity.
  - cbn [str_num]. unfold percent_cell.
    change (rstrip_percent "nan") with "nan".
    cbn [String.eqb Ascii.eqb Bool.eqb]. rewrite Hnan. reflexivity.
Qed.

Lemma rstrip_percent_signs (s : string) :
  string_forallb (Ascii.eqb "%") s = true -> rstrip_percent s = EmptyString.
Proof.
  induction s as [|c s IH]; [reflexivity|].
  cbn [string_forallb rstrip_percent]. cbv zeta. intros H.
  apply andb_true_iff in H as [Hc Hs].
  rewrite (IH Hs), Ascii.eqb_sym, Hc. reflexivity.
Qed.

Lemma percent_not_text (col : string) :
  mem col percent_cols = true -> mem col text_cols = false.
Proof.
  unfold mem, percent_cols, text_cols. cbn [existsb]. intros H.
  repeat (apply orb_true_iff in H as [H|H];
          [apply String.eqb_eq in H; subst col; reflexivity|]).
  discriminate.
Qed.

(** X3.  In a percentage column of the quarterback file the percent signs
    at the end of a cell do not count: a cell reads the same with one
    more sign at its end, what is read is the text without any of them, and
    a cell made of percent signs only (or empty) is a missing value. *)
Theorem percent_sign_is_ignored
        (float_of_string : string -> option (option Q)) :
  (forall s,
     percent_cell float_of_string (s ++ "%") = percent_cell float_of_string s) /\
  (forall s,
     percent_cell float_of_string (rstrip_percent s)
     = percent_cell float_of_string s) /\
  (forall s, string_forallb (Ascii.eqb "%") s = true ->
     percent_cell float_of_string s = Ok None).
Proof.
  split; [|split].
  - intros s. unfold percent_cell. now rewrite rstrip_percent_app.
  - intros s. unfold percent_cell. now rewrite rstrip_percent_twice.
  - intros s H. unfold percent_cell. now rewrite (rstrip_percent_signs s H).
Qed.

(** X4.  The quarterback pipeline has no scale test: a percentage column
    that already holds numbers is read back through its text and divided
    by 100 whatever its values are, fractions included, and its missing
    values stay missing.  The hypotheses say that [float] reads [nan] as
    NaN and reads the text of each value of the column as that value. *)
Theorem percent_column_always_divided
        (str_of_float : Q -> string)
        (float_of_string : string -> option (option Q))
        (numeric_of_string : string -> option Q)
        (df : DataFrame) (col : string) (l : list (option Q)) :
  mem col percent_cols = true ->
  get_col df col = Ok (NumSeries l) ->
  float_of_string "nan" = Some None ->
  Forall (fun o => forall q, o = Some q ->
            rstrip_percent (str_of_float q) <> "" /\
            float_of_string (rstrip_percent (str_of_float q)) = Some (Some q))
         l ->
  coerce_step str_of_float float_of_string numeric_of_string (Ok df) col
  = Ok (set_col df col (NumSeries (div100 l))).
Proof.
  intros Hp Hg Hnan Hl. unfold coerce_step. cbn [bind].
  rewrite (percent_not_text col Hp), Hg. cbn [bind]. rewrite Hp.
  cbn [astype_str].
  rewrite (mapM_percent_numbers str_of_float float_of_string l Hnan Hl).
  reflexivity.
Qed.

Lemma percent_column_always_divided_witness :
  coerce_step Decimal.write Decimal.float_of Decimal.read
    (Ok [("Comp %", NumSeries [Some (5 # 10)%Q; None; Some (650 # 10)%Q])])
    "Comp %"
  = Ok (set_col
          [("Comp %", NumSeries [Some (5 # 10)%Q; None; Some (650 # 10)%Q])]
          "Comp %"
          (NumSeries (div100 [Some (5 # 10)%Q; None; Some (650 # 10)%Q]))).
Proof.
  apply percent_column_always_divided.
  - reflexivity.
  - reflexivity.
  - reflexivity.
  - apply Forall_cons; [|apply Forall_cons; [|apply Forall_cons;
                                               [|apply Forall_nil]]];
      intros q E; try discriminate; injection E as <-;
      vm_compute; (split; [discriminate|reflexivity]).
Defined.

(** ** The mean lines *)

Lemma Qcount_cons (v : Q) (vs : list Q) :
  (Qcount (v :: vs) == 1 + Qcount vs)%Q.
Proof.
  unfold Qcount. cbn [List.length]. rewrite Nat2Z.inj_succ.
  unfold Z.succ. rewrite inject_Z_plus. ring.
Qed.

Lemma Qcount_pos (v : Q) (vs : list Q) : (0 < Qcount (v :: vs))%Q.
Proof.
  unfold Qcount. cbn [List.length]. rewrite Nat2Z.inj_succ.
  unfold Qlt. cbn. lia.
Qed.

Lemma Qsum_lower (a : Q) (vs : list Q) :
  (forall v, In v vs -> (a <= v)%Q) -> (a * Qcount vs <= Qsum vs)%Q.
Proof.
  induction vs as [|v vs IH]; intros H.
  - unfold Qcount, Qsum. cbn. unfold Qle. cbn. lia.
  - rewrite Qcount_cons. cbn [Qsum fold_right]. fold (Qsum vs).
    setoid_replace (a * (1 + Qcount vs))%Q with (a + a * Qcount vs)%Q by ring.
    apply Qplus_le_compat.
    + apply H. now left.
    + apply IH. intros w Hw. apply H. now right.
Qed.

Lemma Qsum_upper (b : Q) (vs : list Q) :
  (forall v, In v vs -> (v <= b)%Q) -> (Qsum vs <= b * Qcount vs)%Q.
Proof.
  induction vs as [|v vs IH]; intros H.
  - unfold Qcount, Qsum. cbn. unfold Qle. cbn. lia.
  - rewrite Qcount_cons. cbn [Qsum fold_right]. fold (Qsum vs).
    setoid_replace (b * (1 + Qcount vs))%Q with (b + b * Qcount vs)%Q by ring.
    apply Qplus_le_compat.
    + apply H. now left.
    + apply IH. intros w Hw. apply H. now right.
Qed.

Lemma mean_of_lower (a : Q) (vs : list Q) :
  vs <> [] -> (forall v, In v vs -> (a <= v)%Q) -> (a <= mean_of vs)%Q.
Proof.
  intros Hne Ha. destruct vs as [|v vs]; [now destruct Hne|].
  unfold mean_of.
  apply Qle_shift_div_l; [apply Qcount_pos|]. now apply Qsum_lower.
Qed.

Lemma mean_of_upper (b : Q) (vs : list Q) :
  vs <> [] -> (forall v, In v vs -> (v <= b)%Q) -> (mean_of vs <= b)%Q.
Proof.
  intros Hne Hb. destruct vs as [|v vs]; [now destruct Hne|].
  unfold mean_of.
  apply Qle_shift_div_r; [apply Qcount_pos|]. now apply Qsum_upper.
Qed.

Lemma mean_of_bounds (a b : Q) (vs : list Q) :
  vs <> [] ->
  (forall v, In v vs -> (a <= v)%Q) -> (forall v, In v vs -> (v <= b)%Q) ->
  (a <= mean_of vs <= b)%Q.
Proof.
  intros Hne Ha Hb. split; [now apply mean_of_lower|now apply mean_of_upper].
Qed.

Lemma mean_some (l : list (option Q)) (m : Q) :
  mean l = Some m -> present l <> [] /\ m = mean_of (present l).
Proof.
  unfold mean. destruct (present l) as [|v vs]; [discriminate|].
  intros H. injection H as <-. split; [discriminate|reflexivity].
Qed.

Lemma mean_between (l : list (option Q)) (m mn mx : Q) :
  mean l = Some m -> min l = Some mn -> max l = Some mx ->
  (mn <= m <= mx)%Q.
Proof.
  intros Hm Hmn Hmx. apply mean_some in Hm as [Hne ->].
  apply min_spec in Hmn as [_ Hmn]. apply max_spec in Hmx as [_ Hmx].
  now apply mean_of_bounds.
Qed.

Lemma mean_inside_limits (k : R) (vs : list (option Q)) (lo hi : R) :
  (0 <= k)%R ->
  (minus_margin (min vs) (option_map (fun s => (s * k)%R) (std vs)),
   plus_margin (max vs) (option_map (fun s => (s * k)%R) (std vs)))
  = (Some lo, Some hi) ->
  exists m, mean vs = Some m /\ (lo <= Q2R m <= hi)%R.
Proof.
  intros Hk H.
  destruct (limits_inv k vs lo hi Hk H)
    as (mn & mx & sd & Hmn & Hmx & _ & Hsd & -> & -> & _).
  destruct (mean vs) as [m|] eqn:Hm.
  - exists m. split; [reflexivity|].
    destruct (mean_between vs m mn mx Hm Hmn Hmx) as [H1 H2].
    apply Qle_Rle in H1, H2.
    assert (0 <= sd * k)%R by now apply Rmult_le_pos.
    lra.
  - exfalso. unfold mean in Hm. unfold min in Hmn.
    destruct (present vs); discriminate.
Qed.

(** X5.  The mean of a column lies between its minimum and its maximum,
    so in every chart either pipeline returns both mean lines are drawn
    inside the visible range of their axis (for the team pipeline: the
    range before an inversion exchanges its ends). *)
Theorem mean_lines_are_visible :
  (forall l m mn mx,
     mean l = Some m -> min l = Some mn -> max l = Some mx ->
     (mn <= m <= mx)%Q) /\
  (forall str_of_float logos df x_col y_col secondary join_key title
          label_col x_label y_label invert_x invert_y fig,
     create_nfl_scatter_plot str_of_float logos df x_col y_col secondary
       join_key title label_col x_label y_label invert_x invert_y = Ok fig ->
     exists mx my xlim ylim,
       fig_vline fig = Some mx /\ fig_hline fig = Some my /\
       fig_xlim fig = flip_if invert_x xlim /\
       fig_ylim fig = flip_if invert_y ylim /\
       (fst xlim <= Q2R mx <= snd xlim)%R /\
       (fst ylim <= Q2R my <= snd ylim)%R) /\
  (forall str_of_float float_of_string numeric_of_string logos
          df x_axis y_axis min_plays title fig,
     create_qb_plot str_of_float float_of_string numeric_of_string logos
       df x_axis y_axis min_plays title = Ok fig ->
     exists mx my,
       fig_vline fig = Some mx /\ fig_hline fig = Some my /\
       (fst (fig_xlim fig) <= Q2R mx <= snd (fig_xlim fig))%R /\
       (fst (fig_ylim fig) <= Q2R my <= snd (fig_ylim fig))%R).
Proof.
  assert (K5 : (0 <= 5 / 10)%R) by lra.
  assert (K4 : (0 <= 4 / 10)%R) by lra.
  split; [exact mean_between|]. split.
  - intros str_of_float logos df x_col y_col secondary join_key title
           label_col x_label y_label invert_x invert_y fig H.
    destruct (team_plot_inv _ _ _ _ _ _ _ _ _ _ _ _ _ _ H)
      as (plot_df & sx & sy & xs & ys & xlim & ylim & _ & _ & _ & _ & _ &
          Lx & Ly & _ & Vx & Vy & Fx & Fy).
    destruct (mean_inside_limits _ xs _ _ K5 Lx) as (mx & Hmx & Bx).
    destruct (mean_inside_limits _ ys _ _ K5 Ly) as (my & Hmy & By).
    exists mx, my, xlim, ylim.
    rewrite Vx, Vy, Hmx, Hmy. auto 10.
  - intros str_of_float float_of_string numeric_of_string logos
           df x_axis y_axis min_plays title fig H.
    destruct (qb_plot_inv _ _ _ _ _ _ _ _ _ _ H)
      as (df_plot & sx & sy & xs & ys & names & rows & _ & _ & _ & _ & _ &
          _ & _ & Lx & Ly & _ & Vx & Vy).
    destruct (mean_inside_limits _ xs _ _ K4 Lx) as (mx & Hmx & Bx).
    destruct (mean_inside_limits _ ys _ _ K4 Ly) as (my & Hmy & By).
    exists mx, my. rewrite Vx, Vy, Hmx, Hmy. auto.
Qed.

Lemma mean_lines_are_visible_witness :
  exists m, mean three_values = Some m /\ (0 # 1 <= m <= 2 # 1)%Q.
Proof.
  eexists. split; [reflexivity|].
  apply (proj1 mean_lines_are_visible three_values); reflexivity.
Defined.

(** ** The percentage heuristic and the values of a column *)

Lemma gt_one_false_le (l : list (option Q)) :
  (forall v, In v (present l) -> (v <= 1 # 1)%Q) -> gt_one (mean l) = false.
Proof.
  intros H. destruct (mean l) as [m|] eqn:Hm; [|reflexivity].
  apply mean_some in Hm as [Hne ->]. cbn [gt_one].
  apply negb_false_iff, Qle_bool_iff. now apply mean_of_upper.
Qed.

Lemma Qsum_lower_strict (a v : Q) (vs : list Q) :
  (forall w, In w (v :: vs) -> (a < w)%Q) ->
  (a * Qcount (v :: vs) < Qsum (v :: vs))%Q.
Proof.
  intros H. rewrite Qcount_cons. cbn [Qsum fold_right]. fold (Qsum vs).
  setoid_replace (a * (1 + Qcount vs))%Q with (a + a * Qcount vs)%Q by ring.
  apply Qplus_lt_le_compat.
  - apply H. now left.
  - apply Qsum_lower. intros w Hw. apply Qlt_le_weak, H. now right.
Qed.

Lemma gt_one_true_gt (l : list (option Q)) :
  present l <> [] ->
  (forall v, In v (present l) -> (1 # 1 < v)%Q) -> gt_one (mean l) = true.
Proof.
  intros Hne H. unfold mean.
  destruct (present l) as [|v vs]; [now destruct Hne|].
  cbn [gt_one]. apply negb_true_iff.
  destruct (Qle_bool (mean_of (v :: vs)) (1 # 1)) eqn:E; [|reflexivity].
  exfalso. apply Qle_bool_iff in E. unfold mean_of in E.
  apply (Qlt_not_le _ _ (Qsum_lower_strict (1 # 1) v vs H)).
  apply (Qmult_le_r _ _ _ (Qcount_pos v vs)) in E.
  assert (Q1 : (Qsum (v :: vs)
                == Qsum (v :: vs) / Qcount (v :: vs) * Qcount (v :: vs))%Q).
  { field. intros Z. pose proof (Qcount_pos v vs) as P. rewrite Z in P.
    now apply Qlt_irrefl in P. }
  rewrite Q1. exact E.
Qed.

(** X6.  What the percentage heuristic of the team pipeline does follows
    from the values when they agree: a numeric axis column whose values
    are all at most 1 is never rescaled, and one that has a value and
    whose values are all above 1 is always divided by 100.  Missing values
    play no part. *)
Theorem percent_step_by_values (df : DataFrame) (col : string)
        (l : list (option Q)) :
  get_col df col = Ok (NumSeries l) ->
  ((forall v, In v (present l) -> (v <= 1 # 1)%Q) ->
   percent_step df col = df) /\
  (present l <> [] -> (forall v, In v (present l) -> (1 # 1 < v)%Q) ->
   percent_step df col = set_col df col (NumSeries (div100 l))).
Proof.
  intros Hg. split.
  - intros H. apply (percent_step_le df col l Hg). now apply gt_one_false_le.
  - intros Hne H. apply (percent_step_gt df col l Hg).
    now apply gt_one_true_gt.
Qed.

Lemma percent_step_by_values_witness :
  percent_step [("A", NumSeries [Some (1 # 2)%Q; None; Some (1 # 1)%Q])] "A"
  = [("A", NumSeries [Some (1 # 2)%Q; None; Some (1 # 1)%Q])] /\
  percent_step [("A", NumSeries [Some (45 # 1)%Q; None; Some (2 # 1)%Q])] "A"
  = set_col [("A", NumSeries [Some (45 # 1)%Q; None; Some (2 # 1)%Q])] "A"
      (NumSeries (div100 [Some (45 # 1)%Q; None; Some (2 # 1)%Q])).
Proof.
  split.
  - apply (proj1 (percent_step_by_values
                    [("A", NumSeries [Some (1 # 2)%Q; None; Some (1 # 1)%Q])]
                    "A" [Some (1 # 2)%Q; None; Some (1 # 1)%Q] eq_refl)).
    intros v [<-|[<-|[]]]; discriminate.
  - apply (proj2 (percent_step_by_values
                    [("A", NumSeries [Some (45 # 1)%Q; None; Some (2 # 1)%Q])]
                    "A" [Some (45 # 1)%Q; None; Some (2 # 1)%Q] eq_refl)).
    + discriminate.
    + intros v [<-|[<-|[]]]; reflexivity.
Defined.

(** ** Percent tick labels *)

Lemma team_plot_format_inv str_of_float logos (df : DataFrame)
      (x_col y_col : string)
      (secondary : option DataFrame) (join_key title : option string)
      (label_col : string) (x_label y_label : option string)
      (invert_x invert_y : bool) (fig : figure) :
  create_nfl_scatter_plot str_of_float logos df x_col y_col secondary
    join_key title label_col x_label y_label invert_x invert_y = Ok fig ->
  exists plot_df sx sy xs ys,
    team_filtered df x_col y_col secondary join_key = Ok plot_df /\
    get_col plot_df x_col = Ok sx /\ as_floats sx = Ok xs /\
    get_col plot_df y_col = Ok sy /\ as_floats sy = Ok ys /\
    fig_xpercent fig = le_one (max xs) /\
    fig_ypercent fig = le_one (max ys) /\
    fig_xlabel fig = or_default x_label x_col /\
    fig_ylabel fig = or_default y_label y_col /\
    fig_title fig
    = or_default title (or_default x_label x_col ++ " vs " ++
                        or_default y_label y_col)%string.
Proof.
  unfold create_nfl_scatter_plot, team_filtered.
  fold (join_sources df secondary join_key).
  destruct (join_sources df secondary join_key) as [joined|e]; [|discriminate].
  cbn [bind].
  destruct (dropna (percent_normalize joined x_col y_col) x_col y_col)
    as [plot_df|e]; [|discriminate].
  cbn [bind].
  destruct (get_col plot_df x_col) as [sx|e] eqn:Gx; [|discriminate].
  cbn [bind].
  destruct (as_floats sx) as [xs|e] eqn:Fx; [|discriminate]. cbn [bind].
  destruct (get_col plot_df y_col) as [sy|e] eqn:Gy; [|discriminate].
  cbn [bind].
  destruct (as_floats sy) as [ys|e] eqn:Fy; [|discriminate]. cbn [bind].
  destruct (set_lim (fst (team_limits xs)) (snd (team_limits xs)))
    as [xlim|e]; [|discriminate]. cbn [bind].
  destruct (set_lim (fst (team_limits ys)) (snd (team_limits ys)))
    as [ylim|e]; [|discriminate]. cbn [bind].
  intros H. injection H as <-.
  exists plot_df, sx, sy, xs, ys.
  split; [reflexivity|]. split; [exact Gx|]. split; [exact Fx|].
  split; [exact Gy|]. split; [exact Fy|]. repeat split; reflexivity.
Qed.

Lemma qb_plot_format_inv str_of_float float_of_string numeric_of_string logos
      (df : DataFrame) (x_axis y_axis : string) (min_plays : Q)
      (title : option string) (fig : figure) :
  create_qb_plot str_of_float float_of_string numeric_of_string logos
    df x_axis y_axis min_plays title = Ok fig ->
  fig_xpercent fig = mem x_axis percent_cols /\
  fig_ypercent fig = mem y_axis percent_cols /\
  fig_xlabel fig = x_axis /\ fig_ylabel fig = y_axis /\
  fig_title fig = or_default title (x_axis ++ " vs " ++ y_axis)%string.
Proof.
  unfold create_qb_plot.
  destruct (shorten_names df) as [df1|e]; [|discriminate]. cbn [bind].
  destruct (coerce_columns str_of_float float_of_string numeric_of_string df1)
    as [df2|e]; [|discriminate]. cbn [bind].
  destruct (filter_plays df2 min_plays) as [df_plot|e]; [|discriminate].
  cbn [bind].
  destruct (get_col df_plot x_axis) as [sx|e]; [|discriminate]. cbn [bind].
  destruct (as_floats sx) as [xs|e]; [|discriminate]. cbn [bind].
  destruct (get_col df_plot y_axis) as [sy|e]; [|discriminate]. cbn [bind].
  destruct (as_floats sy) as [ys|e]; [|discriminate]. cbn [bind].
  destruct (get_col df_plot "Player Name") as [names|e]; [|discriminate].
  cbn [bind].
  destruct (mapM _ _) as [rows|e]; [|discriminate]. cbn [bind].
  destruct (set_lim (fst (qb_limits xs)) (snd (qb_limits xs)))
    as [xlim|e]; [|discriminate]. cbn [bind].
  destruct (set_lim (fst (qb_limits ys)) (snd (qb_limits ys)))
    as [ylim|e]; [|discriminate]. cbn [bind].
  intros H. injection H as <-. repeat split; reflexivity.
Qed.

Lemma le_one_max (l : list (option Q)) :
  present l <> [] ->
  (le_one (max l) = true <-> forall v, In v (present l) -> (v <= 1 # 1)%Q).
Proof.
  intros Hne. destruct (max l) as [mx|] eqn:Hmx.
  - destruct (max_spec l mx Hmx) as [Hin Hup]. cbn [le_one].
    rewrite Qle_bool_iff. split.
    + intros H v Hv. apply Qle_trans with mx; [now apply Hup|exact H].
    + intros H. now apply H.
  - unfold max in Hmx. destruct (present l); [now destruct Hne|discriminate].
Qed.

(** X7.  In a chart the team pipeline returns, an axis gets percent tick
    labels exactly when every plotted value of that axis is at most 1;
    the name of the column plays no part.  In a chart the quarterback
    pipeline returns, an axis gets them exactly when its column is one of
    the four percentage columns; the values play no part. *)
Theorem percent_ticks_rule :
  (forall str_of_float logos df x_col y_col secondary join_key title
          label_col x_label y_label invert_x invert_y fig,
     create_nfl_scatter_plot str_of_float logos df x_col y_col secondary
       join_key title label_col x_label y_label invert_x invert_y = Ok fig ->
     exists plot_df sx sy xs ys,
       team_filtered df x_col y_col secondary join_key = Ok plot_df /\
       get_col plot_df x_col = Ok sx /\ as_floats sx = Ok xs /\
       get_col plot_df y_col = Ok sy /\ as_floats sy = Ok ys /\
       (fig_xpercent fig = true <->
        forall v, In v (present xs) -> (v <= 1 # 1)%Q) /\
       (fig_ypercent fig = true <->
        forall v, In v (present ys) -> (v <= 1 # 1)%Q)) /\
  (forall str_of_float float_of_string numeric_of_string logos
          df x_axis y_axis min_plays title fig,
     create_qb_plot str_of_float float_of_string numeric_of_string logos
       df x_axis y_axis min_plays title = Ok fig ->
     (fig_xpercent fig = true <-> In x_axis percent_cols) /\
     (fig_ypercent fig = true <-> In y_axis percent_cols)).
Proof.
  split.
  - intros str_of_float logos df x_col y_col secondary join_key title
           label_col x_label y_label invert_x invert_y fig H.
    destruct (team_plot_inv _ _ _ _ _ _ _ _ _ _ _ _ _ _ H)
      as (plot_df & sx & sy & xs & ys & xlim & ylim & Hf & Gx & Fx & Gy & Fy &
          Lx & Ly & _).
    destruct (team_plot_format_inv _ _ _ _ _ _ _ _ _ _ _ _ _ _ H)
      as (plot_df' & sx' & sy' & xs' & ys' & Hf' & Gx' & Fx' & Gy' & Fy' &
          Px & Py & _).
    rewrite Hf in Hf'. injection Hf' as <-.
    rewrite Gx in Gx'. injection Gx' as <-.
    rewrite Fx in Fx'. injection Fx' as <-.
    rewrite Gy in Gy'. injection Gy' as <-.
    rewrite Fy in Fy'. injection Fy' as <-.
    assert (K5 : (0 <= 5 / 10)%R) by lra.
    assert (Nx : present xs <> []).
    { destruct (limits_inv _ xs _ _ K5 Lx) as (mn & _ & _ & Hmn & _).
      unfold min in Hmn. destruct (present xs); discriminate. }
    assert (Ny : present ys <> []).
    { destruct (limits_inv _ ys _ _ K5 Ly) as (mn & _ & _ & Hmn & _).
      unfold min in Hmn. destruct (present ys); discriminate. }
    exists plot_df, sx, sy, xs, ys.
    rewrite Px, Py. auto 10 using le_one_max.
  - intros str_of_float float_of_string numeric_of_string logos
           df x_axis y_axis min_plays title fig H.
    destruct (qb_plot_format_inv _ _ _ _ _ _ _ _ _ _ H) as (-> & -> & _).
    unfold mem. rewrite !existsb_exists. split; split.
    + intros (c & Hc & E). apply String.eqb_eq in E. now subst.
    + intros Hc. exists x_axis. split; [exact Hc|apply String.eqb_refl].
    + intros (c & Hc & E). apply String.eqb_eq in E. now subst.
    + intros Hc. exists y_axis. split; [exact Hc|apply String.eqb_refl].
Qed.

(** ** Columns that are not there *)

Lemma get_col_missing (df : DataFrame) (c : string) :
  has_col df c = false -> get_col df c = Raise KeyError.
Proof.
  unfold has_col, columns. induction df as [|[c' s] df IH]; [reflexivity|].
  cbn [map existsb fst get_col]. intros H.
  apply orb_false_iff in H as [E H]. rewrite E. exact (IH H).
Qed.

Lemma get_col_present (df : DataFrame) (c : string) :
  has_col df c = true -> exists s, get_col df c = Ok s.
Proof.
  rewrite has_col_get. destruct (get_col df c) as [s|e]; [|discriminate].
  intros _. now exists s.
Qed.

Lemma has_col_normalize (df : DataFrame) (x_col y_col c : string) :
  has_col (percent_normalize df x_col y_col) c = has_col df c.
Proof.
  unfold has_col. rewrite percent_normalize_steps.
  now rewrite !percent_step_columns.
Qed.

Lemma dropna_missing (df : DataFrame) (a b : string) :
  has_col df a = false \/ has_col df b = false ->
  dropna df a b = Raise KeyError.
Proof.
  intros H. unfold dropna.
  destruct (has_col df a) eqn:Ha.
  - destruct H as [H|H]; [discriminate|].
    destruct (get_col_present df a Ha) as [s ->]. cbn [bind].
    now rewrite (get_col_missing df b H).
  - now rewrite (get_col_missing df a Ha).
Qed.

(** X8.  The team pipeline never plots a column that is not there.  When
    an axis column is not in the frame (after the join, if there is one)
    the percentage loop skips it and the call ends in KeyError at
    [dropna]; when the join key is missing from either source the call
    ends in KeyError at the join; and a secondary source given without a
    join key is not used at all. *)
Theorem team_missing_column_raises :
  (forall str_of_float logos df x_col y_col secondary join_key title
          label_col x_label y_label invert_x invert_y joined,
     join_sources df secondary join_key = Ok joined ->
     has_col joined x_col = false \/ has_col joined y_col = false ->
     create_nfl_scatter_plot str_of_float logos df x_col y_col secondary
       join_key title label_col x_label y_label invert_x invert_y
     = Raise KeyError) /\
  (forall df col, has_col df col = false -> percent_step df col = df) /\
  (forall str_of_float logos df x_col y_col df_secondary key title
          label_col x_label y_label invert_x invert_y,
     key <> "" ->
     has_col df key = false \/ has_col df_secondary key = false ->
     create_nfl_scatter_plot str_of_float logos df x_col y_col
       (Some df_secondary) (Some key) title label_col x_label y_label
       invert_x invert_y
     = Raise KeyError) /\
  (forall str_of_float logos df x_col y_col df_secondary join_key title
          label_col x_label y_label invert_x invert_y,
     join_key = None \/ join_key = Some "" ->
     create_nfl_scatter_plot str_of_float logos df x_col y_col
       (Some df_secondary) join_key title label_col x_label y_label
       invert_x invert_y
     = create_nfl_scatter_plot str_of_float logos df x_col y_col
         None join_key title label_col x_label y_label invert_x invert_y).
Proof.
  split; [|split; [|split]].
  - intros str_of_float logos df x_col y_col secondary join_key title
           label_col x_label y_label invert_x invert_y joined Hj Hc.
    unfold create_nfl_scatter_plot.
    fold (join_sources df secondary join_key). rewrite Hj. cbn [bind].
    rewrite dropna_missing; [reflexivity|].
    now rewrite !has_col_normalize.
  - intros df col Hc. unfold percent_step. now rewrite Hc.
  - intros str_of_float logos df x_col y_col df_secondary key title
           label_col x_label y_label invert_x invert_y Hk Hc.
    unfold create_nfl_scatter_plot. cbn [truthy or_default].
    apply String.eqb_neq in Hk. rewrite Hk. cbn [negb].
    unfold merge_left.
    destruct (has_col df key) eqn:Hl.
    + destruct Hc as [Hc|Hc]; [discriminate|].
      destruct (get_col_present df key Hl) as [s ->]. cbn [bind].
      now rewrite (get_col_missing df_secondary key Hc).
    + now rewrite (get_col_missing df key Hl).
  - intros str_of_float logos df x_col y_col df_secondary join_key title
           label_col x_label y_label invert_x invert_y [->| ->]; reflexivity.
Qed.

Lemma team_missing_column_raises_witness :
  create_nfl_scatter_plot Decimal.write Decimal.no_logos scenario_c
    "X" "Z" None None None "Tm" None None false false
  = Raise KeyError /\
  create_nfl_scatter_plot Decimal.write Decimal.no_logos teams_primary
    "W" "PACT%" (Some teams_secondary) (Some "Team") None "Tm" None None
    false false
  = Raise KeyError.
Proof.
  split.
  - apply (proj1 team_missing_column_raises) with (joined := scenario_c).
    + reflexivity.
    + right. reflexivity.
  - apply (proj1 (proj2 (proj2 team_missing_column_raises))).
    + discriminate.
    + left. reflexivity.
Defined.

(** ** One marker and one label for every complete row *)

Lemma get_col_map (f : series -> series) (df : DataFrame) (c : string) :
  get_col (map (fun cs => (fst cs, f (snd cs))) df) c
  = res_map f (get_col df c).
Proof.
  induction df as [|[c' s] df IH]; [reflexivity|].
  cbn [map get_col fst snd]. destruct (String.eqb c c'); [reflexivity|exact IH].
Qed.

Lemma series_len_take_rows (idxs : list nat) (s : series) :
  series_len (take_rows idxs s) = List.length idxs.
Proof. destruct s; cbn [take_rows series_len]; apply length_map. Qed.

Lemma nrows_map_take (idxs : list nat) (df : DataFrame) (c : string)
      (s : series) :
  get_col df c = Ok s ->
  nrows (map (fun cs => (fst cs, take_rows idxs (snd cs))) df)
  = List.length idxs.
Proof.
  destruct df as [|[c' s'] df]; [discriminate|]. intros _.
  cbn [map nrows fst snd]. apply series_len_take_rows.
Qed.

Lemma cell_at_num (l : list (option Q)) (i : nat) :
  cell_at (NumSeries l) i
  = match nth i l None with Some q => ONum q | None => ONaN end.
Proof.
  unfold cell_at. cbn [cells].
  exact (map_nth (fun o : option Q =>
                    match o with Some q => ONum q | None => ONaN end)
                 l None i).
Qed.

Lemma obj_floats_present (l : list obj) (vs : list (option Q)) :
  obj_floats l = Ok vs ->
  Forall (fun o => obj_isna o = false) l ->
  Forall (fun v => opt_isna v = false) vs.
Proof.
  revert vs. induction l as [|o l IH]; intros vs H Hl.
  - injection H as <-. constructor.
  - inversion Hl as [|? ? Ho Hl']; subst.
    destruct o as [t|q| |]; cbn [obj_floats] in H; try discriminate.
    destruct (obj_floats l) as [ws|e]; [|discriminate].
    cbn [bind] in H. injection H as <-.
    constructor; [reflexivity|]. now apply IH.
Qed.

Lemma as_floats_take_present (idxs : list nat) (s : series)
      (vs : list (option Q)) :
  Forall (fun i => obj_isna (cell_at s i) = false) idxs ->
  as_floats (take_rows idxs s) = Ok vs ->
  Forall (fun v => opt_isna v = false) vs.
Proof.
  intros Hi H. destruct s as [l|l]; cbn [take_rows as_floats] in H.
  - injection H as <-. apply Forall_map.
    eapply Forall_impl; [|exact Hi]. intros i Hc. cbv beta in Hc.
    rewrite cell_at_num in Hc. now destruct (nth i l None).
  - apply (obj_floats_present _ _ H). apply Forall_map.
    eapply Forall_impl; [|exact Hi]. intros i Hc. exact Hc.
Qed.

Lemma nth_present (vs : list (option Q)) (i : nat) :
  Forall (fun v => opt_isna v = false) vs -> i < List.length vs ->
  opt_isna (nth i vs None) = false.
Proof.
  intros H Hi. rewrite Forall_forall in H. apply H. now apply nth_In.
Qed.

Lemma plot_row_shape str_of_float logos plot_df xs ys label_col i :
  exists mk text,
    plot_row str_of_float logos plot_df xs ys label_col i
      = [mk; Annotate text (nth i xs None) (nth i ys None)] /\
    is_marker mk = true /\
    op_point mk = (nth i xs None, nth i ys None).
Proof.
  unfold plot_row. cbv zeta.
  destruct (getImage logos _) as [img|]; eexists; eexists;
    (split; [reflexivity|split; reflexivity]).
Qed.

Lemma team_ops_rows str_of_float logos plot_df xs ys label_col
      (idxs : list nat) :
  let ops := flat_map (plot_row str_of_float logos plot_df xs ys label_col)
                      idxs in
  List.length (filter is_marker ops) = List.length idxs /\
  List.length (filter is_label ops) = List.length idxs /\
  (Forall (fun i => opt_isna (nth i xs None) = false /\
                    opt_isna (nth i ys None) = false) idxs ->
   Forall (fun op => has_point op = true) ops).
Proof.
  cbv zeta. induction idxs as [|i idxs (IH1 & IH2 & IH3)].
  - cbn. repeat split. constructor.
  - cbn [flat_map].
    destruct (plot_row_shape str_of_float logos plot_df xs ys label_col i)
      as (mk & text & E & Hmk & Hpt).
    rewrite E, !filter_app, !length_app, IH1, IH2.
    assert (M : filter is_marker
                  [mk; Annotate text (nth i xs None) (nth i ys None)] = [mk])
      by (cbn [filter is_marker]; now rewrite Hmk).
    assert (L : filter is_label
                  [mk; Annotate text (nth i xs None) (nth i ys None)]
                = [Annotate text (nth i xs None) (nth i ys None)])
      by (unfold is_label; cbn [filter is_marker negb]; now rewrite Hmk).
    rewrite M, L. split; [reflexivity|]. split; [reflexivity|].
    intros H. inversion H as [|? ? [Hx Hy] H']; subst.
    apply Forall_app. split; [|now apply IH3].
    constructor; [|constructor; [|constructor]].
    + unfold has_point. rewrite Hpt. cbn [fst snd]. now rewrite Hx, Hy.
    + unfold has_point. cbn [op_point fst snd]. now rewrite Hx, Hy.
Qed.

Lemma team_plot_ok str_of_float logos (df : DataFrame) (x_col y_col : string)
      (secondary : option DataFrame) (join_key title : option string)
      (label_col : string) (x_label y_label : option string)
      (invert_x invert_y : bool)
      (plot_df : DataFrame) (sx sy : series) (xs ys : list (option Q)) :
  team_filtered df x_col y_col secondary join_key = Ok plot_df ->
  get_col plot_df x_col = Ok sx -> as_floats sx = Ok xs ->
  get_col plot_df y_col = Ok sy -> as_floats sy = Ok ys ->
  2 <= List.length (present xs) -> 2 <= List.length (present ys) ->
  exists fig,
    create_nfl_scatter_plot str_of_float logos df x_col y_col secondary
      join_key title label_col x_label y_label invert_x invert_y = Ok fig.
Proof.
  intros Hf Gx Fx Gy Fy Hnx Hny.
  unfold create_nfl_scatter_plot. unfold team_filtered in Hf.
  fold (join_sources df secondary join_key).
  destruct (join_sources df secondary join_key) as [joined|e]; [|discriminate].
  cbn [bind] in Hf |- *. rewrite Hf. cbn [bind].
  rewrite Gx. cbn [bind]. rewrite Fx. cbn [bind].
  rewrite Gy. cbn [bind]. rewrite Fy. cbn [bind].
  destruct (limits_some (5 / 10) xs Hnx) as [xlim Hx].
  destruct (limits_some (5 / 10) ys Hny) as [ylim Hy].
  unfold team_limits, team_margin. rewrite Hx, Hy. cbn [fst snd set_lim bind].
  eexists. reflexivity.
Qed.

(** X9.  A chart of the team pipeline shows each row that has both axis
    values exactly once and shows no other row: it holds one marker (logo
    or plain point) and one text label for every such row of the joined
    frame, and every marker and label sits at a point with two numbers as
    coordinates, never at a NaN. *)
Theorem team_chart_one_marker_per_row
        str_of_float logos (df : DataFrame) (x_col y_col : string)
        (secondary : option DataFrame) (join_key title : option string)
        (label_col : string) (x_label y_label : option string)
        (invert_x invert_y : bool) (fig : figure)
        (joined : DataFrame) (n : nat) :
  create_nfl_scatter_plot str_of_float logos df x_col y_col secondary
    join_key title label_col x_label y_label invert_x invert_y = Ok fig ->
  join_sources df secondary join_key = Ok joined ->
  all_len n joined ->
  exists sx sy,
    get_col (percent_normalize joined x_col y_col) x_col = Ok sx /\
    get_col (percent_normalize joined x_col y_col) y_col = Ok sy /\
    let complete := filter (row_complete sx sy) (seq 0 n) in
    List.length (filter is_marker (fig_ops fig)) = List.length complete /\
    List.length (filter is_label (fig_ops fig)) = List.length complete /\
    Forall (fun op => has_point op = true) (fig_ops fig).
Proof.
  intros H Hj Hlen.
  destruct (team_plot_inv _ _ _ _ _ _ _ _ _ _ _ _ _ _ H)
    as (plot_df & sx' & sy' & xs & ys & xlim & ylim & Hf & Gx & Fx & Gy & Fy &
        _ & _ & Hops & _).
  unfold team_filtered in Hf. rewrite Hj in Hf. cbn [bind] in Hf.
  set (ndf := percent_normalize joined x_col y_col) in *.
  assert (Hn : all_len n ndf) by now apply percent_normalize_all_len.
  destruct (get_col ndf x_col) as [sx|e] eqn:Nx;
    [|unfold dropna in Hf; rewrite Nx in Hf; discriminate].
  destruct (get_col ndf y_col) as [sy|e] eqn:Ny;
    [|unfold dropna in Hf; rewrite Nx, Ny in Hf; discriminate].
  rewrite (dropna_rows ndf x_col y_col sx sy n Hn Nx Ny) in Hf.
  injection Hf as <-.
  set (idxs := filter (row_complete sx sy) (seq 0 n)) in *.
  rewrite get_col_map, Nx in Gx. cbn [res_map] in Gx. injection Gx as <-.
  rewrite get_col_map, Ny in Gy. cbn [res_map] in Gy. injection Gy as <-.
  rewrite (nrows_map_take idxs ndf x_col sx Nx) in Hops.
  assert (Hc : Forall (fun i => obj_isna (cell_at sx i) = false /\
                               obj_isna (cell_at sy i) = false) idxs).
  { apply Forall_forall. intros i Hi. apply filter_In in Hi as [_ Hi].
    unfold row_complete in Hi. apply andb_true_iff in Hi as [H1 H2].
    split; now apply negb_true_iff. }
  assert (Px : Forall (fun v => opt_isna v = false) xs).
  { apply (as_floats_take_present idxs sx xs); [|exact Fx].
    eapply Forall_impl; [|exact Hc]. now intros i [? _]. }
  assert (Py : Forall (fun v => opt_isna v = false) ys).
  { apply (as_floats_take_present idxs sy ys); [|exact Fy].
    eapply Forall_impl; [|exact Hc]. now intros i [_ ?]. }
  assert (Lx : List.length xs = List.length idxs).
  { rewrite (as_floats_length _ _ Fx). apply series_len_take_rows. }
  assert (Ly : List.length ys = List.length idxs).
  { rewrite (as_floats_length _ _ Fy). apply series_len_take_rows. }
  exists sx, sy. split; [reflexivity|]. split; [reflexivity|].
  cbv zeta. rewrite Hops.
  destruct (team_ops_rows str_of_float logos
              (map (fun cs => (fst cs, take_rows idxs (snd cs))) ndf)
              xs ys label_col (seq 0 (List.length idxs))) as (C1 & C2 & C3).
  rewrite length_seq in C1, C2.
  split; [exact C1|]. split; [exact C2|].
  apply C3. apply Forall_forall. intros i Hi. apply in_seq in Hi.
  split; apply nth_present; auto; lia.
Qed.

Lemma team_chart_one_marker_per_row_witness :
  exists fig,
    create_nfl_scatter_plot Decimal.write Decimal.no_logos scenario_c
      "X" "Y" None None None "Tm" None None false false = Ok fig /\
    List.length (filter is_marker (fig_ops fig)) = 2 /\
    List.length (filter is_label (fig_ops fig)) = 2 /\
    Forall (fun op => has_point op = true) (fig_ops fig).
Proof.
  destruct (team_plot_ok Decimal.write Decimal.no_logos scenario_c
              "X" "Y" None None None "Tm" None None false false
              _ _ _ _ _
              ltac:(vm_compute; reflexivity) eq_refl eq_refl eq_refl eq_refl)
    as (fig & Hrun); [simpl; lia|simpl; lia|].
  exists fig. split; [exact Hrun|].
  destruct (team_chart_one_marker_per_row _ _ _ _ _ _ _ _ _ _ _ _ _ _
              scenario_c 3 Hrun eq_refl) as (sx & sy & Gx & Gy & R).
  - repeat constructor.
  - vm_compute in Gx. vm_compute in Gy.
    injection Gx as <-. injection Gy as <-. exact R.
Defined.

(** ** The coercion loop of the quarterback file *)

Lemma mapM_length {A B : Type} (f : A -> result B) (l : list A)
      (bs : list B) :
  mapM f l = Ok bs -> List.length bs = List.length l.
Proof.
  revert bs. induction l as [|a l IH]; intros bs H.
  - injection H as <-. reflexivity.
  - cbn [mapM] in H. destruct (f a) as [b|e]; [|discriminate].
    cbn [bind] in H. destruct (mapM f l) as [bs'|e]; [|discriminate].
    cbn [bind] in H. injection H as <-. cbn [List.length].
    now rewrite (IH bs' eq_refl).
Qed.

Lemma mapM_raise {A B : Type} (f : A -> result B) (l : list A) (a : A)
      (e : exn) :
  In a l -> f a = Raise e -> exists e', mapM f l = Raise e'.
Proof.
  intros Hin Hf. induction l as [|a0 l IH]; [now destruct Hin|].
  cbn [mapM]. destruct (f a0) as [b|e0] eqn:E0; [|now exists e0].
  cbn [bind]. destruct Hin as [->|Hin]; [congruence|].
  destruct (IH Hin) as [e' ->]. now exists e'.
Qed.

Lemma mapM_Forall2 {A B : Type} (f : A -> result B) (l : list A)
      (bs : list B) :
  mapM f l = Ok bs -> Forall2 (fun a b => f a = Ok b) l bs.
Proof.
  revert bs. induction l as [|a l IH]; intros bs H.
  - injection H as <-. constructor.
  - cbn [mapM] in H. destruct (f a) as [b|e] eqn:E; [|discriminate].
    cbn [bind] in H. destruct (mapM f l) as [bs'|e]; [|discriminate].
    cbn [bind] in H. injection H as <-. constructor; [exact E|now apply IH].
Qed.

Section QbShape.

Variable str_of_float : Q -> string.
Variable float_of_string : string -> option (option Q).
Variable numeric_of_string : string -> option Q.

Local Notation "'co_step'" :=
  (coerce_step str_of_float float_of_string numeric_of_string).
Local Notation "'co_columns'" :=
  (coerce_columns str_of_float float_of_string numeric_of_string).

Lemma astype_str_length (s : series) :
  List.length (astype_str str_of_float s) = series_len s.
Proof. destruct s; cbn [astype_str series_len]; apply length_map. Qed.

Lemma to_numeric_length (s : series) :
  List.length (to_numeric numeric_of_string s) = series_len s.
Proof.
  destruct s; cbn [to_numeric series_len]; [reflexivity|apply length_map].
Qed.

Lemma coerce_step_text (df : DataFrame) (col : string) :
  mem col text_cols = true -> co_step (Ok df) col = Ok df.
Proof. intros H. unfold coerce_step. cbn [bind]. now rewrite H. Qed.

Lemma coerce_step_columns (df df' : DataFrame) (col : string) :
  co_step (Ok df) col = Ok df' -> columns df' = columns df.
Proof.
  unfold coerce_step. cbn [bind].
  destruct (mem col text_cols); [intros H; injection H as <-; reflexivity|].
  destruct (get_col df col) as [s|e]; [|discriminate]. cbn [bind].
  destruct (mem col percent_cols).
  - destruct (mapM _ _) as [vs|e]; [|discriminate]. cbn [bind].
    intros H. injection H as <-. apply columns_set_col.
  - intros H. injection H as <-. apply columns_set_col.
Qed.

Lemma coerce_step_same (df df' : DataFrame) (col : string) (s : series) :
  mem col text_cols = false ->
  get_col df col = Ok s ->
  co_step (Ok df) col = Ok df' ->
  exists l, get_col df' col = Ok (NumSeries l) /\
            List.length l = series_len s.
Proof.
  intros Ht Hg. unfold coerce_step. cbn [bind]. rewrite Ht, Hg. cbn [bind].
  destruct (mem col percent_cols).
  - destruct (mapM _ _) as [vs|e] eqn:E; [|discriminate]. cbn [bind].
    intros H. injection H as <-. exists vs.
    split; [eapply get_set_same, Hg|].
    rewrite (mapM_length _ _ _ E). apply astype_str_length.
  - intros H. injection H as <-. exists (to_numeric numeric_of_string s).
    split; [eapply get_set_same, Hg|apply to_numeric_length].
Qed.

Lemma coerce_step_all_len (n : nat) (df df' : DataFrame) (col : string) :
  all_len n df -> co_step (Ok df) col = Ok df' -> all_len n df'.
Proof.
  intros Hn. unfold coerce_step. cbn [bind].
  destruct (mem col text_cols); [intros H; injection H as <-; exact Hn|].
  destruct (get_col df col) as [s|e] eqn:Hg; [|discriminate]. cbn [bind].
  assert (Hs : series_len s = n).
  { unfold all_len in Hn. rewrite Forall_forall in Hn.
    exact (Hn _ (get_col_In _ _ _ Hg)). }
  destruct (mem col percent_cols).
  - destruct (mapM _ _) as [vs|e] eqn:E; [|discriminate]. cbn [bind].
    intros H. injection H as <-. apply set_col_all_len; [exact Hn|].
    cbn [series_len]. rewrite (mapM_length _ _ _ E), astype_str_length.
    exact Hs.
  - intros H. injection H as <-. apply set_col_all_len; [exact Hn|].
    cbn [series_len]. now rewrite to_numeric_length.
Qed.

Lemma mem_cons (c c0 : string) (cols : list string) :
  mem c (c0 :: cols) = String.eqb c c0 || mem c cols.
Proof. reflexivity. Qed.

Lemma coerce_fold_shape (cols : list string) (df df' : DataFrame) :
  fold_left co_step cols (Ok df) = Ok df' ->
  columns df' = columns df /\
  (forall n, all_len n df -> all_len n df') /\
  forall c s, get_col df c = Ok s ->
    exists s', get_col df' c = Ok s' /\ series_len s' = series_len s /\
               (mem c text_cols = true -> s' = s) /\
               (mem c cols = false -> s' = s) /\
               (mem c text_cols = false -> mem c cols = true ->
                is_numeric_dtype s' = true).
Proof.
  revert df. induction cols as [|c0 cols IH]; intros df Hfold.
  - cbn in Hfold. injection Hfold as <-. split; [reflexivity|].
    split; [auto|]. intros c s Hg. exists s. repeat split; auto.
    discriminate.
  - cbn [fold_left] in Hfold.
    destruct (co_step (Ok df) c0) as [df1|e] eqn:Hstep;
      [|rewrite coerce_fold_raise in Hfold; discriminate].
    destruct (IH df1 Hfold) as (Hcols & Hlen & Hget).
    split; [rewrite Hcols; exact (coerce_step_columns _ _ _ Hstep)|].
    split; [intros n Hn;
            exact (Hlen n (coerce_step_all_len n _ _ _ Hn Hstep))|].
    intros c s Hg. rewrite mem_cons.
    destruct (String.eqb c c0) eqn:E.
    + apply String.eqb_eq in E. subst c0. cbn [orb].
      destruct (mem c text_cols) eqn:Ht.
      * rewrite (coerce_step_text df c Ht) in Hstep. injection Hstep as <-.
        destruct (Hget c s Hg) as (s' & G & L & T & _ & _).
        exists s'. split; [exact G|]. split; [exact L|].
        split; [intros _; exact (T Ht)|]. split; discriminate.
      * destruct (coerce_step_same _ _ _ _ Ht Hg Hstep) as (l & G1 & L1).
        destruct (Hget c (NumSeries l) G1) as (s' & G & L & _ & K & N).
        exists s'. split; [exact G|].
        split; [rewrite L; exact L1|].
        split; [discriminate|]. split; [discriminate|].
        intros _ _. destruct (mem c cols) eqn:M; [now apply N|].
        now rewrite (K eq_refl).
    + apply String.eqb_neq in E. cbn [orb].
      apply Hget. rewrite (coerce_step_other _ _ _ _ _ _ _ E Hstep). exact Hg.
Qed.

End QbShape.

(** X10.  When the coercion loop of the quarterback file ends without an
    error, the frame has the same columns in the same order and every
    column has as many rows as before; the columns Player Name, Season
    and Team are untouched, and every other column is numeric. *)
Theorem coerce_columns_shape
        (str_of_float : Q -> string)
        (float_of_string : string -> option (option Q))
        (numeric_of_string : string -> option Q)
        (df df' : DataFrame) :
  coerce_columns str_of_float float_of_string numeric_of_string df = Ok df' ->
  columns df' = columns df /\
  (forall n, all_len n df -> all_len n df') /\
  (forall c s, get_col df c = Ok s ->
     exists s', get_col df' c = Ok s' /\ series_len s' = series_len s /\
                (mem c text_cols = true -> s' = s) /\
                (mem c text_cols = false -> is_numeric_dtype s' = true)).
Proof.
  intros H. unfold coerce_columns in H.
  destruct (coerce_fold_shape _ _ _ _ _ _ H) as (Hcols & Hlen & Hget).
  split; [exact Hcols|]. split; [exact Hlen|].
  intros c s Hg. destruct (Hget c s Hg) as (s' & G & L & T & _ & N).
  exists s'. split; [exact G|]. split; [exact L|]. split; [exact T|].
  intros Ht. apply (N Ht). exact (mem_columns _ _ _ Hg).
Qed.

Lemma coerce_columns_shape_witness :
  exists df',
    coerce_columns Decimal.write Decimal.float_of Decimal.read
      [("Player Name", ObjSeries [OStr "Mahomes"; OStr "Hurts"]);
       ("Plays", ObjSeries [OStr "150"; OStr ""]);
       ("Comp %", ObjSeries [OStr "67.5%"; OStr "64%"])] = Ok df' /\
    columns df' = ["Player Name"; "Plays"; "Comp %"].
Proof.
  destruct (coerce_columns Decimal.write Decimal.float_of Decimal.read
      [("Player Name", ObjSeries [OStr "Mahomes"; OStr "Hurts"]);
       ("Plays", ObjSeries [OStr "150"; OStr ""]);
       ("Comp %", ObjSeries [OStr "67.5%"; OStr "64%"])])
    as [df'|e] eqn:H; [|vm_compute in H; discriminate].
  exists df'. split; [reflexivity|].
  exact (proj1 (coerce_columns_shape _ _ _ _ _ H)).
Defined.

(** ** A percentage cell that is not a number *)

Lemma percent_cell_raises (float_of_string : string -> option (option Q))
      (t : string) (e : exn) :
  percent_cell float_of_string t = Raise e -> e = ValueError.
Proof.
  unfold percent_cell. destruct (String.eqb _ _); [discriminate|].
  destruct (float_of_string _); [discriminate|]. now intros [= <-].
Qed.

Lemma mapM_percent_raises (float_of_string : string -> option (option Q))
      (l : list string) (e : exn) :
  mapM (percent_cell float_of_string) l = Raise e -> e = ValueError.
Proof.
  induction l as [|t l IH]; [discriminate|]. cbn [mapM].
  destruct (percent_cell float_of_string t) as [v|e0] eqn:E; cbn [bind].
  - destruct (mapM _ l) as [vs|e1]; cbn [bind]; [discriminate|].
    intros [= <-]. now apply IH.
  - intros [= <-]. exact (percent_cell_raises _ _ _ E).
Qed.

Lemma mapM_percent_bad (float_of_string : string -> option (option Q))
      (l : list string) (t : string) :
  In t l -> rstrip_percent t <> "" ->
  float_of_string (rstrip_percent t) = None ->
  mapM (percent_cell float_of_string) l = Raise ValueError.
Proof.
  intros Hin Hne Hf.
  assert (Hc : percent_cell float_of_string t = Raise ValueError).
  { unfold percent_cell. apply String.eqb_neq in Hne. now rewrite Hne, Hf. }
  destruct (mapM_raise _ l t _ Hin Hc) as [e He].
  rewrite He. f_equal. exact (mapM_percent_raises _ _ _ He).
Qed.

Lemma has_col_In (df : DataFrame) (c : string) :
  In c (columns df) -> has_col df c = true.
Proof.
  intros H. unfold has_col. apply existsb_exists. exists c.
  split; [exact H|apply String.eqb_refl].
Qed.

Lemma get_col_columns (df : DataFrame) (c : string) (s : series) :
  get_col df c = Ok s -> In c (columns df).
Proof.
  intros H. apply get_col_In in H.
  unfold columns. change c with (fst (c, s)). now apply in_map.
Qed.

Section QbErrors.

Variable str_of_float : Q -> string.
Variable float_of_string : string -> option (option Q).
Variable numeric_of_string : string -> option Q.

Local Notation "'co_step'" :=
  (coerce_step str_of_float float_of_string numeric_of_string).

Lemma coerce_step_raises (df : DataFrame) (col : string) (e : exn) :
  has_col df col = true -> co_step (Ok df) col = Raise e -> e = ValueError.
Proof.
  intros Hc. unfold coerce_step. cbn [bind].
  destruct (mem col text_cols); [discriminate|].
  destruct (get_col_present df col Hc) as [s ->]. cbn [bind].
  destruct (mem col percent_cols); [|discriminate].
  destruct (mapM _ _) as [vs|e0] eqn:E; cbn [bind]; [discriminate|].
  intros [= <-]. exact (mapM_percent_raises _ _ _ E).
Qed.

Lemma coerce_step_bad (df : DataFrame) (col t : string) (s : series) :
  mem col percent_cols = true ->
  get_col df col = Ok s ->
  In t (astype_str str_of_float s) -> rstrip_percent t <> "" ->
  float_of_string (rstrip_percent t) = None ->
  co_step (Ok df) col = Raise ValueError.
Proof.
  intros Hp Hg Hin Hne Hf. unfold coerce_step. cbn [bind].
  rewrite (percent_not_text col Hp), Hg. cbn [bind]. rewrite Hp.
  now rewrite (mapM_percent_bad _ _ t Hin Hne Hf).
Qed.

Lemma coerce_fold_bad (cols : list string) (df : DataFrame)
      (col t : string) (s : series) :
  (forall c, In c cols -> has_col df c = true) ->
  In col cols ->
  mem col percent_cols = true ->
  get_col df col = Ok s ->
  In t (astype_str str_of_float s) -> rstrip_percent t <> "" ->
  float_of_string (rstrip_percent t) = None ->
  fold_left co_step cols (Ok df) = Raise ValueError.
Proof.
  intros Hcols Hin Hp Hg Ht Hne Hf. revert df Hcols Hg.
  induction cols as [|c0 cols IH]; intros df Hcols Hg; [now destruct Hin|].
  cbn [fold_left].
  destruct (co_step (Ok df) c0) as [df1|e] eqn:Hstep.
  - destruct (String.eqb_spec col c0) as [<-|Hc].
    + rewrite (coerce_step_bad df col t s Hp Hg Ht Hne Hf) in Hstep.
      discriminate.
    + destruct Hin as [->|Hin]; [now destruct Hc|].
      apply (IH Hin).
      * intros c Hc'. unfold has_col.
        rewrite (coerce_step_columns _ _ _ _ _ _ Hstep).
        apply Hcols. now right.
      * rewrite (coerce_step_other _ _ _ _ _ _ _ Hc Hstep). exact Hg.
  - rewrite (coerce_step_raises df c0 e (Hcols c0 (or_introl eq_refl)) Hstep).
    apply coerce_fold_raise.
Qed.

End QbErrors.

(** X11.  A cell of one of the four percentage columns that is not
    empty once its percent signs are removed and that [float] does not
    read stops the quarterback pipeline: the call ends in ValueError,
    whatever the axes and the threshold are, also when the column is not
    plotted and the row would have been dropped. *)
Theorem unreadable_percent_raises
        (str_of_float : Q -> string)
        (float_of_string : string -> option (option Q))
        (numeric_of_string : string -> option Q)
        (logos : string -> file_state)
        (df : DataFrame) (x_axis y_axis : string) (min_plays : Q)
        (title : option string)
        (names : list obj) (col t : string) (s : series) :
  get_col df "Player Name" = Ok (ObjSeries names) ->
  mem col percent_cols = true ->
  get_col df col = Ok s ->
  In t (astype_str str_of_float s) ->
  rstrip_percent t <> "" ->
  float_of_string (rstrip_percent t) = None ->
  create_qb_plot str_of_float float_of_string numeric_of_string logos
    df x_axis y_axis min_plays title
  = Raise ValueError.
Proof.
  intros Hn Hp Hg Ht Hne Hf. unfold create_qb_plot, shorten_names.
  rewrite Hn. cbn [bind].
  set (df1 := set_col df "Player Name" (ObjSeries (map short_name names))).
  assert (Hg1 : get_col df1 col = Ok s).
  { unfold df1. rewrite get_set_other; [exact Hg|].
    intros ->. revert Hp. vm_compute. discriminate. }
  unfold coerce_columns.
  rewrite (coerce_fold_bad str_of_float float_of_string numeric_of_string
             (columns df1) df1 col t s); try assumption; try reflexivity.
  - intros c Hc. now apply has_col_In.
  - exact (get_col_columns _ _ _ Hg1).
Qed.

Lemma unreadable_percent_raises_witness :
  create_qb_plot Decimal.write Decimal.float_of Decimal.read Decimal.no_logos
    rates_frame "Plays" "Plays" (200 # 1)%Q None
  = Raise ValueError.
Proof.
  apply (unreadable_percent_raises _ _ _ _ rates_frame _ _ _ _
           [OStr "P. Mahomes"; OStr "J. Hurts"; OStr "J. Love"]
           "Comp %" "n/a"
           (ObjSeries [OStr "67.5%"; OStr "n/a"; OStr "64%"])).
  - reflexivity.
  - reflexivity.
  - reflexivity.
  - right. left. reflexivity.
  - discriminate.
  - reflexivity.
Defined.

(** ** The columns the quarterback pipeline needs *)

Lemma columns_select_rows (mask : list bool) (df : DataFrame) :
  columns (select_rows mask df) = columns df.
Proof.
  unfold columns, select_rows. rewrite map_map. reflexivity.
Qed.

Lemma shorten_names_inv (df df1 : DataFrame) :
  shorten_names df = Ok df1 ->
  exists names,
    get_col df "Player Name" = Ok (ObjSeries names) /\
    df1 = set_col df "Player Name" (ObjSeries (map short_name names)).
Proof.
  unfold shorten_names.
  destruct (get_col df "Player Name") as [[l|l]|e]; try discriminate.
  cbn [bind]. intros [= <-]. now exists l.
Qed.

Lemma qb_filtered_columns str_of_float float_of_string numeric_of_string
      (df df_plot : DataFrame) (min_plays : Q) :
  qb_filtered str_of_float float_of_string numeric_of_string df min_plays
    = Ok df_plot ->
  columns df_plot = columns df /\ has_col df "Plays" = true /\
  exists names, get_col df "Player Name" = Ok (ObjSeries names).
Proof.
  unfold qb_filtered.
  destruct (shorten_names df) as [df1|e] eqn:H1; [|discriminate].
  cbn [bind].
  destruct (coerce_columns _ _ _ df1) as [df2|e] eqn:H2; [|discriminate].
  cbn [bind]. unfold filter_plays.
  destruct (get_col df2 "Plays") as [plays|e] eqn:H3; [|discriminate].
  cbn [bind]. destruct (as_floats plays) as [ps|e]; [|discriminate].
  cbn [bind]. intros [= <-].
  destruct (shorten_names_inv df df1 H1) as (names & Hn & ->).
  unfold coerce_columns in H2.
  destruct (coerce_fold_shape _ _ _ _ _ _ H2) as (Hc & _).
  rewrite columns_set_col in Hc.
  split; [now rewrite columns_select_rows|].
  split; [|now exists names].
  unfold has_col. rewrite <- Hc. apply has_col_In.
  exact (get_col_columns _ _ _ H3).
Qed.

(** X12.  The quarterback pipeline returns a chart only for a frame that
    has a Player Name column of text, a Plays column and the two axis
    columns.  Without a Player Name column the call ends in KeyError at
    line 19, before anything else is read, and with a numeric one in
    AttributeError. *)
Theorem qb_required_columns
        (str_of_float : Q -> string)
        (float_of_string : string -> option (option Q))
        (numeric_of_string : string -> option Q)
        (logos : string -> file_state)
        (df : DataFrame) (x_axis y_axis : string) (min_plays : Q)
        (title : option string) :
  let run := create_qb_plot str_of_float float_of_string numeric_of_string
               logos df x_axis y_axis min_plays title in
  (has_col df "Player Name" = false -> run = Raise KeyError) /\
  (forall l, get_col df "Player Name" = Ok (NumSeries l) ->
     run = Raise AttributeError) /\
  (forall fig, run = Ok fig ->
     (exists names, get_col df "Player Name" = Ok (ObjSeries names)) /\
     has_col df "Plays" = true /\
     has_col df x_axis = true /\ has_col df y_axis = true).
Proof.
  cbv zeta. split; [|split].
  - intros H. unfold create_qb_plot, shorten_names.
    now rewrite (get_col_missing df _ H).
  - intros l H. unfold create_qb_plot, shorten_names. now rewrite H.
  - intros fig H.
    destruct (qb_plot_inv _ _ _ _ _ _ _ _ _ _ H)
      as (df_plot & sx & sy & xs & ys & names & rows & Hf & Gx & _ & Gy & _).
    destruct (qb_filtered_columns _ _ _ _ _ _ Hf) as (Hc & Hp & Hn).
    split; [exact Hn|]. split; [exact Hp|].
    unfold has_col. rewrite <- Hc.
    split; apply has_col_In; eapply get_col_columns; eassumption.
Qed.

Lemma qb_required_columns_witness :
  create_qb_plot Decimal.write Decimal.float_of Decimal.read Decimal.no_logos
    [("Plays", ObjSeries [OStr "150"; OStr "120"]);
     ("EPA", ObjSeries [OStr "0.25"; OStr "0.5"])]
    "Plays" "EPA" (100 # 1)%Q None
  = Raise KeyError.
Proof.
  apply (proj1 (qb_required_columns _ _ _ _ _ _ _ _ _)). reflexivity.
Defined.

(** ** The rows of the quarterback chart *)

Lemma last_item_ok (parts : list string) :
  is_ok (last_item parts) = nonempty_list parts.
Proof.
  unfold last_item, nonempty_list.
  destruct parts as [|t ts]; [reflexivity|].
  destruct (rev (t :: ts)) eqn:E; [|reflexivity].
  apply (f_equal (@List.length string)) in E.
  rewrite length_rev in E. discriminate.
Qed.

Section QbRows.

Variable str_of_float : Q -> string.
Variable logos : string -> file_state.
Variable names : list obj.
Variables xs ys : list (option Q).

Lemma qb_row_inv (i : nat) (ops : list draw_op) :
  qb_row str_of_float logos names xs ys i = Ok ops ->
  logos (qb_logo_path str_of_float (nth i names ONaN)) <> Corrupt /\
  is_ok (qb_label (nth i names ONaN)) = true /\
  filter is_label ops
    = [Annotate (last_word (nth i names ONaN))
                (nth i xs None) (nth i ys None)] /\
  filter is_marker ops
    = if is_readable (logos (qb_logo_path str_of_float (nth i names ONaN)))
      then [AddArtist (qb_logo_path str_of_float (nth i names ONaN))
                      (nth i xs None) (nth i ys None)]
      else [].
Proof.
  unfold qb_row, getImage_qb, last_word. cbv zeta.
  fold (qb_logo_path str_of_float (nth i names ONaN)).
  destruct (logos (qb_logo_path str_of_float (nth i names ONaN)));
    cbn [bind]; try discriminate;
    destruct (qb_label (nth i names ONaN)) as [t|e]; cbn [bind];
    try discriminate; intros [= <-];
    (split; [discriminate|]); (split; [reflexivity|]);
    split; reflexivity.
Qed.

Lemma qb_row_raises (i : nat) :
  logos (qb_logo_path str_of_float (nth i names ONaN)) = Corrupt \/
  is_ok (qb_label (nth i names ONaN)) = false ->
  exists e, qb_row str_of_float logos names xs ys i = Raise e.
Proof.
  intros H.
  destruct (qb_row str_of_float logos names xs ys i) as [ops|e] eqn:E;
    [|now exists e].
  destruct (qb_row_inv i ops E) as (H1 & H2 & _).
  destruct H as [H|H]; [now destruct H1|congruence].
Qed.

Lemma qb_rows_shape (idxs : list nat) (rows : list (list draw_op)) :
  Forall2 (fun i b => qb_row str_of_float logos names xs ys i = Ok b)
          idxs rows ->
  filter is_label (List.concat rows)
    = map (fun i => Annotate (last_word (nth i names ONaN))
                             (nth i xs None) (nth i ys None)) idxs /\
  filter is_marker (List.concat rows)
    = map (fun i => AddArtist (qb_logo_path str_of_float (nth i names ONaN))
                              (nth i xs None) (nth i ys None))
          (filter (fun i => is_readable
                              (logos (qb_logo_path str_of_float
                                        (nth i names ONaN)))) idxs) /\
  Forall (fun i =>
            logos (qb_logo_path str_of_float (nth i names ONaN)) <> Corrupt /\
            is_ok (qb_label (nth i names ONaN)) = true) idxs.
Proof.
  induction 1 as [|i b idxs rows Hrow _ (IH1 & IH2 & IH3)].
  - repeat split. constructor.
  - destruct (qb_row_inv i b Hrow) as (H1 & H2 & H3 & H4).
    cbn [List.concat map filter]. rewrite !filter_app, IH1, IH2, H3, H4.
    split; [reflexivity|]. split.
    + destruct (is_readable _); reflexivity.
    + constructor; auto.
Qed.

End QbRows.

Lemma qb_label_ok (name : obj) : is_ok (qb_label name) = has_word name.
Proof. destruct name; try reflexivity. apply last_item_ok. Qed.

(** X13.  The quarterback pipeline draws all kept rows or nothing.  When
    the logo file of one kept row exists but cannot be read, or the name
    cell of one kept row is not text or holds no word, the call returns
    no chart, whatever the other rows hold. *)
Theorem qb_one_bad_row_aborts
        (str_of_float : Q -> string)
        (float_of_string : string -> option (option Q))
        (numeric_of_string : string -> option Q)
        (logos : string -> file_state)
        (df : DataFrame) (x_axis y_axis : string) (min_plays : Q)
        (title : option string)
        (df_plot : DataFrame) (names : series) (i : nat) :
  qb_filtered str_of_float float_of_string numeric_of_string df min_plays
    = Ok df_plot ->
  get_col df_plot "Player Name" = Ok names ->
  i < nrows df_plot ->
  logos (qb_logo_path str_of_float (cell_at names i)) = Corrupt \/
  has_word (cell_at names i) = false ->
  is_ok (create_qb_plot str_of_float float_of_string numeric_of_string logos
           df x_axis y_axis min_plays title) = false.
Proof.
  intros Hf Gn Hi Hbad. unfold create_qb_plot. unfold qb_filtered in Hf.
  destruct (shorten_names df) as [df1|e]; [|discriminate].
  cbn [bind] in Hf |- *.
  destruct (coerce_columns str_of_float float_of_string numeric_of_string df1)
    as [df2|e]; [|discriminate].
  cbn [bind] in Hf |- *. rewrite Hf. cbn [bind].
  destruct (get_col df_plot x_axis) as [sx|e]; [|reflexivity]. cbn [bind].
  destruct (as_floats sx) as [xs|e]; [|reflexivity]. cbn [bind].
  destruct (get_col df_plot y_axis) as [sy|e]; [|reflexivity]. cbn [bind].
  destruct (as_floats sy) as [ys|e]; [|reflexivity]. cbn [bind].
  rewrite Gn. cbn [bind].
  assert (Hrow : exists e,
             qb_row str_of_float logos (cells names) xs ys i = Raise e).
  { apply qb_row_raises. fold (cell_at names i).
    rewrite qb_label_ok. exact Hbad. }
  destruct Hrow as [e Hrow].
  destruct (mapM_raise (qb_row str_of_float logos (cells names) xs ys)
              (seq 0 (nrows df_plot)) i e) as [e' ->];
    [apply in_seq; lia|exact Hrow|reflexivity].
Qed.

Lemma qb_one_bad_row_aborts_witness :
  is_ok (create_qb_plot Decimal.write Decimal.float_of Decimal.read
           damaged_hurts_logo qb_frame "EPA" "Plays" (100 # 1)%Q None)
  = false.
Proof.
  apply (qb_one_bad_row_aborts Decimal.write Decimal.float_of Decimal.read
           damaged_hurts_logo qb_frame "EPA" "Plays" (100 # 1)%Q None
           _ (ObjSeries [OStr "Mahomes"; OStr "Hurts"; OStr "Love"]) 1
           ltac:(vm_compute; reflexivity)).
  - reflexivity.
  - vm_compute. lia.
  - left. reflexivity.
Defined.

(** X14.  A chart of the quarterback pipeline holds one text label for
    every kept row, in row order, reading the last word of the player's
    name and placed at the row's two axis cells, and one logo for every
    kept row whose logo file is readable, in row order and at the same
    place; it holds no other marker.  Every kept row then has a name with
    a word in it and no unreadable logo file. *)
Theorem qb_chart_rows
        (str_of_float : Q -> string)
        (float_of_string : string -> option (option Q))
        (numeric_of_string : string -> option Q)
        (logos : string -> file_state)
        (df : DataFrame) (x_axis y_axis : string) (min_plays : Q)
        (title : option string) (fig : figure) :
  create_qb_plot str_of_float float_of_string numeric_of_string logos
    df x_axis y_axis min_plays title = Ok fig ->
  exists df_plot sx sy xs ys names,
    qb_filtered str_of_float float_of_string numeric_of_string df min_plays
      = Ok df_plot /\
    get_col df_plot x_axis = Ok sx /\ as_floats sx = Ok xs /\
    get_col df_plot y_axis = Ok sy /\ as_floats sy = Ok ys /\
    get_col df_plot "Player Name" = Ok names /\
    filter is_label (fig_ops fig)
      = map (fun i => Annotate (last_word (cell_at names i))
                               (nth i xs None) (nth i ys None))
            (seq 0 (nrows df_plot)) /\
    filter is_marker (fig_ops fig)
      = map (fun i => AddArtist (qb_logo_path str_of_float (cell_at names i))
                                (nth i xs None) (nth i ys None))
            (filter (fun i => is_readable
                                (logos (qb_logo_path str_of_float
                                          (cell_at names i))))
                    (seq 0 (nrows df_plot))) /\
    forall i, i < nrows df_plot ->
      logos (qb_logo_path str_of_float (cell_at names i)) <> Corrupt /\
      has_word (cell_at names i) = true.
Proof.
  intros H.
  destruct (qb_plot_inv _ _ _ _ _ _ _ _ _ _ H)
    as (df_plot & sx & sy & xs & ys & names & rows & Hf & Gx & Fx & Gy & Fy &
        Gn & Hrows & _ & _ & Hops & _).
  exists df_plot, sx, sy, xs, ys, names.
  split; [exact Hf|]. split; [exact Gx|]. split; [exact Fx|].
  split; [exact Gy|]. split; [exact Fy|]. split; [exact Gn|].
  destruct (qb_rows_shape _ _ _ _ _ _ _ (mapM_Forall2 _ _ _ Hrows))
    as (L & M & B).
  rewrite Hops. split; [exact L|]. split; [exact M|].
  intros i Hi. rewrite Forall_forall in B.
  destruct (B i) as [B1 B2]; [apply in_seq; lia|].
  split; [exact B1|]. rewrite <- qb_label_ok. exact B2.
Qed.

Lemma qb_chart_rows_witness :
  exists fig,
    create_qb_plot Decimal.write Decimal.float_of Decimal.read
      only_hurts_logo qb_frame "EPA" "Plays" (100 # 1)%Q None = Ok fig /\
    filter is_label (fig_ops fig)
    = [Annotate "Mahomes" (Some (25 # 100)%Q) (Some (150 # 1)%Q);
       Annotate "Hurts" (Some (75 # 100)%Q) (Some (100 # 1)%Q);
       Annotate "Love" (Some (5 # 10)%Q) (Some (120 # 1)%Q)] /\
    filter is_marker (fig_ops fig)
    = [AddArtist "data/logos/Hurts.png" (Some (75 # 100)%Q)
                 (Some (100 # 1)%Q)].
Proof.
  destruct (qb_plot_ok Decimal.write Decimal.float_of Decimal.read
              only_hurts_logo qb_frame "EPA" "Plays" (100 # 1)%Q None
              _ _ _ _ _ _ _
              ltac:(vm_compute; reflexivity) eq_refl eq_refl eq_refl eq_refl
              eq_refl ltac:(vm_compute; reflexivity))
    as (fig & Hrun & _); [simpl; lia|simpl; lia|].
  exists fig. split; [exact Hrun|].
  destruct (qb_chart_rows _ _ _ _ _ _ _ _ _ _ Hrun)
    as (df_plot & sx & sy & xs & ys & names & Hf & Gx & Fx & Gy & Fy & Gn &
        L & M & _).
  vm_compute in Hf. injection Hf as <-.
  vm_compute in Gx. injection Gx as <-.
  vm_compute in Fx. injection Fx as <-.
  vm_compute in Gy. injection Gy as <-.
  vm_compute in Fy. injection Fy as <-.
  vm_compute in Gn. injection Gn as <-.
  rewrite L, M. split; reflexivity.
Defined.

(** ** An axis column of text *)

Lemma obj_floats_text (l : list obj) (t : string) :
  In (OStr t) l -> obj_floats l = Raise TypeError.
Proof.
  induction l as [|o l IH]; [intros []|]. intros [->|Hin]; [reflexivity|].
  destruct o as [u|q| |]; cbn [obj_floats]; try reflexivity;
    now rewrite (IH Hin).
Qed.

Lemma cell_at_div100 (l : list (option Q)) (i : nat) :
  obj_isna (cell_at (NumSeries (div100 l)) i)
  = obj_isna (cell_at (NumSeries l) i).
Proof.
  rewrite !cell_at_num. unfold div100.
  rewrite (map_nth (option_map (fun v => (v / (100 # 1))%Q)) l None i
           : nth i (map _ l) None = _).
  now destruct (nth i l None).
Qed.

Lemma percent_step_isna (df : DataFrame) (col c : string) (s : series) :
  get_col df c = Ok s ->
  exists s', get_col (percent_step df col) c = Ok s' /\
             is_numeric_dtype s' = is_numeric_dtype s /\
             forall i, obj_isna (cell_at s' i) = obj_isna (cell_at s i).
Proof.
  intros Hg. destruct (String.eqb_spec c col) as [->|Hne].
  - destruct s as [l|l].
    + destruct (gt_one (mean l)) eqn:E.
      * exists (NumSeries (div100 l)).
        split; [now apply percent_step_scaled|].
        split; [reflexivity|apply cell_at_div100].
      * exists (NumSeries l). split; [|split; reflexivity].
        now rewrite (percent_step_le df col l Hg E).
    + exists (ObjSeries l). split; [|split; reflexivity].
      now rewrite (percent_step_obj df col l Hg).
  - exists s. split; [|split; reflexivity].
    now rewrite (percent_step_other df col c Hne).
Qed.

Lemma percent_normalize_isna (df : DataFrame) (x_col y_col c : string)
      (s : series) :
  get_col df c = Ok s ->
  exists s', get_col (percent_normalize df x_col y_col) c = Ok s' /\
             is_numeric_dtype s' = is_numeric_dtype s /\
             forall i, obj_isna (cell_at s' i) = obj_isna (cell_at s i).
Proof.
  intros Hg. rewrite percent_normalize_steps.
  destruct (percent_step_isna df x_col c s Hg) as (s1 & G1 & D1 & N1).
  destruct (percent_step_isna _ y_col c s1 G1) as (s2 & G2 & D2 & N2).
  exists s2. split; [exact G2|]. split; [congruence|].
  intros i. now rewrite N2, N1.
Qed.

(** X16.  The team pipeline does not read numbers out of text.  When an
    axis column of the joined frame has dtype object and a row that has
    both axis values holds a string in the x column, the percentage loop
    leaves the column alone, the row survives [dropna], and the call ends
    in TypeError at the mean of line 62. *)
Theorem text_axis_raises
        str_of_float logos (df : DataFrame) (x_col y_col : string)
        (secondary : option DataFrame) (join_key title : option string)
        (label_col : string) (x_label y_label : option string)
        (invert_x invert_y : bool)
        (joined : DataFrame) (n : nat) (l : list obj) (sy : series)
        (i : nat) (t : string) :
  join_sources df secondary join_key = Ok joined ->
  all_len n joined ->
  get_col joined x_col = Ok (ObjSeries l) ->
  get_col joined y_col = Ok sy ->
  i < n ->
  nth i l ONaN = OStr t ->
  obj_isna (cell_at sy i) = false ->
  create_nfl_scatter_plot str_of_float logos df x_col y_col secondary
    join_key title label_col x_label y_label invert_x invert_y
  = Raise TypeError.
Proof.
  intros Hj Hlen Gx Gy Hi Hx Hy.
  unfold create_nfl_scatter_plot. fold (join_sources df secondary join_key).
  rewrite Hj. cbn [bind].
  set (ndf := percent_normalize joined x_col y_col).
  assert (Hn : all_len n ndf) by now apply percent_normalize_all_len.
  assert (Nx : get_col ndf x_col = Ok (ObjSeries l)).
  { unfold ndf. rewrite percent_normalize_steps.
    now apply percent_step_obj_kept, percent_step_obj_kept. }
  destruct (percent_normalize_isna joined x_col y_col y_col sy Gy)
    as (sy' & Ny & _ & Na). fold ndf in Ny.
  rewrite (dropna_rows ndf x_col y_col (ObjSeries l) sy' n Hn Nx Ny).
  cbn [bind]. rewrite get_col_map, Nx. cbn [res_map bind take_rows as_floats].
  rewrite (obj_floats_text _ t); [reflexivity|].
  rewrite <- Hx. apply in_map with (f := fun j => nth j l ONaN).
  apply filter_In. split; [apply in_seq; lia|].
  unfold row_complete. rewrite Na, Hy.
  unfold cell_at. cbn [cells]. now rewrite Hx.
Qed.

Lemma text_axis_raises_witness :
  create_nfl_scatter_plot Decimal.write Decimal.no_logos
    [("Tm", ObjSeries [OStr "DAL"; OStr "NYG"; OStr "PHI"]);
     ("Blitz%", ObjSeries [OStr "31.5%"; OStr "24.0%"; OStr "28.1%"]);
     ("Sacks", NumSeries [Some (40 # 1)%Q; Some (35 # 1)%Q; None])]
    "Blitz%" "Sacks" None None None "Tm" None None false false
  = Raise TypeError.
Proof.
  apply (text_axis_raises _ _ _ _ _ _ _ _ _ _ _ _ _
           [("Tm", ObjSeries [OStr "DAL"; OStr "NYG"; OStr "PHI"]);
            ("Blitz%", ObjSeries [OStr "31.5%"; OStr "24.0%"; OStr "28.1%"]);
            ("Sacks", NumSeries [Some (40 # 1)%Q; Some (35 # 1)%Q; None])]
           3 [OStr "31.5%"; OStr "24.0%"; OStr "28.1%"]
           (NumSeries [Some (40 # 1)%Q; Some (35 # 1)%Q; None]) 1 "24.0%").
  - reflexivity.
  - repeat constructor.
  - reflexivity.
  - reflexivity.
  - lia.
  - reflexivity.
  - reflexivity.
Defined.

(** ** A join key that occurs more than once *)

Lemma plan_row_fst (rkeys : list obj) (i : nat) (k : obj) :
  map fst (plan_row rkeys i k) = repeat i (copies rkeys k).
Proof.
  unfold plan_row, copies.
  destruct (matches_from 0 k rkeys) as [|j js]; [reflexivity|].
  rewrite map_map. cbn [fst].
  replace (Nat.max 1 (List.length (j :: js))) with (List.length (j :: js))
    by (cbn [List.length]; lia).
  generalize (j :: js). intros l. induction l as [|a l IH]; [reflexivity|].
  cbn [map List.length repeat]. now rewrite IH.
Qed.

Lemma join_plan_from_fst (b : nat) (lkeys rkeys : list obj) :
  map fst (join_plan_from b lkeys rkeys) = left_rows b lkeys rkeys.
Proof.
  revert b. induction lkeys as [|k ks IH]; intros b; [reflexivity|].
  cbn [join_plan_from left_rows]. now rewrite map_app, plan_row_fst, IH.
Qed.

Lemma take_left_rows (plan : list (nat * option nat)) (s : series) :
  take_left plan s = take_rows (map fst plan) s.
Proof.
  destruct s; cbn [take_left take_rows]; now rewrite map_map.
Qed.

Lemma series_len_take_right (plan : list (nat * option nat)) (s : series) :
  series_len (take_right plan s) = List.length plan.
Proof. destruct s; cbn [take_right series_len]; apply length_map. Qed.

Lemma copies_pos (rkeys : list obj) (k : obj) : 1 <= copies rkeys k.
Proof. unfold copies. lia. Qed.

Lemma left_rows_length (b : nat) (lkeys rkeys : list obj) :
  List.length lkeys <= List.length (left_rows b lkeys rkeys).
Proof.
  revert b. induction lkeys as [|k ks IH]; intros b; [cbn; lia|].
  cbn [left_rows List.length]. rewrite length_app, repeat_length.
  pose proof (copies_pos rkeys k). pose proof (IH (S b)). lia.
Qed.

Lemma left_rows_low (b : nat) (lkeys rkeys : list obj) (i : nat) :
  i < b -> count_occ Nat.eq_dec (left_rows b lkeys rkeys) i = 0.
Proof.
  revert b. induction lkeys as [|k ks IH]; intros b Hi; [reflexivity|].
  cbn [left_rows]. rewrite count_occ_app, (IH (S b)) by lia.
  rewrite count_occ_repeat_neq by lia. reflexivity.
Qed.

Lemma left_rows_range (b : nat) (lkeys rkeys : list obj) (i : nat) :
  In i (left_rows b lkeys rkeys) -> b <= i < b + List.length lkeys.
Proof.
  revert b. induction lkeys as [|k ks IH]; intros b Hin; [now destruct Hin|].
  cbn [left_rows] in Hin. cbn [List.length].
  apply in_app_or in Hin as [Hin|Hin].
  - apply repeat_spec in Hin. lia.
  - apply IH in Hin. lia.
Qed.

Lemma left_rows_count (b : nat) (lkeys rkeys : list obj) (i : nat) :
  i < List.length lkeys ->
  count_occ Nat.eq_dec (left_rows b lkeys rkeys) (b + i)
  = copies rkeys (nth i lkeys ONaN).
Proof.
  revert b i. induction lkeys as [|k ks IH]; intros b i Hi;
    [cbn in Hi; lia|].
  cbn [left_rows]. rewrite count_occ_app. destruct i as [|i].
  - rewrite Nat.add_0_r, count_occ_repeat_eq by reflexivity.
    rewrite left_rows_low by lia. cbn [nth]. lia.
  - rewrite count_occ_repeat_neq by lia.
    replace (b + S i) with (S b + i) by lia.
    cbn [List.length] in Hi. rewrite IH by lia. reflexivity.
Qed.

(** X17.  The left join repeats a primary row for every secondary row
    that has its key.  When the join succeeds, each row of the primary
    source comes out, in order, once for every secondary row with the
    same key and once when there is none; so no primary row is lost, the
    joined frame has at least as many rows as the primary source, and a
    team listed twice in the secondary source is in the joined frame
    twice.  All columns of the joined frame have that number of rows. *)
Theorem left_join_repeats_rows (left right out : DataFrame) (key : string)
        (lk rk : series) :
  merge_left left right key = Ok out ->
  get_col left key = Ok lk ->
  get_col right key = Ok rk ->
  let rows := left_rows 0 (cells lk) (cells rk) in
  (exists secondary_part,
     out = map (fun cs => (fst cs, take_rows rows (snd cs))) left
           ++ secondary_part) /\
  all_len (List.length rows) out /\
  series_len lk <= List.length rows /\
  (forall i, i < series_len lk ->
     count_occ Nat.eq_dec rows i = copies (cells rk) (cell_at lk i)) /\
  (forall i, series_len lk <= i -> count_occ Nat.eq_dec rows i = 0).
Proof.
  intros H Gl Gr. cbv zeta. unfold merge_left in H.
  rewrite Gl, Gr in H. cbn [bind] in H.
  destruct (negb (same_dtype lk rk)); [discriminate|].
  cbv zeta in H.
  destruct (_ || clashes _ _); [discriminate|].
  injection H as <-.
  pose proof (join_plan_from_fst 0 (cells lk) (cells rk)) as Hp.
  fold (join_plan (cells lk) (cells rk)) in Hp.
  set (plan := join_plan (cells lk) (cells rk)) in *.
  assert (Hlen : List.length plan
                 = List.length (left_rows 0 (cells lk) (cells rk))).
  { rewrite <- Hp. now rewrite length_map. }
  split; [|split; [|split; [|split]]].
  - eexists. f_equal. apply map_ext. intros [c s]. cbn [fst snd].
    now rewrite take_left_rows, Hp.
  - unfold all_len. apply Forall_app. split; apply Forall_map, Forall_forall;
      intros [c s] _; cbn [fst snd]; rewrite <- Hlen.
    + rewrite take_left_rows. rewrite series_len_take_rows.
      apply length_map.
    + apply series_len_take_right.
  - rewrite <- cells_length. apply left_rows_length.
  - intros i Hi. rewrite <- cells_length in Hi.
    exact (left_rows_count 0 (cells lk) (cells rk) i Hi).
  - intros i Hi. rewrite <- cells_length in Hi.
    apply (count_occ_not_In Nat.eq_dec). intros Hin.
    apply left_rows_range in Hin. lia.
Qed.

Lemma left_join_repeats_rows_witness :
  exists out,
    merge_left teams_primary teams_twice "Tm" = Ok out /\
    nrows out = 4 /\
    get_col out "Tm"
    = Ok (ObjSeries [OStr "DAL"; OStr "DAL"; OStr "NYG"; OStr "PHI"]) /\
    count_occ Nat.eq_dec
      (left_rows 0 (cells (ObjSeries [OStr "DAL"; OStr "NYG"; OStr "PHI"]))
                 (cells (ObjSeries [OStr "DAL"; OStr "PHI"; OStr "DAL"]))) 0
    = 2.
Proof.
  destruct (merge_left teams_primary teams_twice "Tm") as [out|e] eqn:H;
    [|vm_compute in H; discriminate].
  exists out. split; [reflexivity|].
  destruct (left_join_repeats_rows teams_primary teams_twice out "Tm"
              (ObjSeries [OStr "DAL"; OStr "NYG"; OStr "PHI"])
              (ObjSeries [OStr "DAL"; OStr "PHI"; OStr "DAL"])
              H eq_refl eq_refl) as ([part Hout] & _ & _ & Hc & _).
  split; [|split].
  - vm_compute in H. injection H as <-. reflexivity.
  - vm_compute in H. injection H as <-. reflexivity.
  - rewrite (Hc 0) by (cbn; lia). reflexivity.
Defined.

(** ** Axis labels and title *)

Lemma or_default_cases (o : option string) (d : string) :
  (o = None \/ o = Some ""%string -> or_default o d = d) /\
  (forall s, s <> ""%string -> o = Some s -> or_default o d = s).
Proof.
  split.
  - intros [->| ->]; reflexivity.
  - intros s Hs ->. unfold or_default, truthy.
    apply String.eqb_neq in Hs. now rewrite Hs.
Qed.

(** X18.  In a chart of the team pipeline an axis label that is not
    given, or given as the empty string, is the name of the axis column,
    and a title that is not given or empty is made of the two labels as
    they are shown, custom labels included, joined by " vs ".  In a chart
    of the quarterback pipeline the labels are the axis column names and
    the default title is made of those. *)
Theorem default_labels_and_title :
  (forall str_of_float logos df x_col y_col secondary join_key title
          label_col x_label y_label invert_x invert_y fig,
     create_nfl_scatter_plot str_of_float logos df x_col y_col secondary
       join_key title label_col x_label y_label invert_x invert_y = Ok fig ->
     (x_label = None \/ x_label = Some ""%string -> fig_xlabel fig = x_col) /\
     (forall s, s <> ""%string -> x_label = Some s -> fig_xlabel fig = s) /\
     (y_label = None \/ y_label = Some ""%string -> fig_ylabel fig = y_col) /\
     (forall s, s <> ""%string -> y_label = Some s -> fig_ylabel fig = s) /\
     (title = None \/ title = Some ""%string ->
      fig_title fig
      = (fig_xlabel fig ++ " vs " ++ fig_ylabel fig)%string) /\
     (forall s, s <> ""%string -> title = Some s -> fig_title fig = s)) /\
  (forall str_of_float float_of_string numeric_of_string logos
          df x_axis y_axis min_plays title fig,
     create_qb_plot str_of_float float_of_string numeric_of_string logos
       df x_axis y_axis min_plays title = Ok fig ->
     fig_xlabel fig = x_axis /\ fig_ylabel fig = y_axis /\
     (title = None \/ title = Some ""%string ->
      fig_title fig = (x_axis ++ " vs " ++ y_axis)%string) /\
     (forall s, s <> ""%string -> title = Some s -> fig_title fig = s)).
Proof.
  split.
  - intros str_of_float logos df x_col y_col secondary join_key title
           label_col x_label y_label invert_x invert_y fig H.
    destruct (team_plot_format_inv _ _ _ _ _ _ _ _ _ _ _ _ _ _ H)
      as (plot_df & sx & sy & xs & ys & _ & _ & _ & _ & _ & _ & _ &
          Lx & Ly & Lt).
    rewrite Lt, Lx, Ly.
    split; [apply or_default_cases|]. split; [apply or_default_cases|].
    split; [apply or_default_cases|]. split; [apply or_default_cases|].
    split; apply or_default_cases.
  - intros str_of_float float_of_string numeric_of_string logos
           df x_axis y_axis min_plays title fig H.
    destruct (qb_plot_format_inv _ _ _ _ _ _ _ _ _ _ H)
      as (_ & _ & Lx & Ly & Lt).
    rewrite Lt, Lx, Ly. split; [reflexivity|]. split; [reflexivity|].
    split; apply or_default_cases.
Qed.

(** ** The rows the threshold keeps *)

Lemma select_ge_mask (min_plays : Q) (l : list (option Q)) :
  Forall (fun o => exists v, o = Some v /\ (min_plays <= v)%Q)
         (select (ge_mask min_plays l) l).
Proof.
  induction l as [|o l IH]; [constructor|].
  cbn [ge_mask map select]. fold (ge_mask min_plays l).
  destruct o as [v|]; [|exact IH].
  destruct (Qle_bool min_plays v) eqn:E; [|exact IH].
  constructor; [|exact IH]. exists v. split; [reflexivity|].
  now apply Qle_bool_iff.
Qed.

Lemma ge_mask_weaker (min1 min2 : Q) (l : list (option Q)) (i : nat) :
  (min1 <= min2)%Q ->
  nth i (ge_mask min2 l) false = true -> nth i (ge_mask min1 l) false = true.
Proof.
  intros Hm. revert i. induction l as [|o l IH]; intros i.
  - destruct i; discriminate.
  - destruct i as [|i]; [|apply IH]. cbn [ge_mask map nth].
    destruct o as [v|]; [|discriminate].
    rewrite !Qle_bool_iff. intros H. now apply Qle_trans with min2.
Qed.

(** X19.  In the frame the quarterback pipeline plots, the Plays column
    is numeric and every one of its cells is a number that is at least
    the threshold: no row with fewer plays and no row without a readable
    Plays cell is left.  A row kept at one threshold is kept at every
    lower one. *)
Theorem kept_rows_reach_threshold
        (str_of_float : Q -> string)
        (float_of_string : string -> option (option Q))
        (numeric_of_string : string -> option Q)
        (df df_plot : DataFrame) (min_plays : Q) :
  qb_filtered str_of_float float_of_string numeric_of_string df min_plays
    = Ok df_plot ->
  (exists l,
     get_col df_plot "Plays" = Ok (NumSeries l) /\
     Forall (fun o => exists v, o = Some v /\ (min_plays <= v)%Q) l) /\
  (forall lower l i,
     (lower <= min_plays)%Q ->
     nth i (ge_mask min_plays l) false = true ->
     nth i (ge_mask lower l) false = true).
Proof.
  intros H. split; [|intros lower l i; apply ge_mask_weaker].
  unfold qb_filtered in H.
  destruct (shorten_names df) as [df1|e] eqn:H1; [|discriminate].
  cbn [bind] in H.
  destruct (coerce_columns _ _ _ df1) as [df2|e] eqn:H2; [|discriminate].
  cbn [bind] in H. unfold filter_plays in H.
  destruct (get_col df2 "Plays") as [plays|e] eqn:H3; [|discriminate].
  cbn [bind] in H.
  assert (Hnum : exists l, plays = NumSeries l).
  { unfold coerce_columns in H2.
    destruct (coerce_fold_shape _ _ _ _ _ _ H2) as (Hc & _ & Hg).
    assert (Hin : In "Plays" (columns df1))
      by (rewrite <- Hc; exact (get_col_columns _ _ _ H3)).
    destruct (get_col_present df1 "Plays" (has_col_In _ _ Hin)) as [s Hs].
    rewrite (coerce_fold_numeric _ _ _ "Plays" (columns df1) df1 df2 s
               eq_refl eq_refl Hs H2) in H3.
    rewrite (mem_columns _ _ _ Hs) in H3. injection H3 as <-.
    now eexists. }
  destruct Hnum as [l ->]. cbn [as_floats bind] in H. injection H as <-.
  exists (select (ge_mask min_plays l) l). split; [|apply select_ge_mask].
  unfold select_rows. rewrite get_col_map, H3. reflexivity.
Qed.

Lemma kept_rows_reach_threshold_witness :
  exists l,
    get_col [("Player Name", ObjSeries [OStr "Mahomes"; OStr "Hurts";
                                        OStr "Love"]);
             ("Plays", NumSeries [Some (150 # 1)%Q; Some (100 # 1)%Q;
                                  Some (120 # 1)%Q]);
             ("EPA", NumSeries [Some (25 # 100)%Q; Some (75 # 100)%Q;
                                Some (5 # 10)%Q]);
             ("Sacks", NumSeries [None; Some (6 # 1)%Q; Some (4 # 1)%Q])]
            "Plays" = Ok (NumSeries l) /\
    Forall (fun o => exists v, o = Some v /\ (100 # 1 <= v)%Q) l.
Proof.
  apply (kept_rows_reach_threshold Decimal.write Decimal.float_of Decimal.read
           qb_frame).
  vm_compute. reflexivity.
Defined.

(** ** The label and the full name *)

Lemma after_first_cut_app (s rest : string) :
  after_first_cut s = Some rest ->
  exists pre, s = (pre ++ String " " rest)%string.
Proof.
  revert rest. induction s as [|c s IH]; intros rest H; [discriminate|].
  cbn [after_first_cut] in H. destruct s as [|c2 s2]; [discriminate|].
  destruct (negb (Ascii.eqb c newline) && Ascii.eqb c2 " ") eqn:E.
  - injection H as <-. apply andb_true_iff in E as [_ E].
    apply Ascii.eqb_eq in E. subst c2. now exists (String c "").
  - destruct (IH rest H) as [pre Hpre]. exists (String c pre).
    cbn [String.append]. now rewrite <- Hpre.
Qed.

Lemma split_by_app (p : ascii -> bool) (a b : string) (c : ascii) :
  p c = true ->
  split_by p (a ++ String c b) = (split_by p a ++ split_by p b)%list.
Proof.
  intros Hc. induction a as [|d a IH].
  - cbn [String.append split_by app]. now rewrite Hc.
  - cbn [String.append split_by]. rewrite IH.
    destruct (p d); [reflexivity|].
    destruct (split_by p a) as [|t ts] eqn:E;
      [now destruct (split_by_not_nil p a)|reflexivity].
Qed.

Lemma last_item_app (l1 l2 : list string) :
  l2 <> [] -> last_item (l1 ++ l2) = last_item l2.
Proof.
  intros H. unfold last_item. rewrite rev_app_distr.
  destruct (rev l2) as [|t ts] eqn:E; [|reflexivity].
  apply (f_equal (@List.length string)) in E. rewrite length_rev in E.
  destruct l2; [now destruct H|discriminate].
Qed.

(** X20.  Line 19 cuts the name and line 66 labels the row with the last
    word of what is left; together they label a player with the last
    word of the name as it stands in the data.  Whenever the shortened
    name still has a word, the full name has one too and the two last
    words are the same. *)
Theorem label_is_last_word_of_full_name (name : obj) :
  has_word (short_name name) = true ->
  has_word name = true /\ last_word (short_name name) = last_word name.
Proof.
  destruct name as [s|q| |]; try discriminate.
  cbn [short_name]. destruct (after_first_cut s) as [rest|] eqn:E;
    [|auto].
  destruct (after_first_cut_app s rest E) as [pre ->].
  cbn [has_word]. unfold last_word. cbn [qb_label]. unfold split_whitespace.
  rewrite (split_by_app isspace pre rest " " eq_refl), filter_app.
  intros H.
  assert (Hne : filter nonempty (split_by isspace rest) <> [])
    by (destruct (filter nonempty (split_by isspace rest)); discriminate).
  rewrite (last_item_app _ _ Hne). split; [|reflexivity].
  destruct (filter nonempty (split_by isspace pre)); [exact H|reflexivity].
Qed.

Lemma label_is_last_word_of_full_name_witness :
  has_word (OStr "Patrick Mahomes II") = true /\
  last_word (short_name (OStr "Patrick Mahomes II"))
  = last_word (OStr "Patrick Mahomes II").
Proof.
  apply (label_is_last_word_of_full_name (OStr "Patrick Mahomes II")).
  reflexivity.
Defined.

(** ** When the team pipeline returns a chart *)

Lemma present_all (vs : list (option Q)) :
  Forall (fun v => opt_isna v = false) vs ->
  List.length (present vs) = List.length vs.
Proof.
  induction 1 as [|v vs Hv _ IH]; [reflexivity|].
  destruct v as [q|]; [|discriminate]. cbn [present List.length].
  now rewrite IH.
Qed.

Lemma team_run_numeric (df : DataFrame) (x_col y_col : string)
      (secondary : option DataFrame) (join_key : option string)
      (joined : DataFrame) (n : nat) (lx ly : list (option Q)) :
  join_sources df secondary join_key = Ok joined ->
  all_len n joined ->
  get_col joined x_col = Ok (NumSeries lx) ->
  get_col joined y_col = Ok (NumSeries ly) ->
  exists plot_df xs ys,
    team_filtered df x_col y_col secondary join_key = Ok plot_df /\
    get_col plot_df x_col = Ok (NumSeries xs) /\
    get_col plot_df y_col = Ok (NumSeries ys) /\
    List.length (present xs)
    = List.length (filter (row_complete (NumSeries lx) (NumSeries ly))
                          (seq 0 n)) /\
    List.length (present ys)
    = List.length (filter (row_complete (NumSeries lx) (NumSeries ly))
                          (seq 0 n)).
Proof.
  intros Hj Hlen Gx Gy.
  destruct (percent_normalize_isna joined x_col y_col x_col _ Gx)
    as (sx & Nx & Dx & Ax).
  destruct (percent_normalize_isna joined x_col y_col y_col _ Gy)
    as (sy & Ny & Dy & Ay).
  destruct sx as [lx'|?]; [|discriminate].
  destruct sy as [ly'|?]; [|discriminate].
  pose proof (team_filtered_rows df x_col y_col secondary join_key joined n
                _ _ Hj Hlen Nx Ny) as Hf.
  assert (Hidx : filter (row_complete (NumSeries lx') (NumSeries ly'))
                        (seq 0 n)
                 = filter (row_complete (NumSeries lx) (NumSeries ly))
                          (seq 0 n)).
  { apply filter_ext. intros i. unfold row_complete. now rewrite Ax, Ay. }
  rewrite Hidx in Hf.
  set (idxs := filter (row_complete (NumSeries lx) (NumSeries ly)) (seq 0 n))
    in *.
  assert (Hc : Forall (fun i => obj_isna (cell_at (NumSeries lx') i) = false /\
                               obj_isna (cell_at (NumSeries ly') i) = false)
                      idxs).
  { apply Forall_forall. intros i Hi. apply filter_In in Hi as [_ Hi].
    unfold row_complete in Hi. apply andb_true_iff in Hi as [H1 H2].
    rewrite Ax, Ay. split; now apply negb_true_iff. }
  eexists. exists (map (fun i => nth i lx' None) idxs).
  exists (map (fun i => nth i ly' None) idxs).
  split; [exact Hf|].
  split; [rewrite get_col_map, Nx; reflexivity|].
  split; [rewrite get_col_map, Ny; reflexivity|].
  split.
  - rewrite present_all; [apply length_map|].
    apply (as_floats_take_present idxs (NumSeries lx') _); [|reflexivity].
    eapply Forall_impl; [|exact Hc]. now intros i [? _].
  - rewrite present_all; [apply length_map|].
    apply (as_floats_take_present idxs (NumSeries ly') _); [|reflexivity].
    eapply Forall_impl; [|exact Hc]. now intros i [_ ?].
Qed.

(** X21.  For numeric axis columns, in a joined frame whose labels are
    distinct, the team pipeline returns a chart exactly when at least two
    rows of the joined frame have both axis values: with two or more such
    rows the call returns a chart, with fewer it ends in an exception. *)
Theorem team_chart_iff_two_rows
        str_of_float logos (df : DataFrame) (x_col y_col : string)
        (secondary : option DataFrame) (join_key title : option string)
        (label_col : string) (x_label y_label : option string)
        (invert_x invert_y : bool)
        (joined : DataFrame) (n : nat) (lx ly : list (option Q)) :
  join_sources df secondary join_key = Ok joined ->
  nodupb (columns joined) = true ->
  all_len n joined ->
  get_col joined x_col = Ok (NumSeries lx) ->
  get_col joined y_col = Ok (NumSeries ly) ->
  (is_ok (create_nfl_scatter_plot str_of_float logos df x_col y_col secondary
            join_key title label_col x_label y_label invert_x invert_y)
   = true
   <-> 2 <= List.length (filter (row_complete (NumSeries lx) (NumSeries ly))
                                (seq 0 n))).
Proof.
  intros Hj _ Hlen Gx Gy.
  destruct (team_run_numeric df x_col y_col secondary join_key
              joined n lx ly Hj Hlen Gx Gy)
    as (plot_df & xs & ys & Hf & Px & Py & Lx & Ly).
  split.
  - destruct (create_nfl_scatter_plot _ _ _ _ _ _ _ _ _ _ _ _ _)
      as [fig|e] eqn:H; [intros _|discriminate].
    destruct (team_plot_inv _ _ _ _ _ _ _ _ _ _ _ _ _ _ H)
      as (plot_df' & sx & sy & xs' & ys' & xlim & ylim & Hf' & Gx' & Fx' & _ &
          _ & Tx & _).
    rewrite Hf in Hf'. injection Hf' as <-.
    rewrite Px in Gx'. injection Gx' as <-.
    cbn [as_floats] in Fx'. injection Fx' as <-.
    rewrite <- Lx.
    assert (K5 : (0 <= 5 / 10)%R) by lra.
    destruct (limits_inv _ xs _ _ K5 Tx) as (_ & _ & sd & _ & _ & Hsd & _).
    now apply std_eq in Hsd as [Hsd _].
  - intros H2.
    destruct (team_plot_ok str_of_float logos df x_col y_col secondary
                join_key title label_col x_label y_label invert_x invert_y
                plot_df _ _ xs ys Hf Px eq_refl Py eq_refl) as [fig ->];
      [now rewrite Lx|now rewrite Ly|reflexivity].
Qed.

Lemma team_chart_iff_two_rows_witness :
  is_ok (create_nfl_scatter_plot Decimal.write Decimal.no_logos scenario_c
           "X" "Y" None None None "Tm" None None false false) = true.
Proof.
  apply (team_chart_iff_two_rows Decimal.write Decimal.no_logos scenario_c
           "X" "Y" None None None "Tm" None None false false
           scenario_c 3
           [Some (10 # 1)%Q; Some (20 # 1)%Q; Some (30 # 1)%Q]
           [Some (90 # 1)%Q; None; Some (10 # 1)%Q]).
  - reflexivity.
  - reflexivity.
  - repeat constructor.
  - reflexivity.
  - reflexivity.
  - vm_compute. lia.
Defined.

(** * The quarterback frame after the threshold, and missing values *)

Lemma nth_map_in {A B : Type} (f : A -> B) (l : list A) (i : nat)
      (d : A) (d' : B) :
  i < List.length l -> nth i (map f l) d' = f (nth i l d).
Proof.
  intros Hi. rewrite (nth_indep _ d' (f d)) by (rewrite length_map; exact Hi).
  apply map_nth.
Qed.

Lemma nth_to_numeric (numeric_of_string : string -> option Q) (s : series)
      (i : nat) :
  nth i (to_numeric numeric_of_string s) None
  = numeric_cell numeric_of_string (cell_at s i).
Proof.
  destruct s as [l|l]; cbn [to_numeric].
  - rewrite cell_at_num. now destruct (nth i l None).
  - unfold cell_at. cbn [cells].
    exact (map_nth (numeric_cell numeric_of_string) l ONaN i).
Qed.

Lemma select_rows_take (mask : list bool) (df : DataFrame) (n : nat) :
  all_len n df -> List.length mask = n ->
  select_rows mask df
  = map (fun cs => (fst cs,
                    take_rows (filter (fun i => nth i mask false) (seq 0 n))
                              (snd cs))) df.
Proof.
  intros Hlen Hm. unfold select_rows. apply map_ext_in. intros [c s] Hin.
  cbn [fst snd]. f_equal.
  unfold all_len in Hlen. rewrite Forall_forall in Hlen.
  pose proof (Hlen _ Hin) as Hs. cbn [snd] in Hs.
  rewrite select_series_take by congruence. now rewrite Hs.
Qed.

Section Threshold.

Variable str_of_float : Q -> string.
Variable float_of_string : string -> option (option Q).
Variable numeric_of_string : string -> option Q.

Lemma qb_filtered_mask (df df1 df2 : DataFrame) (plays : series)
      (min_plays : Q) :
  shorten_names df = Ok df1 ->
  coerce_columns str_of_float float_of_string numeric_of_string df1 = Ok df2 ->
  get_col df "Plays" = Ok plays ->
  get_col df2 "Plays" = Ok (NumSeries (to_numeric numeric_of_string plays)) /\
  qb_filtered str_of_float float_of_string numeric_of_string df min_plays
  = Ok (select_rows
          (map (keeps_row numeric_of_string min_plays) (cells plays)) df2).
Proof.
  intros Hs Hc Hg.
  assert (Hg1 : get_col df1 "Plays" = Ok plays).
  { rewrite (shorten_names_other _ _ "Plays" ltac:(discriminate) Hs).
    exact Hg. }
  pose proof (coerce_columns_numeric _ _ _ "Plays" _ _ _
                eq_refl eq_refl Hg1 Hc) as Hg2.
  split; [exact Hg2|].
  unfold qb_filtered. rewrite Hs. cbn [bind]. rewrite Hc. cbn [bind].
  unfold filter_plays. rewrite Hg2.
  cbn [bind as_floats]. rewrite ge_mask_cells. reflexivity.
Qed.

Lemma qb_filtered_rows (df df1 df2 : DataFrame) (plays : series)
      (min_plays : Q) (n : nat) :
  shorten_names df = Ok df1 ->
  coerce_columns str_of_float float_of_string numeric_of_string df1 = Ok df2 ->
  get_col df "Plays" = Ok plays ->
  all_len n df2 ->
  qb_filtered str_of_float float_of_string numeric_of_string df min_plays
  = Ok (map (fun cs =>
               (fst cs,
                take_rows
                  (filter (fun i => keeps_row numeric_of_string min_plays
                                              (cell_at plays i))
                          (seq 0 n))
                  (snd cs))) df2).
Proof.
  intros Hs Hc Hg Hlen.
  destruct (qb_filtered_mask df df1 df2 plays min_plays Hs Hc Hg)
    as [Hg2 ->].
  assert (Hn : List.length (cells plays) = n).
  { unfold all_len in Hlen. rewrite Forall_forall in Hlen.
    pose proof (Hlen _ (get_col_In _ _ _ Hg2)) as H. cbn [snd series_len] in H.
    rewrite to_numeric_length in H. now rewrite cells_length. }
  rewrite (select_rows_take _ df2 n Hlen) by (now rewrite length_map).
  f_equal. apply map_ext. intros [c s]. cbn [fst snd]. f_equal. f_equal.
  apply filter_ext_in. intros i Hi. apply in_seq in Hi.
  unfold cell_at. apply nth_map_in. lia.
Qed.

End Threshold.

(** C10.  Once the earlier stages have run, the frame that is plotted
    holds exactly the rows whose raw [Plays] cell reads as a number that
    is at least the threshold, in order, whatever the other cells of the
    row hold: a row with both axis values and an empty or unreadable
    [Plays] cell is not in it.  A cell that does not read as a number
    never passes, the empty string among them, and the filter itself
    raises nothing. *)
Theorem plays_threshold_keeps_readable_rows
        (str_of_float : Q -> string)
        (float_of_string : string -> option (option Q))
        (numeric_of_string : string -> option Q)
        (df df1 df2 : DataFrame) (plays : series) (min_plays : Q) (n : nat) :
  shorten_names df = Ok df1 ->
  coerce_columns str_of_float float_of_string numeric_of_string df1 = Ok df2 ->
  get_col df "Plays" = Ok plays ->
  all_len n df2 ->
  let kept := filter (fun i => keeps_row numeric_of_string min_plays
                                         (cell_at plays i)) (seq 0 n) in
  qb_filtered str_of_float float_of_string numeric_of_string df min_plays
    = Ok (map (fun cs => (fst cs, take_rows kept (snd cs))) df2) /\
  (forall i, In i kept <->
     i < n /\ exists v, numeric_cell numeric_of_string (cell_at plays i)
                        = Some v /\ (min_plays <= v)%Q) /\
  keeps_row numeric_of_string min_plays (OStr "") = false /\
  (forall o, numeric_cell numeric_of_string o = None ->
     keeps_row numeric_of_string min_plays o = false) /\
  (forall o v, numeric_cell numeric_of_string o = Some v ->
     (keeps_row numeric_of_string min_plays o = true <-> (min_plays <= v)%Q)).
Proof.
  intros Hs Hc Hg Hlen. cbv zeta. split; [|split; [|split; [|split]]].
  - exact (qb_filtered_rows _ _ _ df df1 df2 plays min_plays n Hs Hc Hg Hlen).
  - intros i. rewrite filter_In, in_seq. unfold keeps_row.
    destruct (numeric_cell numeric_of_string (cell_at plays i)) as [v|].
    + rewrite Qle_bool_iff. split.
      * intros [Hi Hv]. split; [lia|]. exists v. auto.
      * intros [Hi (w & [= <-] & Hw)]. split; [lia|exact Hw].
    + split; [intros [_ H]; discriminate|].
      intros [_ (w & H & _)]. discriminate.
  - reflexivity.
  - intros o Ho. unfold keeps_row. rewrite Ho. reflexivity.
  - intros o v Ho. unfold keeps_row. rewrite Ho. apply Qle_bool_iff.
Qed.

Lemma plays_threshold_keeps_readable_rows_witness :
  qb_filtered Decimal.write Decimal.float_of Decimal.read qb_frame (100 # 1)%Q
  = Ok [("Player Name", ObjSeries [OStr "Mahomes"; OStr "Hurts"; OStr "Love"]);
        ("Plays", NumSeries [Some (150 # 1)%Q; Some (100 # 1)%Q;
                             Some (120 # 1)%Q]);
        ("EPA", NumSeries [Some (25 # 100)%Q; Some (75 # 100)%Q;
                           Some (5 # 10)%Q]);
        ("Sacks", NumSeries [None; Some (6 # 1)%Q; Some (4 # 1)%Q])] /\
  filter (fun i => keeps_row Decimal.read (100 # 1)%Q
                     (cell_at (ObjSeries [OStr "150"; OStr ""; OStr "abc";
                                          ONum (80 # 1)%Q; OStr "100";
                                          OStr "120"]) i))
         (seq 0 6)
  = [0; 4; 5].
Proof.
  destruct (coerce_columns Decimal.write Decimal.float_of Decimal.read
              (set_col qb_frame "Player Name"
                 (ObjSeries [OStr "Mahomes"; OStr "Allen"; OStr "Jackson";
                             OStr "Burrow"; OStr "Hurts"; OStr "Love"])))
    as [df2|e] eqn:Hc; [|vm_compute in Hc; discriminate].
  assert (Hlen : all_len 6 df2).
  { vm_compute in Hc. injection Hc as <-. repeat constructor. }
  destruct (plays_threshold_keeps_readable_rows
              Decimal.write Decimal.float_of Decimal.read
              qb_frame _ df2
              (ObjSeries [OStr "150"; OStr ""; OStr "abc";
                          ONum (80 # 1)%Q; OStr "100"; OStr "120"])
              (100 # 1)%Q 6 eq_refl Hc eq_refl Hlen) as (Hq & _).
  split.
  - rewrite Hq. vm_compute in Hc. injection Hc as <-. reflexivity.
  - vm_compute. reflexivity.
Defined.

(** C4, as the code has it.  Quarterback pipeline: a cell of a numeric
    column outside the four percentage columns that is empty, missing or
    does not read as a number is NaN in the coerced column and the step
    raises nothing, and an empty percentage cell becomes NaN; the frame
    that is plotted is chosen by the [Plays] cells alone, so a row
    without an axis value stays in it, and the drawing loop labels every
    row of that frame at its two axis cells, NaN included.  Team
    pipeline: the filtered frame holds exactly the rows with both axis
    values present, in order, and the reference lines, the limits and the
    drawing are taken from it alone.  In both pipelines the mean, the
    standard deviation, the minimum and the maximum depend only on the
    values that are present. *)
Theorem missing_values_are_skipped :
  (forall str_of_float float_of_string numeric_of_string df col s,
     mem col text_cols = false -> mem col percent_cols = false ->
     get_col df col = Ok s ->
     coerce_step str_of_float float_of_string numeric_of_string (Ok df) col
     = Ok (set_col df col (NumSeries (to_numeric numeric_of_string s)))) /\
  (forall (numeric_of_string : string -> option Q) s i,
     cell_at s i = OStr "" \/
     (exists t, cell_at s i = OStr t /\ numeric_of_string t = None) \/
     obj_isna (cell_at s i) = true ->
     nth i (to_numeric numeric_of_string s) None = None) /\
  (forall float_of_string,
     percent_cell float_of_string "" = Ok None /\
     percent_cell float_of_string "%" = Ok None) /\
  (forall df x_col y_col secondary join_key joined n sx sy,
     join_sources df secondary join_key = Ok joined ->
     all_len n joined ->
     get_col (percent_normalize joined x_col y_col) x_col = Ok sx ->
     get_col (percent_normalize joined x_col y_col) y_col = Ok sy ->
     team_filtered df x_col y_col secondary join_key
     = Ok (map (fun cs =>
                  (fst cs,
                   take_rows (filter (row_complete sx sy) (seq 0 n))
                             (snd cs)))
               (percent_normalize joined x_col y_col))) /\
  (forall str_of_float logos df x_col y_col secondary join_key title
          label_col x_label y_label invert_x invert_y fig,
     create_nfl_scatter_plot str_of_float logos df x_col y_col secondary
       join_key title label_col x_label y_label invert_x invert_y = Ok fig ->
     exists plot_df sx sy xs ys xlim ylim,
       team_filtered df x_col y_col secondary join_key = Ok plot_df /\
       get_col plot_df x_col = Ok sx /\ as_floats sx = Ok xs /\
       get_col plot_df y_col = Ok sy /\ as_floats sy = Ok ys /\
       team_limits xs = (Some (fst xlim), Some (snd xlim)) /\
       team_limits ys = (Some (fst ylim), Some (snd ylim)) /\
       fig_ops fig
       = flat_map (plot_row str_of_float logos plot_df xs ys label_col)
                  (seq 0 (nrows plot_df)) /\
       fig_vline fig = mean xs /\ fig_hline fig = mean ys /\
       fig_xlim fig = flip_if invert_x xlim /\
       fig_ylim fig = flip_if invert_y ylim) /\
  (forall str_of_float float_of_string numeric_of_string
          df df1 df2 plays min_plays n,
     shorten_names df = Ok df1 ->
     coerce_columns str_of_float float_of_string numeric_of_string df1
       = Ok df2 ->
     get_col df "Plays" = Ok plays ->
     all_len n df2 ->
     qb_filtered str_of_float float_of_string numeric_of_string df min_plays
     = Ok (map (fun cs =>
                  (fst cs,
                   take_rows
                     (filter (fun i => keeps_row numeric_of_string min_plays
                                                 (cell_at plays i))
                             (seq 0 n))
                     (snd cs))) df2)) /\
  (forall str_of_float float_of_string numeric_of_string logos
          df x_axis y_axis min_plays title fig,
     create_qb_plot str_of_float float_of_string numeric_of_string logos
       df x_axis y_axis min_plays title = Ok fig ->
     exists df_plot sx sy xs ys names,
       qb_filtered str_of_float float_of_string numeric_of_string df min_plays
         = Ok df_plot /\
       get_col df_plot x_axis = Ok sx /\ as_floats sx = Ok xs /\
       get_col df_plot y_axis = Ok sy /\ as_floats sy = Ok ys /\
       get_col df_plot "Player Name" = Ok names /\
       filter is_label (fig_ops fig)
       = map (fun i => Annotate (last_word (cell_at names i))
                                (nth i xs None) (nth i ys None))
             (seq 0 (nrows df_plot)) /\
       (forall i, i < nrows df_plot ->
          In (Annotate (last_word (cell_at names i))
                       (nth i xs None) (nth i ys None)) (fig_ops fig)) /\
       fig_vline fig = mean xs /\ fig_hline fig = mean ys /\
       qb_limits xs = (Some (fst (fig_xlim fig)), Some (snd (fig_xlim fig))) /\
       qb_limits ys
       = (Some (fst (fig_ylim fig)), Some (snd (fig_ylim fig)))) /\
  (forall l l', present l = present l' ->
     mean l = mean l' /\ std l = std l' /\ min l = min l' /\ max l = max l').
Proof.
  split; [exact coerce_step_total|].
  split.
  { intros nos s i H. rewrite nth_to_numeric.
    destruct H as [->|[(t & -> & H)|H]]; [reflexivity| |].
    - cbn [numeric_cell]. rewrite H. now destruct (String.eqb t "").
    - destruct (cell_at s i); try discriminate; reflexivity. }
  split; [exact percent_cell_empty|].
  split; [exact team_filtered_rows|].
  split; [exact team_plot_inv|].
  split; [exact qb_filtered_rows|].
  split; [|exact reductions_skip_missing].
  intros str_of_float float_of_string numeric_of_string logos
         df x_axis y_axis min_plays title fig H.
  destruct (qb_plot_inv _ _ _ _ _ _ _ _ _ _ H)
    as (df_plot & sx & sy & xs & ys & names & rows & Hf & Gx & Fx & Gy & Fy &
        Gn & Hrows & Lx & Ly & Hops & Vx & Vy).
  exists df_plot, sx, sy, xs, ys, names.
  split; [exact Hf|]. split; [exact Gx|]. split; [exact Fx|].
  split; [exact Gy|]. split; [exact Fy|]. split; [exact Gn|].
  destruct (qb_rows_shape _ _ _ _ _ _ _ (mapM_Forall2 _ _ _ Hrows))
    as (L & _ & _).
  rewrite <- Hops in L.
  split; [exact L|]. split.
  - intros i Hi.
    assert (Hin : In (Annotate (last_word (cell_at names i))
                               (nth i xs None) (nth i ys None))
                     (filter is_label (fig_ops fig))).
    { rewrite L.
      apply (in_map (fun i => Annotate (last_word (cell_at names i))
                                       (nth i xs None) (nth i ys None))).
      apply in_seq. lia. }
    apply filter_In in Hin. exact (proj1 Hin).
  - auto.
Qed.

Lemma missing_values_are_skipped_witness :
  team_filtered scenario_c "X" "Y" None None
  = Ok [("Tm", ObjSeries [OStr "Dallas Cowboys"; OStr "PHI"]);
        ("X", NumSeries [Some (10 # 100)%Q; Some (30 # 100)%Q]);
        ("Y", NumSeries [Some (90 # 100)%Q; Some (10 # 100)%Q])].
Proof.
  refine (proj1 (proj2 (proj2 (proj2 missing_values_are_skipped)))
            scenario_c "X" "Y" None None scenario_c 3
            (NumSeries (div100 [Some (10 # 1)%Q; Some (20 # 1)%Q;
                                Some (30 # 1)%Q]))
            (NumSeries (div100 [Some (90 # 1)%Q; None; Some (10 # 1)%Q]))
            eq_refl _ eq_refl eq_refl).
  repeat constructor.
Defined.

(** C4 as stated fails in the quarterback pipeline: the first row of
    [qb_frame] has 150 plays and no [Sacks] value; it stays in the
    filtered frame and the drawing loop visits it, calling [annotate]
    with a NaN ordinate. *)
Lemma qb_row_without_value_is_drawn :
  qb_filtered Decimal.write Decimal.float_of Decimal.read qb_frame (100 # 1)%Q
  = Ok [("Player Name", ObjSeries [OStr "Mahomes"; OStr "Hurts"; OStr "Love"]);
        ("Plays", NumSeries [Some (150 # 1)%Q; Some (100 # 1)%Q;
                             Some (120 # 1)%Q]);
        ("EPA", NumSeries [Some (25 # 100)%Q; Some (75 # 100)%Q;
                           Some (5 # 10)%Q]);
        ("Sacks", NumSeries [None; Some (6 # 1)%Q; Some (4 # 1)%Q])] /\
  exists fig,
    create_qb_plot Decimal.write Decimal.float_of Decimal.read
      Decimal.no_logos qb_frame "EPA" "Sacks" (100 # 1)%Q None = Ok fig /\
    fig_ops fig
    = [Annotate "Mahomes" (Some (25 # 100)%Q) None;
       Annotate "Hurts" (Some (75 # 100)%Q) (Some (6 # 1)%Q);
       Annotate "Love" (Some (5 # 10)%Q) (Some (4 # 1)%Q)].
Proof.
  split; [vm_compute; reflexivity|].
  destruct (qb_plot_ok Decimal.write Decimal.float_of Decimal.read
              Decimal.no_logos qb_frame "EPA" "Sacks" (100 # 1)%Q None
              _ _ _ _ _ _ _
              ltac:(vm_compute; reflexivity) eq_refl eq_refl eq_refl eq_refl
              eq_refl ltac:(vm_compute; reflexivity))
    as (fig & Hrun & Hops & _); [simpl; lia|simpl; lia|].
  exists fig. split; [exact Hrun|]. rewrite Hops. reflexivity.
Qed.
